(** * ZHVI map application (js/app.js): price ranges, colour scale and view state

    A shallow embedding of the price-normalisation and rendering pipeline of
    [js/app.js]: [getColor], [calculatePriceRange],
    [calculateNationalPriceRanges], [applyPriceRange], [styleFeature],
    [loadStateGeoJSON], [renderState], [updateYear], [setScaleMode] and
    [togglePlay], together with the part of the browser they act on (Leaflet
    layers, interval timers, geometry fetches in flight, the texts shown on
    the page).

    Conventions.
    - A JavaScript number is a [jsnum]: a finite value (a rational), one of
      the two infinities, or NaN.  Every arithmetic operation on finite
      values rounds its exact result with [round64]: to nearest, ties to
      even, on a significand of 53 bits, as IEEE-754 binary64 does.  The
      exponent range is unbounded (no overflow to infinity, no subnormal
      numbers) and the sign of zero is not represented.
    - [COLORS] and [STATES] are declared outside [js/app.js]; they are
      parameters of the development.
    - [AppState] and the browser objects it points to form a [World], which
      every function takes and returns.  Layers and timers are referred to
      by handle, so that a layer restyled through [AppState.currentLayer] is
      the one on the map.
    - An [async] function is cut at its [await]: the part before it runs
      when the function is called, the part after it when the awaited fetch
      settles.  The events of the single-threaded event loop are processed
      one at a time by [step]; an interleaving is a list of events.
    - Writes to the page that no function reads back (button label, info
      panel, toggle classes) are left out.

    The development then goes on to the callback of [loadZHVIData], to
    [searchZipCode] and the input handler of its box, and to the texts of
    the info panel ([formatCurrency], [highlightFeature]), which stand
    beside the [World] and are given as structured values, not as
    characters.  There, an object used as a table ([zhviData], [STATES])
    is a finite map on its own keys (the properties every object inherits
    are not keys), and a text is a list of 8-bit characters. *)

From Stdlib Require Import QArith Qround Qpower Lqa Lia Ascii.
From stdpp Require Import gmap strings list fin_maps sorting.

(** ** JavaScript numbers *)

Inductive jsnum : Type :=
  | Fin (q : Q)
  | PInf
  | NInf
  | NaN.

Definition Qltb (x y : Q) : bool := negb (Qle_bool y x).

Definition of_Z (z : Z) : jsnum := Fin (inject_Z z).
Definition of_nat (n : nat) : jsnum := of_Z (Z.of_nat n).

(** [isNaN(x)] *)
Definition isNaN (x : jsnum) : bool :=
  match x with NaN => true | _ => false end.

(** [!x] for a number: true for zero and NaN. *)
Definition falsy (x : jsnum) : bool :=
  match x with
  | Fin q => Qeq_bool q 0
  | NaN => true
  | _ => false
  end.

(** [x < y]; any comparison with NaN is false. *)
Definition jlt (x y : jsnum) : bool :=
  match x, y with
  | Fin a, Fin b => Qltb a b
  | Fin _, PInf | NInf, Fin _ | NInf, PInf => true
  | _, _ => false
  end.

(** [x <= y] *)
Definition jle (x y : jsnum) : bool :=
  match x, y with
  | Fin a, Fin b => Qle_bool a b
  | Fin _, PInf | NInf, Fin _ | NInf, PInf | PInf, PInf | NInf, NInf => true
  | _, _ => false
  end.

(** [Math.floor] *)
Definition jfloor (x : jsnum) : jsnum :=
  match x with
  | Fin q => of_Z (Qfloor q)
  | _ => x
  end.

(** [Math.min(x, y)] and [Math.max(x, y)]: NaN if either argument is. *)
Definition jmin (x y : jsnum) : jsnum :=
  match x, y with
  | NaN, _ | _, NaN => NaN
  | _, _ => if jle x y then x else y
  end.

Definition jmax (x y : jsnum) : jsnum :=
  match x, y with
  | NaN, _ | _, NaN => NaN
  | _, _ => if jle x y then y else x
  end.

(** *** Rounding to binary64 precision *)

Section RoundingDefinitions.

Local Open Scope Q_scope.

(** The exponent [e] with [2^e <= q < 2^(e+1)], for a positive [q]. *)
Definition binade (q : Q) : Z :=
  let e0 := (Z.log2 (Qnum q) - Z.log2 (Zpos (Qden q)))%Z in
  if Qle_bool (2 ^ e0) q then e0 else (e0 - 1)%Z.

(** The integer nearest to [x]; a tie goes to the even one. *)
Definition rne (x : Q) : Z :=
  let f := Qfloor x in
  match Qcompare (x - inject_Z f) (1 # 2) with
  | Lt => f
  | Gt => (f + 1)%Z
  | Eq => if Z.even f then f else (f + 1)%Z
  end.

(** A positive [q] rounded to 53 significant bits: the multiple of
    [2^(e-52)] nearest to it, [e] being its exponent. *)
Definition roundPos (q : Q) : Q :=
  let s := (binade q - 52)%Z in
  inject_Z (rne (q / 2 ^ s)) * 2 ^ s.

(** Rounding is symmetric around zero. *)
Definition round64 (q : Q) : Q :=
  match Qcompare 0 q with
  | Eq => 0
  | Lt => roundPos q
  | Gt => - roundPos (- q)
  end.

End RoundingDefinitions.

(** *** Arithmetic *)

(** [x - y] *)
Definition jsub (x y : jsnum) : jsnum :=
  match x, y with
  | NaN, _ | _, NaN => NaN
  | Fin a, Fin b => Fin (round64 (a - b)%Q)
  | Fin _, PInf => NInf
  | Fin _, NInf => PInf
  | PInf, PInf => NaN
  | PInf, _ => PInf
  | NInf, NInf => NaN
  | NInf, _ => NInf
  end.

(** The infinity of the given sign. *)
Definition signed_inf (positive : bool) : jsnum :=
  if positive then PInf else NInf.

(** [x / y].  A finite number divided by zero gives an infinity of the
    sign of the dividend, and NaN for 0/0 (the zero divisor counts as
    positive zero, which is what [x - x] yields); an infinity divided by a
    finite number keeps or flips its sign with the sign of the divisor. *)
Definition jdiv (x y : jsnum) : jsnum :=
  match x, y with
  | NaN, _ | _, NaN => NaN
  | Fin a, Fin b =>
      if Qeq_bool b 0 then
        if Qltb 0 a then PInf else if Qltb a 0 then NInf else NaN
      else Fin (round64 (a / b)%Q)
  | Fin _, _ => Fin 0
  | PInf, Fin b => signed_inf (Qle_bool 0 b)
  | NInf, Fin b => signed_inf (negb (Qle_bool 0 b))
  | _, _ => NaN
  end.

(** [x * y] *)
Definition jmul (x y : jsnum) : jsnum :=
  match x, y with
  | NaN, _ | _, NaN => NaN
  | Fin a, Fin b => Fin (round64 (a * b)%Q)
  | Fin a, PInf | PInf, Fin a =>
      if Qeq_bool a 0 then NaN else signed_inf (Qltb 0 a)
  | Fin a, NInf | NInf, Fin a =>
      if Qeq_bool a 0 then NaN else signed_inf (Qltb a 0)
  | PInf, PInf | NInf, NInf => PInf
  | PInf, NInf | NInf, PInf => NInf
  end.

(** ** Data model *)

(** A polygon feature of a state's GeoJSON file; only its ZIP identifier
    ([feature.properties.ZCTA5CE10]) is read by the application. *)
Record Feature : Type := { ZCTA5CE10 : string }.

Record GeoJSON : Type := { features : list Feature }.

(** An entry of [STATES]. *)
Record StateInfo : Type := {
  state_name : string;
  state_file : string;
  state_center : Q * Q;
  state_zoom : Z
}.

(** The object [{ min, max }] kept in [AppState.priceRange] and in each
    entry of [AppState.nationalPriceRange]. *)
Record MinMax : Type := { pr_min : jsnum; pr_max : jsnum }.

(** The object returned by [calculatePriceRange]:
    [{ min, max, median, lowest, highest, count }]. *)
Record PriceRange : Type := {
  r_min : jsnum;
  r_max : jsnum;
  r_median : jsnum;
  r_lowest : jsnum;
  r_highest : jsnum;
  r_count : nat
}.

(** A Leaflet GeoJSON layer: the data it was built from and the fill colour
    last given to each of its features by the style function ([None] is
    JavaScript's [undefined]). *)
Record Layer : Type := {
  layer_geojson : GeoJSON;
  layer_fill : list (option string)
}.

(** [AppState].  [map_layers] and [map_view] are the layers added to
    [AppState.map] and the view it was last asked to fly to; layers and
    timers are referred to by handle.  A row of [zhviData] maps a year to
    the number [parseFloat] reads in that cell; an absent or empty cell has
    no entry. *)
Record AppState : Type := mkAppState {
  map_layers : list nat;
  map_view : option (Q * Q * Z);
  currentLayer : option nat;
  currentGeoJSON : option GeoJSON;
  zhviData : gmap string (gmap Z jsnum);
  currentYear : Z;
  currentState : option string;
  isPlaying : bool;
  playInterval : option nat;
  priceRange : MinMax;
  scaleMode : string;
  nationalPriceRange : gmap Z MinMax
}.

Definition with_map_layers (v : list nat) (x : AppState) : AppState :=
  mkAppState v (map_view x) (currentLayer x) (currentGeoJSON x) (zhviData x)
    (currentYear x) (currentState x) (isPlaying x) (playInterval x)
    (priceRange x) (scaleMode x) (nationalPriceRange x).
Definition with_map_view (v : option (Q * Q * Z)) (x : AppState) : AppState :=
  mkAppState (map_layers x) v (currentLayer x) (currentGeoJSON x) (zhviData
    x) (currentYear x) (currentState x) (isPlaying x) (playInterval x)
    (priceRange x) (scaleMode x) (nationalPriceRange x).
Definition with_currentLayer (v : option nat) (x : AppState) : AppState :=
  mkAppState (map_layers x) (map_view x) v (currentGeoJSON x) (zhviData x)
    (currentYear x) (currentState x) (isPlaying x) (playInterval x)
    (priceRange x) (scaleMode x) (nationalPriceRange x).
Definition with_currentGeoJSON (v : option GeoJSON) (x : AppState) : AppState :=
  mkAppState (map_layers x) (map_view x) (currentLayer x) v (zhviData x)
    (currentYear x) (currentState x) (isPlaying x) (playInterval x)
    (priceRange x) (scaleMode x) (nationalPriceRange x).
Definition with_zhviData (v : gmap string (gmap Z jsnum)) (x : AppState) : AppState :=
  mkAppState (map_layers x) (map_view x) (currentLayer x) (currentGeoJSON x)
    v (currentYear x) (currentState x) (isPlaying x) (playInterval x)
    (priceRange x) (scaleMode x) (nationalPriceRange x).
Definition with_currentYear (v : Z) (x : AppState) : AppState :=
  mkAppState (map_layers x) (map_view x) (currentLayer x) (currentGeoJSON x)
    (zhviData x) v (currentState x) (isPlaying x) (playInterval x)
    (priceRange x) (scaleMode x) (nationalPriceRange x).
Definition with_currentState (v : option string) (x : AppState) : AppState :=
  mkAppState (map_layers x) (map_view x) (currentLayer x) (currentGeoJSON x)
    (zhviData x) (currentYear x) v (isPlaying x) (playInterval x)
    (priceRange x) (scaleMode x) (nationalPriceRange x).
Definition with_isPlaying (v : bool) (x : AppState) : AppState :=
  mkAppState (map_layers x) (map_view x) (currentLayer x) (currentGeoJSON x)
    (zhviData x) (currentYear x) (currentState x) v (playInterval x)
    (priceRange x) (scaleMode x) (nationalPriceRange x).
Definition with_playInterval (v : option nat) (x : AppState) : AppState :=
  mkAppState (map_layers x) (map_view x) (currentLayer x) (currentGeoJSON x)
    (zhviData x) (currentYear x) (currentState x) (isPlaying x) v
    (priceRange x) (scaleMode x) (nationalPriceRange x).
Definition with_priceRange (v : MinMax) (x : AppState) : AppState :=
  mkAppState (map_layers x) (map_view x) (currentLayer x) (currentGeoJSON x)
    (zhviData x) (currentYear x) (currentState x) (isPlaying x)
    (playInterval x) v (scaleMode x) (nationalPriceRange x).
Definition with_scaleMode (v : string) (x : AppState) : AppState :=
  mkAppState (map_layers x) (map_view x) (currentLayer x) (currentGeoJSON x)
    (zhviData x) (currentYear x) (currentState x) (isPlaying x)
    (playInterval x) (priceRange x) v (nationalPriceRange x).
Definition with_nationalPriceRange (v : gmap Z MinMax) (x : AppState) : AppState :=
  mkAppState (map_layers x) (map_view x) (currentLayer x) (currentGeoJSON x)
    (zhviData x) (currentYear x) (currentState x) (isPlaying x)
    (playInterval x) (priceRange x) (scaleMode x) v.

(** What the page shows: the year label and slider, the legend bounds, the
    statistics bar and the loading overlay (numbers are kept as they are
    before [formatCurrency]). *)
Record Display : Type := mkDisplay {
  shownYear : Z;
  legend : MinMax;
  stats : option PriceRange;
  loading : bool
}.

Definition with_shownYear (v : Z) (x : Display) : Display :=
  mkDisplay v (legend x) (stats x) (loading x).
Definition with_legend (v : MinMax) (x : Display) : Display :=
  mkDisplay (shownYear x) v (stats x) (loading x).
Definition with_stats (v : option PriceRange) (x : Display) : Display :=
  mkDisplay (shownYear x) (legend x) v (loading x).
Definition with_loading (v : bool) (x : Display) : Display :=
  mkDisplay (shownYear x) (legend x) (stats x) v.

(** The application state together with the browser objects it refers to:
    the Leaflet layers created so far (a layer's handle is its position), the
    interval timers that are active, the [renderState] calls suspended on a
    fetch (keyed by request number, with the [stateAbbr] they were called
    with), the URLs fetched so far, the count of [console.error] calls, and
    the page. *)
Record World : Type := mkWorld {
  app : AppState;
  layers : list Layer;
  timers : list nat;
  nextTimer : nat;
  pending : gmap nat string;
  fetchLog : list string;
  consoleErrors : nat;
  display : Display
}.

Definition with_app (v : AppState) (x : World) : World :=
  mkWorld v (layers x) (timers x) (nextTimer x) (pending x) (fetchLog x)
    (consoleErrors x) (display x).
Definition with_layers (v : list Layer) (x : World) : World :=
  mkWorld (app x) v (timers x) (nextTimer x) (pending x) (fetchLog x)
    (consoleErrors x) (display x).
Definition with_timers (v : list nat) (x : World) : World :=
  mkWorld (app x) (layers x) v (nextTimer x) (pending x) (fetchLog x)
    (consoleErrors x) (display x).
Definition with_nextTimer (v : nat) (x : World) : World :=
  mkWorld (app x) (layers x) (timers x) v (pending x) (fetchLog x)
    (consoleErrors x) (display x).
Definition with_pending (v : gmap nat string) (x : World) : World :=
  mkWorld (app x) (layers x) (timers x) (nextTimer x) v (fetchLog x)
    (consoleErrors x) (display x).
Definition with_fetchLog (v : list string) (x : World) : World :=
  mkWorld (app x) (layers x) (timers x) (nextTimer x) (pending x) v
    (consoleErrors x) (display x).
Definition with_consoleErrors (v : nat) (x : World) : World :=
  mkWorld (app x) (layers x) (timers x) (nextTimer x) (pending x) (fetchLog
    x) v (display x).
Definition with_display (v : Display) (x : World) : World :=
  mkWorld (app x) (layers x) (timers x) (nextTimer x) (pending x) (fetchLog
    x) (consoleErrors x) v.

Definition upd_app (f : AppState -> AppState) (w : World) : World :=
  with_app (f (app w)) w.

Definition upd_display (f : Display -> Display) (w : World) : World :=
  with_display (f (display w)) w.

(** The initial value of [AppState] (no dataset loaded yet). *)
Definition initialAppState : AppState :=
  {| map_layers := [];
     map_view := None;
     currentLayer := None;
     currentGeoJSON := None;
     zhviData := ∅;
     currentYear := 2000;
     currentState := None;
     isPlaying := false;
     playInterval := None;
     priceRange := {| pr_min := of_Z 0; pr_max := of_Z 1000000 |};
     scaleMode := "state";
     nationalPriceRange := ∅ |}.

Definition initialWorld : World :=
  {| app := initialAppState;
     layers := [];
     timers := [];
     nextTimer := 0;
     pending := ∅;
     fetchLog := [];
     consoleErrors := 0;
     display :=
       {| shownYear := 2000;
          legend := {| pr_min := of_Z 0; pr_max := of_Z 1000000 |};
          stats := None;
          loading := false |} |}.

(** The doubles nearest to the literals [0.05], [0.95] and [0.5]. *)
Definition c05 : Q := 3602879701896397 # 72057594037927936.
Definition c95 : Q := 4278419646001971 # 4503599627370496.
Definition c50 : Q := 1 # 2.

(** A number used as an array index denotes an element only when it is a
    non-negative integer. *)
Definition is_index (q : Q) : bool :=
  Qeq_bool q (inject_Z (Qfloor q)) && (0 <=? Qfloor q)%Z.

(** [prices[i]].  Reading outside the array gives [undefined], which every
    later arithmetic use turns into NaN; it is represented by NaN. *)
Definition at_index (l : list jsnum) (i : jsnum) : jsnum :=
  match i with
  | Fin q => if is_index q then nth (Z.to_nat (Qfloor q)) l NaN else NaN
  | _ => NaN
  end.

(** [!isNaN(price) && price > 0] *)
Definition validPrice (price : jsnum) : bool :=
  negb (isNaN price) && jlt (of_Z 0) price.

(** What the event loop delivers to the application: a call of
    [renderState] (state chosen in the drop-down), the settlement of the
    fetch of a suspended [renderState], a move of the year slider, a click
    on a scale toggle, a click on the play button, an expiry of an interval
    timer. *)
Inductive event : Type :=
  | EvRenderState (stateAbbr : string)
  | EvFetchSettled (request : nat) (outcome : option GeoJSON)
  | EvUpdateYear (year : Z)
  | EvSetScaleMode (mode : string)
  | EvTogglePlay
  | EvTimer (handle : nat).

Section App.

Variable COLORS : list string.
Variable STATES : gmap string StateInfo.

(** *** Colour scale *)

Definition noDataColor : string := "#6b7280".

(** [COLORS[i]] *)
Definition colorAt (i : jsnum) : option string :=
  match i with
  | Fin q => if is_index q then COLORS !! Z.to_nat (Qfloor q) else None
  | _ => None
  end.

(** The palette index of [getColor]: [Math.max(0, index)]. *)
Definition bucketIndex (price : jsnum) (r : MinMax) : jsnum :=
  let normalized :=
    jdiv (jsub price (pr_min r)) (jsub (pr_max r) (pr_min r)) in
  let index :=
    jmin (jfloor (jmul normalized (of_nat (length COLORS))))
         (of_Z (Z.of_nat (length COLORS) - 1)) in
  jmax (of_Z 0) index.

(** The value of [normalized * COLORS.length] for a finite price [p] and
    finite bounds [lo], [hi] that differ. *)
Definition scaled (lo hi p : Q) : Q :=
  round64
    (round64 (round64 (p - lo) / round64 (hi - lo))
     * inject_Z (Z.of_nat (length COLORS))).

Definition getColor (price : jsnum) (a : AppState) : option string :=
  if falsy price then Some noDataColor
  else colorAt (bucketIndex price (priceRange a)).

(** *** Price ranges *)

(** [data && data[year]]: the cell of [year] in the row of [zip]. *)
Definition yearCell (zip : string) (year : Z) (a : AppState)
  : option jsnum :=
  match zhviData a !! zip with
  | Some data => data !! year
  | None => None
  end.

(** The comparison function [(a, b) => a - b] given to [sort]. *)
Definition comparefn (a b : jsnum) : jsnum := jsub a b.

(** [prices.sort(comparefn)].  For a consistent comparison function the
    result of [sort] is fixed: the elements in ascending order, those that
    compare equal in their original order.  Insertion from the right
    computes it. *)
Fixpoint insertSorted (x : jsnum) (l : list jsnum) : list jsnum :=
  match l with
  | [] => [x]
  | y :: l' =>
      if jlt (of_Z 0) (comparefn x y) then y :: insertSorted x l'
      else x :: l
  end.

Definition sortPrices (prices : list jsnum) : list jsnum :=
  foldr insertSorted [] prices.

(** [Math.floor(prices.length * c)] *)
Definition percentileIndex (c : Q) (n : nat) : jsnum :=
  jfloor (jmul (of_nat n) (Fin c)).

(** The prices gathered by the [forEach] loop of [calculatePriceRange]. *)
Definition collectPrices (geojson : GeoJSON) (a : AppState)
  : list jsnum :=
  omap (fun feature =>
          match yearCell (ZCTA5CE10 feature) (currentYear a) a with
          | Some price => if validPrice price then Some price else None
          | None => None
          end)
       (features geojson).

Definition emptyRange : PriceRange :=
  {| r_min := of_Z 0; r_max := of_Z 1000000; r_median := of_Z 0;
     r_lowest := of_Z 0; r_highest := of_Z 0; r_count := 0 |}.

(** [calculatePriceRange] from the test on [prices.length] onwards. *)
Definition rangeOfPrices (prices : list jsnum) : PriceRange :=
  if (length prices =? 0)%nat then emptyRange
  else
    let sorted := sortPrices prices in
    let n := length sorted in
    {| r_min := at_index sorted (percentileIndex c05 n);
       r_max := at_index sorted (percentileIndex c95 n);
       r_median := at_index sorted (percentileIndex c50 n);
       r_lowest := at_index sorted (of_Z 0);
       r_highest := at_index sorted (of_Z (Z.of_nat n - 1));
       r_count := n |}.

Definition calculatePriceRange (geojson : GeoJSON) (a : AppState)
  : PriceRange :=
  rangeOfPrices (collectPrices geojson a).

(** The prices of [year] over [Object.values(AppState.zhviData)]. *)
Definition nationalPrices (year : Z) (a : AppState) : list jsnum :=
  omap (fun data : gmap Z jsnum =>
          match data !! year with
          | Some price => if validPrice price then Some price else None
          | None => None
          end)
       (map snd (map_to_list (zhviData a))).

(** The entry [calculateNationalPriceRanges] stores for one year. *)
Definition nationalRangeOf (prices : list jsnum) : MinMax :=
  if (0 <? length prices)%nat then
    let sorted := sortPrices prices in
    let n := length sorted in
    {| pr_min := at_index sorted (percentileIndex c05 n);
       pr_max := at_index sorted (percentileIndex c95 n) |}
  else {| pr_min := of_Z 50000; pr_max := of_Z 1000000 |}.

Definition calculateNationalPriceRanges (a : AppState) : AppState :=
  foldl
    (fun a year =>
       with_nationalPriceRange
         (<[year := nationalRangeOf (nationalPrices year a)]>
            (nationalPriceRange a)) a)
    a (seqZ 2000 26).

(** *** Styling *)

Definition styleFeature (feature : Feature) (a : AppState)
  : option string :=
  let price :=
    match yearCell (ZCTA5CE10 feature) (currentYear a) a with
    | Some v => if falsy v then of_Z 0 else v
    | None => of_Z 0
    end in
  getColor price a.

(** [L.geoJSON(geojson, { style: styleFeature, ... })] *)
Definition newLayer (geojson : GeoJSON) (a : AppState) : Layer :=
  {| layer_geojson := geojson;
     layer_fill := map (fun f => styleFeature f a) (features geojson) |}.

(** [layer.setStyle(styleFeature)] *)
Definition setStyle (l : nat) (w : World) : World :=
  with_layers
    (alter (fun L => newLayer (layer_geojson L) (app w)) l (layers w)) w.

Definition applyPriceRange (stateRange : PriceRange) (w : World) : World :=
  let a := app w in
  let range :=
    if bool_decide (scaleMode a = "national") then
      match nationalPriceRange a !! currentYear a with
      | Some national =>
          {| pr_min := pr_min national; pr_max := pr_max national |}
      | None => {| pr_min := r_min stateRange; pr_max := r_max stateRange |}
      end
    else {| pr_min := r_min stateRange; pr_max := r_max stateRange |} in
  let w := upd_app (with_priceRange range) w in
  let w := upd_display (with_legend range) w in
  (* updateStats *)
  upd_display (with_stats (Some stateRange)) w.

(** *** Loading and rendering a state *)

Definition showLoading (show : bool) (w : World) : World :=
  upd_display (with_loading show) w.

(** [loadStateGeoJSON] up to [await fetch(...)]: either it returns [null]
    at once (unknown state, nothing is awaited on the network), or it
    issues the request and the caller stays suspended under the request's
    number. *)
Definition loadStateGeoJSON (stateAbbr : string) (w : World) : World :=
  match STATES !! stateAbbr with
  | None => w
  | Some state =>
      let w := showLoading true w in
      let request := length (fetchLog w) in
      let w :=
        with_fetchLog (fetchLog w ++ ["geojsons/" +:+ state_file state]) w in
      with_pending (<[request := stateAbbr]> (pending w)) w
  end.

(** [renderState] up to [await loadStateGeoJSON(stateAbbr)]. *)
Definition renderState (stateAbbr : string) (w : World) : World :=
  if bool_decide (stateAbbr = "") then w
  else
    let w := upd_app (with_currentState (Some stateAbbr)) w in
    let w :=
      match currentLayer (app w) with
      | Some l =>
          upd_app
            (fun a =>
               with_currentLayer None
                 (with_map_layers
                    (filter (fun x => x ≠ l) (map_layers a)) a)) w
      | None => w
      end in
    loadStateGeoJSON stateAbbr w.

(** The rest of [loadStateGeoJSON] once the fetch has settled: [outcome]
    is the parsed file, or [None] when the request, the parsing or the
    read of [geojson.features] failed (the [catch] branch). *)
Definition loadStateGeoJSON_settled (outcome : option GeoJSON) (w : World)
  : option GeoJSON * World :=
  let w :=
    match outcome with
    | Some _ => w
    | None => with_consoleErrors (S (consoleErrors w)) w
    end in
  (outcome, showLoading false w).

(** The rest of [renderState] after the [await]. *)
Definition renderState_resume (stateAbbr : string)
    (outcome : option GeoJSON) (w : World) : World :=
  let '(geojson, w) := loadStateGeoJSON_settled outcome w in
  match geojson with
  | None => w
  | Some geojson =>
      let w := upd_app (with_currentGeoJSON (Some geojson)) w in
      let l := length (layers w) in
      let w := with_layers (layers w ++ [newLayer geojson (app w)]) w in
      let w := upd_app (with_currentLayer (Some l)) w in
      let stateRange := calculatePriceRange geojson (app w) in
      let w := applyPriceRange stateRange w in
      let w := setStyle l w in
      let w := upd_app (fun a => with_map_layers (map_layers a ++ [l]) a) w in
      match STATES !! stateAbbr with
      | Some state =>
          upd_app
            (with_map_view (Some (state_center state, state_zoom state))) w
      | None => w
      end
  end.

(** *** Year, scale mode and animation *)

Definition updateYear (year : Z) (w : World) : World :=
  let w := upd_app (with_currentYear year) w in
  let w := upd_display (with_shownYear (currentYear (app w))) w in
  match currentLayer (app w), currentGeoJSON (app w) with
  | Some l, Some geojson =>
      let stateRange := calculatePriceRange geojson (app w) in
      let w := applyPriceRange stateRange w in
      setStyle l w
  | _, _ => w
  end.

Definition setScaleMode (mode : string) (w : World) : World :=
  let w := upd_app (with_scaleMode mode) w in
  match currentLayer (app w), currentGeoJSON (app w) with
  | Some l, Some geojson =>
      let stateRange := calculatePriceRange geojson (app w) in
      let w := applyPriceRange stateRange w in
      setStyle l w
  | _, _ => w
  end.

(** [clearInterval(handle)] *)
Definition clearInterval (handle : option nat) (w : World) : World :=
  match handle with
  | Some h => with_timers (filter (fun t => t ≠ h) (timers w)) w
  | None => w
  end.

(** [setInterval(callback, 800)]: the new handle and the world in which
    the timer is active. *)
Definition setInterval (w : World) : nat * World :=
  let h := nextTimer w in
  (h, with_nextTimer (S h) (with_timers (timers w ++ [h]) w)).

Definition togglePlay (w : World) : World :=
  if isPlaying (app w) then
    let w := clearInterval (playInterval (app w)) w in
    upd_app (with_isPlaying false) w
  else
    let w := upd_app (with_isPlaying true) w in
    let w :=
      if (2025 <=? currentYear (app w))%Z then updateYear 2000 w else w in
    let '(h, w) := setInterval w in
    upd_app (with_playInterval (Some h)) w.

(** The callback given to [setInterval] by [togglePlay]. *)
Definition playTick (w : World) : World :=
  if (2025 <=? currentYear (app w))%Z then togglePlay w
  else updateYear (currentYear (app w) + 1) w.

(** *** The event loop *)

Definition step (w : World) (e : event) : World :=
  match e with
  | EvRenderState stateAbbr => renderState stateAbbr w
  | EvFetchSettled request outcome =>
      match pending w !! request with
      | Some stateAbbr =>
          renderState_resume stateAbbr outcome
            (with_pending (delete request (pending w)) w)
      | None => w
      end
  | EvUpdateYear year => updateYear year w
  | EvSetScaleMode mode => setScaleMode mode w
  | EvTogglePlay => togglePlay w
  | EvTimer handle =>
      if bool_decide (handle ∈ timers w) then playTick w else w
  end.

Definition run (w : World) (es : list event) : World := foldl step w es.

End App.

(** ** Loading the dataset *)

(** A string of [n] characters ['0']. *)
Fixpoint zeros (n : nat) : string :=
  match n with
  | O => ""
  | S n => String "0"%char (zeros n)
  end.

(** [s.padStart(5, '0')] *)
Definition padStart5 (s : string) : string :=
  zeros (5 - String.length s) +:+ s.

(** A row of [results.data]: its [Zip_Code] field, when it has one, and its
    year cells (as in a row of [zhviData]). *)
Record CsvRow : Type := {
  Zip_Code : option string;
  row_cells : gmap Z jsnum
}.

(** The body of the [forEach] of [loadZHVIData]: a row with a non-empty
    [Zip_Code] is stored under its padded ZIP code. *)
Definition storeRow (a : AppState) (row : CsvRow) : AppState :=
  match Zip_Code row with
  | Some z =>
      if bool_decide (z = "") then a
      else with_zhviData (<[padStart5 z := row_cells row]> (zhviData a)) a
  | None => a
  end.

(** The [complete] callback of [loadZHVIData]: the rows are stored, then the
    national ranges are calculated. *)
Definition loadZHVIData (data : list CsvRow) (a : AppState) : AppState :=
  calculateNationalPriceRanges (foldl storeRow a data).

(** ** Searching a ZIP code *)

(** A decimal digit ([\d] of a regular expression). *)
Definition isDigit (c : ascii) : bool :=
  (48 <=? nat_of_ascii c)%nat && (nat_of_ascii c <=? 57)%nat.

(** [s.replace(/\D/g, '')] *)
Fixpoint removeNonDigits (s : string) : string :=
  match s with
  | EmptyString => EmptyString
  | String c s' =>
      if isDigit c then String c (removeNonDigits s') else removeNonDigits s'
  end.

(** [s.slice(0, n)] *)
Fixpoint sliceTo (n : nat) (s : string) : string :=
  match n, s with
  | S n', String c s' => String c (sliceTo n' s')
  | _, _ => EmptyString
  end.

(** The [input] handler of the ZIP search box:
    [value.replace(/\D/g, '').slice(0, 5)]. *)
Definition sanitizeZipInput (value : string) : string :=
  sliceTo 5 (removeNonDigits value).

(** The texts [searchZipCode] writes in [Elements.searchError]:
    'Please enter a valid 5-digit ZIP code',
    'ZIP code not found in our database',
    'Found! <formatCurrency(price)> in <year>',
    'ZIP found but no price data available',
    'ZIP code boundary not found in map data'. *)
Inductive searchMessage : Type :=
  | MsgInvalidZip
  | MsgNotInDatabase
  | MsgFound (price : jsnum) (year : Z)
  | MsgNoPriceData
  | MsgBoundaryNotFound.

(** The world together with what the search adds to the page: the message
    shown and whether it has the class [success], the features that carry
    the search highlight and the feature the map was last fitted to (a
    feature is a layer handle and a position in the layer). *)
Record SearchUI : Type := mkSearchUI {
  sw_world : World;
  searchError : option searchMessage;
  searchSuccess : bool;
  highlighted : list (nat * nat);
  fitted : option (nat * nat)
}.

(** What a call that may raise gives back. *)
Inductive completion (A : Type) : Type :=
  | Returned (a : A)
  | Threw.

Arguments Returned {A} a.
Arguments Threw {A}.

(** Where [searchZipCode] stands when control goes back to the event loop:
    it has returned, it has raised (the promise of this [async] function is
    rejected), or it is suspended on [await renderState(stateAbbr)]. *)
Inductive searchStage : Type :=
  | SearchReturned (ui : SearchUI)
  | SearchThrew
  | SearchAwaiting (stateAbbr : string) (ui : SearchUI).

Definition report (message : searchMessage) (success : bool)
    (ui : SearchUI) : SearchUI :=
  mkSearchUI (sw_world ui) (Some message) success (highlighted ui)
    (fitted ui).

(** The features of the layer of handle [l]. *)
Definition layerFeatures (l : nat) (w : World) : list Feature :=
  match layers w !! l with
  | Some L => features (layer_geojson L)
  | None => []
  end.

(** The callback given to [eachLayer] by [searchZipCode], for the feature
    at position [i] of layer [l]. *)
Definition searchVisit (zip : string) (l : nat)
    (acc : bool * SearchUI) (entry : nat * Feature) : bool * SearchUI :=
  let '(found, ui) := acc in
  let '(i, feature) := entry in
  if bool_decide (ZCTA5CE10 feature = zip) then
    let a := app (sw_world ui) in
    let '(message, success) :=
      match zhviData a !! zip with
      | Some data =>
          let price :=
            match data !! currentYear a with
            | Some v => if falsy v then of_Z 0 else v
            | None => of_Z 0
            end in
          (MsgFound price (currentYear a), true)
      | None => (MsgNoPriceData, false)
      end in
    (true,
     mkSearchUI (sw_world ui) (Some message) success
       (highlighted ui ++ [(l, i)]) (Some (l, i)))
  else (found, ui).

(** [searchZipCode] from [let found = false] onwards.  Calling [eachLayer]
    on [AppState.currentLayer] raises a [TypeError] when there is no
    current layer. *)
Definition searchZipCode_find (zip : string) (ui : SearchUI)
  : completion SearchUI :=
  match currentLayer (app (sw_world ui)) with
  | None => Threw
  | Some l =>
      let '(found, ui) :=
        foldl (searchVisit zip l) (false, ui)
          (imap (fun i f => (i, f)) (layerFeatures l (sw_world ui))) in
      Returned (if found then ui else report MsgBoundaryNotFound false ui)
  end.

Definition stageOf (c : completion SearchUI) : searchStage :=
  match c with
  | Returned ui => SearchReturned ui
  | Threw => SearchThrew
  end.

Section Search.

Variable COLORS : list string.
Variable STATES : gmap string StateInfo.

(** [getStateFromZip] is declared outside [js/app.js]; [None] stands for a
    result that is not a state abbreviation ([null], [undefined]). *)
Variable getStateFromZip : string -> option string.

(** [searchZipCode] up to its [await], or to its end when it awaits
    nothing. *)
Definition searchZipCode (zip : string) (ui : SearchUI) : searchStage :=
  if bool_decide (zip = "") || negb (String.length zip =? 5)%nat then
    SearchReturned (report MsgInvalidZip false ui)
  else
    match getStateFromZip zip with
    | None => SearchReturned (report MsgNotInDatabase false ui)
    | Some stateAbbr =>
        if bool_decide (stateAbbr = "")
           || negb (bool_decide (is_Some (STATES !! stateAbbr)))
        then SearchReturned (report MsgNotInDatabase false ui)
        else if bool_decide (currentState (app (sw_world ui))
                             = Some stateAbbr)
        then stageOf (searchZipCode_find zip ui)
        else
          SearchAwaiting stateAbbr
            (mkSearchUI (renderState STATES stateAbbr (sw_world ui))
               (searchError ui) (searchSuccess ui) (highlighted ui)
               (fitted ui))
    end.

(** The settlement of the fetch a suspended [searchZipCode] waits for: the
    awaited [renderState] runs to its end, then the search goes on. *)
Definition searchZipCode_settled (zip : string) (request : nat)
    (outcome : option GeoJSON) (ui : SearchUI) : completion SearchUI :=
  searchZipCode_find zip
    (mkSearchUI
       (step COLORS STATES (sw_world ui) (EvFetchSettled request outcome))
       (searchError ui) (searchSuccess ui) (highlighted ui) (fitted ui)).

(** The callback of the [setTimeout] that ends a highlight:
    [resetStyle] gives the feature the style [styleFeature] computes now,
    provided some layer is current. *)
Definition endHighlight (l i : nat) (ui : SearchUI) : SearchUI :=
  let w := sw_world ui in
  match currentLayer (app w) with
  | None => ui
  | Some _ =>
      let restyle (L : Layer) : Layer :=
        {| layer_geojson := layer_geojson L;
           layer_fill :=
             match features (layer_geojson L) !! i with
             | Some f =>
                 <[i := styleFeature COLORS f (app w)]> (layer_fill L)
             | None => layer_fill L
             end |} in
      mkSearchUI (with_layers (alter restyle l (layers w)) w)
        (searchError ui) (searchSuccess ui)
        (filter (fun e => e <> (l, i)) (highlighted ui)) (fitted ui)
  end.

End Search.

(** ** Texts of the info panel *)

(** The text [x.toFixed(f)] returns.  For a finite [x] below 10^21 in
    magnitude it is made of the digits of the integer [n] for which
    [n / 10^f] is nearest to the magnitude of [x] (the larger one of two
    equally near), read with [f] decimals, after a minus sign when [x] is
    negative; otherwise it is the text [String(x)] gives. *)
Inductive fixedText : Type :=
  | FixedDigits (negative : bool) (n : Z)
  | FixedString (x : jsnum).

Definition toFixed (f : nat) (x : jsnum) : fixedText :=
  match x with
  | Fin q =>
      let negative := Qltb q 0 in
      let m := if negative then (- q)%Q else q in
      if Qle_bool (10 ^ 21) m then FixedString x
      else
        FixedDigits negative
          (Qfloor (m * inject_Z (10 ^ Z.of_nat f) + (1 # 2))%Q)
  | _ => FixedString x
  end.

(** [text >= 0] for a text of [toFixed]: the text is converted back to a
    number, and a text such as "-0.0" converts to zero. *)
Definition fixedNonNegative (t : fixedText) : bool :=
  match t with
  | FixedDigits negative n => negb negative || (n =? 0)%Z
  | FixedString x => jle (of_Z 0) x
  end.

(** The text [formatCurrency] returns: 'N/A', '$' [t] 'M', '$' [t] 'K', or
    '$' followed by [value.toLocaleString()]. *)
Inductive currencyText : Type :=
  | CurrencyNA
  | CurrencyMillions (t : fixedText)
  | CurrencyThousands (t : fixedText)
  | CurrencyLocale (value : jsnum).

Definition formatCurrency (value : jsnum) : currencyText :=
  if falsy value then CurrencyNA
  else if jle (of_Z 1000000) value then
    CurrencyMillions (toFixed 2 (jdiv value (of_Z 1000000)))
  else if jle (of_Z 1000) value then
    CurrencyThousands (toFixed 0 (jdiv value (of_Z 1000)))
  else CurrencyLocale value.

(** [parseFloat(cell) || 0] *)
Definition orZero (cell : option jsnum) : jsnum :=
  match cell with
  | Some v => if falsy v then of_Z 0 else v
  | None => of_Z 0
  end.

(** The texts of [Elements.infoPrice] and [Elements.infoChange]:
    [formatCurrency(currentPrice)] or 'No data'; [plus] [change] '% since
    2000' (where [plus] is '+' or nothing), 'No historical data', or
    nothing. *)
Inductive priceText : Type :=
  | PriceCurrency (c : currencyText)
  | PriceNoData.

Inductive changeText : Type :=
  | ChangeSince2000 (plus : bool) (change : fixedText)
  | ChangeNoHistory
  | ChangeNone.

(** The class of [Elements.infoChange]: 'info-change', 'info-change
    positive' or 'info-change negative'. *)
Inductive changeClass : Type :=
  | InfoChange
  | InfoChangePositive
  | InfoChangeNegative.

(** The info panel: the ZIP code after 'ZIP Code: ', the price, the
    change and its class. *)
Record InfoPanel : Type := {
  infoZip : string;
  infoPrice : priceText;
  infoChange : changeText;
  infoChangeClass : changeClass
}.

(** What [highlightFeature] writes in the info panel. *)
Definition highlightFeature_info (feature : Feature) (a : AppState)
  : InfoPanel :=
  let zip := ZCTA5CE10 feature in
  match zhviData a !! zip with
  | Some data =>
      let currentPrice := orZero (data !! currentYear a) in
      let basePrice := orZero (data !! 2000%Z) in
      let '(text, class) :=
        if jlt (of_Z 0) basePrice && jlt (of_Z 0) currentPrice then
          let change :=
            toFixed 1
              (jmul (jdiv (jsub currentPrice basePrice) basePrice)
                 (of_Z 100)) in
          let isPositive := fixedNonNegative change in
          (ChangeSince2000 isPositive change,
           if isPositive then InfoChangePositive else InfoChangeNegative)
        else (ChangeNoHistory, InfoChange) in
      {| infoZip := zip;
         infoPrice := PriceCurrency (formatCurrency currentPrice);
         infoChange := text;
         infoChangeClass := class |}
  | None =>
      {| infoZip := zip;
         infoPrice := PriceNoData;
         infoChange := ChangeNone;
         infoChangeClass := InfoChange |}
  end.

(** ** Vocabulary of the statements *)

(** A list of numbers in ascending order of [<=]. *)
Definition ascending (l : list jsnum) : Prop :=
  StronglySorted (fun x y => jle x y = true) l.


(** The events that change the year or the scale mode. *)
Definition isViewChange (e : event) : Prop :=
  match e with
  | EvUpdateYear _ | EvSetScaleMode _ => True
  | _ => False
  end.

(** Layer [l] shows [geojson] styled for the current year, scale mode and
    dataset: its fill colours, the price range in force and the statistics
    shown are the ones [styleFeature], [applyPriceRange] and
    [calculatePriceRange] give on [geojson] in the current state. *)
Definition styledFrom (COLORS : list string) (geojson : GeoJSON) (l : nat)
    (w : World) : Prop :=
  layers w !! l = Some (newLayer COLORS geojson (app w))
  /\ priceRange (app w)
     = priceRange
         (app (applyPriceRange (calculatePriceRange geojson (app w)) w))
  /\ stats (display w) = Some (calculatePriceRange geojson (app w)).

(** The interval timers agree with the animation flag: while playing, the
    one active timer is the one recorded in [playInterval]; otherwise no
    timer is active. *)
Definition timersConsistent (w : World) : Prop :=
  if isPlaying (app w)
  then exists h : nat, playInterval (app w) = Some h /\ timers w = [h]
  else timers w = [].

(** ** Vocabulary of the further statements *)

(** Whether [loadZHVIData] stores a row under the key [k]. *)
Definition storesUnder (k : string) (row : CsvRow) : bool :=
  match Zip_Code row with
  | Some z => negb (bool_decide (z = "")) && bool_decide (padStart5 z = k)
  | None => false
  end.

(** The cells of the last row of [data] that is stored under [k]. *)
Fixpoint lastRowFor (k : string) (data : list CsvRow)
  : option (gmap Z jsnum) :=
  match data with
  | [] => None
  | row :: rest =>
      match lastRowFor k rest with
      | Some cells => Some cells
      | None => if storesUnder k row then Some (row_cells row) else None
      end
  end.

(** Whenever a layer is current, it is on the map and the cached geometry
    is the one it shows, styled for the current year, scale mode and
    dataset. *)
Definition renderedInSync (COLORS : list string) (w : World) : Prop :=
  forall l : nat,
    currentLayer (app w) = Some l ->
    l ∈ map_layers (app w)
    /\ exists geojson : GeoJSON,
        currentGeoJSON (app w) = Some geojson
        /\ styledFrom COLORS geojson l w.

(** The URL an event makes [renderState] fetch, if any. *)
Definition requestOf (STATES : gmap string StateInfo) (e : event)
  : option string :=
  match e with
  | EvRenderState r =>
      if bool_decide (r = "") then None
      else (fun state => "geojsons/" +:+ state_file state) <$> STATES !! r
  | _ => None
  end.

(** At [year], the national table is the one
    [calculateNationalPriceRanges] computes from the dataset, starting from
    an empty table. *)
Definition tableLoadedAt (year : Z) (a : AppState) : Prop :=
  nationalPriceRange a !! year
  = if bool_decide (2000 <= year <= 2025)%Z
    then Some (nationalRangeOf (nationalPrices year a))
    else None.

(** The current year is one the slider can show. *)
Definition yearInRange (w : World) : Prop :=
  (2000 <= currentYear (app w) <= 2025)%Z.

(** The years the slider can deliver. *)
Definition sliderYear (e : event) : Prop :=
  match e with
  | EvUpdateYear year => (2000 <= year <= 2025)%Z
  | _ => True
  end.

(** A text made of decimal digits only. *)
Fixpoint allDigits (s : string) : bool :=
  match s with
  | EmptyString => true
  | String c s' => isDigit c && allDigits s'
  end.

(** The price of [zip] for the current year, read as the code reads it:
    [parseFloat(data[year]) || 0]. *)
Definition shownPrice (zip : string) (a : AppState) : jsnum :=
  match yearCell zip (currentYear a) a with
  | Some v => if falsy v then of_Z 0 else v
  | None => of_Z 0
  end.

(** The message for a ZIP code whose boundary is on the layer, and whether
    it is shown as a success. *)
Definition foundReport (zip : string) (a : AppState)
  : searchMessage * bool :=
  match zhviData a !! zip with
  | Some _ => (MsgFound (shownPrice zip a) (currentYear a), true)
  | None => (MsgNoPriceData, false)
  end.

(** The message for [zip] on a layer whose features are [feats]. *)
Definition searchReport (zip : string) (feats : list Feature)
    (a : AppState) : searchMessage * bool :=
  if bool_decide (zip ∈ ZCTA5CE10 <$> feats) then foundReport zip a
  else (MsgBoundaryNotFound, false).

(** ** A small configuration

    A palette of eight colours, three states, and a dataset of four ZIP
    codes; used to evaluate the definitions on concrete inputs. *)

Definition demoCOLORS : list string :=
  ["#c0"; "#c1"; "#c2"; "#c3"; "#c4"; "#c5"; "#c6"; "#c7"].

Definition wiInfo : StateInfo :=
  {| state_name := "Wisconsin"; state_file := "wi.min.json";
     state_center := (44 # 1, - 89 # 1)%Q; state_zoom := 7 |}.

Definition caInfo : StateInfo :=
  {| state_name := "California"; state_file := "ca.min.json";
     state_center := (37 # 1, - 119 # 1)%Q; state_zoom := 6 |}.

Definition txInfo : StateInfo :=
  {| state_name := "Texas"; state_file := "tx.min.json";
     state_center := (31 # 1, - 99 # 1)%Q; state_zoom := 6 |}.

Definition demoSTATES : gmap string StateInfo :=
  <["WI" := wiInfo]> (<["CA" := caInfo]> (<["TX" := txInfo]> ∅)).

Definition demoData : gmap string (gmap Z jsnum) :=
  <["54301" := <[2000%Z := of_Z 150000]> (<[2020%Z := of_Z 300000]> ∅)]>
  (<["54302" := <[2000%Z := of_Z 100000]> (<[2020%Z := of_Z 200000]> ∅)]>
  (<["90001" := <[2000%Z := of_Z 250000]> (<[2020%Z := of_Z 600000]> ∅)]>
  (<["75001" := <[2000%Z := of_Z 120000]> (<[2020%Z := of_Z 350000]> ∅)]>
   ∅))).

Definition wiGeoJSON : GeoJSON :=
  {| features := [ {| ZCTA5CE10 := "54301" |}; {| ZCTA5CE10 := "54302" |};
                   {| ZCTA5CE10 := "54303" |} ] |}.

Definition caGeoJSON : GeoJSON :=
  {| features := [ {| ZCTA5CE10 := "90001" |} ] |}.

Definition txGeoJSON : GeoJSON :=
  {| features := [ {| ZCTA5CE10 := "75001" |} ] |}.

(** The application once the dataset is loaded: rows stored, national
    ranges calculated. *)
Definition demoWorld : World :=
  upd_app (fun a => calculateNationalPriceRanges (with_zhviData demoData a))
    initialWorld.

Definition demoStep : World -> event -> World := step demoCOLORS demoSTATES.

Definition demoRun : World -> list event -> World :=
  run demoCOLORS demoSTATES.

(** Wisconsin selected and its geometry received. *)
Definition demoRendered : World :=
  demoRun demoWorld
    [EvRenderState "WI"; EvFetchSettled 0 (Some wiGeoJSON)].

(** The same with the animation started. *)
Definition demoPlaying : World := demoStep demoRendered EvTogglePlay.

(** Wisconsin rendered and shown for the year 2020. *)
Definition demoRendered2020 : World :=
  demoStep demoRendered (EvUpdateYear 2020).

(** California, which has one ZIP code, rendered and shown for 2020. *)
Definition demoCalifornia : World :=
  demoRun demoWorld
    [EvUpdateYear 2020; EvRenderState "CA";
     EvFetchSettled 0 (Some caGeoJSON)].

(** A state whose dataset has a negative cell, for the year 2000 and a
    price range of 100000 to 300000. *)
Definition demoNegative : AppState :=
  with_priceRange {| pr_min := of_Z 100000; pr_max := of_Z 300000 |}
    (with_currentYear 2000
       (with_zhviData (<["54303" := <[2000%Z := of_Z (-1)]> ∅]> demoData)
          initialAppState)).

(** A dataset in which 54303 has lost one dollar in a million between 2000
    and 2020, seen in 2020. *)
Definition demoFlat : AppState :=
  with_currentYear 2020
    (with_zhviData
       (<["54303" := <[2000%Z := of_Z 1000000]>
                       (<[2020%Z := of_Z 999999]> ∅)]> ∅)
       initialAppState).

(** The state of a ZIP code, for the ZIP codes of the small dataset. *)
Definition demoGetStateFromZip (zip : string) : option string :=
  if bool_decide (zip ∈ ["54301"; "54302"; "54303"]) then Some "WI"
  else if bool_decide (zip = "90001") then Some "CA"
  else if bool_decide (zip = "75001") then Some "TX"
  else None.

(** The page before any search. *)
Definition demoUI (w : World) : SearchUI := mkSearchUI w None false [] None.

(** * Properties *)

(** ** Comparison of rationals *)

Lemma Qltb_lt (x y : Q) : Qltb x y = true <-> (x < y)%Q.
Proof.
  unfold Qltb. rewrite negb_true_iff. split.
  - intros H. apply Qnot_le_lt. intros Hle.
    apply Qle_bool_iff in Hle. congruence.
  - intros H. destruct (Qle_bool y x) eqn:E; [|reflexivity].
    apply Qle_bool_iff in E. exfalso. apply (Qlt_not_le _ _ H E).
Qed.

Lemma Qltb_ge (x y : Q) : Qltb x y = false <-> (y <= x)%Q.
Proof.
  unfold Qltb. rewrite negb_false_iff. apply Qle_bool_iff.
Qed.

(** ** Rounding *)

Section RoundingFacts.

Local Open Scope Q_scope.

Lemma two_neq_0 : ~ 2 == 0.
Proof. discriminate. Qed.

Lemma pow2_pos (e : Z) : 0 < 2 ^ e.
Proof. apply Qpower_0_lt. reflexivity. Qed.

Lemma pow2_le (e1 e2 : Z) : (e1 <= e2)%Z -> 2 ^ e1 <= 2 ^ e2.
Proof. intros H. apply Qpower_le_compat_l; [assumption | discriminate]. Qed.

Lemma pow2_lt (e1 e2 : Z) : (e1 < e2)%Z -> 2 ^ e1 < 2 ^ e2.
Proof. intros H. apply Qpower_lt_compat_l; [assumption | reflexivity]. Qed.

Lemma pow2_succ (e : Z) : 2 ^ (e + 1) == 2 * 2 ^ e.
Proof. rewrite Qpower_plus by apply two_neq_0. simpl. ring. Qed.

Lemma pow2_pred (e : Z) : 2 * 2 ^ (e - 1) == 2 ^ e.
Proof.
  rewrite <- pow2_succ. replace (e - 1 + 1)%Z with e by lia. reflexivity.
Qed.

Lemma pow2_inject (n : Z) : (0 <= n)%Z -> inject_Z (2 ^ n) == 2 ^ n.
Proof. intros H. apply (Zpower_Qpower 2 n H). Qed.

Lemma binade_arith (q A B X Y E : Q) :
  0 < B -> q * B == A -> X <= A -> A < 2 * X -> Y <= B -> B < 2 * Y ->
  E * Y == X -> 0 < E -> 0 < Y -> 0 < q ->
  q < 2 * E /\ E < 2 * q.
Proof.
  intros HB HqB HXA HAX HYB HBY HE HE0 HY0 Hq0.
  assert (HEB : E * Y <= E * B) by (apply Qmult_le_l; assumption).
  assert (HqY : q * B <= q * (2 * Y)).
  { apply Qmult_le_l; [assumption | lra]. }
  split.
  - apply (Qmult_lt_r _ _ B HB). lra.
  - assert (HY : 0 < 2 * Y) by lra.
    apply (Qmult_lt_r _ _ Y HY0).
    assert (HqY' : q * B < q * (2 * Y)).
    { apply Qmult_lt_l; [assumption | lra]. }
    lra.
Qed.

Lemma binade_spec (q : Q) :
  0 < q -> 2 ^ binade q <= q /\ q < 2 ^ (binade q + 1).
Proof.
  intros Hq. destruct q as [a b]. unfold binade. cbn [Qnum Qden].
  assert (Ha : (0 < a)%Z).
  { unfold Qlt in Hq. cbn in Hq. lia. }
  set (la := Z.log2 a). set (lb := Z.log2 (Z.pos b)).
  assert (Hla : (0 <= la)%Z) by apply Z.log2_nonneg.
  assert (Hlb : (0 <= lb)%Z) by apply Z.log2_nonneg.
  destruct (Z.log2_spec a Ha) as [Ha1 Ha2].
  destruct (Z.log2_spec (Z.pos b) eq_refl) as [Hb1 Hb2].
  fold la in Ha1, Ha2. fold lb in Hb1, Hb2.
  assert (Qa1 : 2 ^ la <= inject_Z a).
  { rewrite <- pow2_inject by assumption. rewrite <- Zle_Qle. assumption. }
  assert (Qa2 : inject_Z a < 2 * 2 ^ la).
  { rewrite <- pow2_succ. rewrite <- pow2_inject by lia.
    rewrite <- Zlt_Qlt. exact Ha2. }
  assert (Qb1 : 2 ^ lb <= inject_Z (Z.pos b)).
  { rewrite <- pow2_inject by assumption. rewrite <- Zle_Qle. assumption. }
  assert (Qb2 : inject_Z (Z.pos b) < 2 * 2 ^ lb).
  { rewrite <- pow2_succ. rewrite <- pow2_inject by lia.
    rewrite <- Zlt_Qlt. exact Hb2. }
  assert (Hb : 0 < inject_Z (Z.pos b)) by reflexivity.
  assert (HqB : (a # b) * inject_Z (Z.pos b) == inject_Z a).
  { rewrite (Qmake_Qdiv a b). field. discriminate. }
  assert (He : 2 ^ (la - lb) * 2 ^ lb == 2 ^ la).
  { rewrite <- Qpower_plus by apply two_neq_0.
    replace (la - lb + lb)%Z with la by lia. reflexivity. }
  destruct (binade_arith _ _ _ _ _ _ Hb HqB Qa1 Qa2 Qb1 Qb2 He
              (pow2_pos _) (pow2_pos _) Hq) as [Hup Hlo].
  destruct (Qle_bool (2 ^ (la - lb)) (a # b)) eqn:Hc.
  - apply Qle_bool_iff in Hc. split; [exact Hc|].
    rewrite pow2_succ. exact Hup.
  - assert (Hlt : a # b < 2 ^ (la - lb)).
    { apply Qnot_le_lt. intros Hle. apply Qle_bool_iff in Hle. congruence. }
    split.
    + pose proof (pow2_pred (la - lb)) as Hp. lra.
    + replace (la - lb - 1 + 1)%Z with (la - lb)%Z by lia. exact Hlt.
Qed.

Lemma binade_unique (q : Q) (e : Z) :
  2 ^ e <= q -> q < 2 ^ (e + 1) -> binade q = e.
Proof.
  intros H1 H2.
  assert (Hq : 0 < q) by (pose proof (pow2_pos e); lra).
  destruct (binade_spec q Hq) as [B1 B2].
  destruct (Z.lt_trichotomy (binade q) e) as [Hlt | [Heq | Hgt]];
    [exfalso | exact Heq | exfalso].
  - pose proof (pow2_le (binade q + 1) e ltac:(lia)). lra.
  - pose proof (pow2_le (e + 1) (binade q) ltac:(lia)). lra.
Qed.

Lemma binade_comp (x y : Q) : 0 < x -> x == y -> binade x = binade y.
Proof.
  intros Hx Hxy. symmetry. apply binade_unique.
  - rewrite <- Hxy. apply binade_spec, Hx.
  - rewrite <- Hxy. apply binade_spec, Hx.
Qed.

Lemma binade_mono (x y : Q) : 0 < x -> x <= y -> (binade x <= binade y)%Z.
Proof.
  intros Hx Hxy.
  destruct (binade_spec x Hx) as [X1 X2].
  destruct (binade_spec y ltac:(lra)) as [Y1 Y2].
  destruct (Z.le_gt_cases (binade x) (binade y)) as [H | H]; [exact H|].
  exfalso. pose proof (pow2_le (binade y + 1) (binade x) ltac:(lia)). lra.
Qed.

Lemma rne_bounds (x : Q) : (Qfloor x <= rne x <= Qfloor x + 1)%Z.
Proof.
  unfold rne. destruct (Qcompare _ _); [destruct (Z.even _)| |]; lia.
Qed.

Lemma rne_comp (x y : Q) : x == y -> rne x = rne y.
Proof.
  intros H. unfold rne. rewrite (Qfloor_comp x y H).
  assert (Hc : x - inject_Z (Qfloor y) == y - inject_Z (Qfloor y))
    by (rewrite H; reflexivity).
  rewrite (Qcompare_comp _ _ Hc (1 # 2) (1 # 2) (Qeq_refl _)). reflexivity.
Qed.

Lemma rne_Z (z : Z) : rne (inject_Z z) = z.
Proof.
  unfold rne. rewrite Qfloor_Z.
  destruct (Qcompare_spec (inject_Z z - inject_Z z) (1 # 2));
    [exfalso; lra | reflexivity | exfalso; lra].
Qed.

Lemma rne_mono (x y : Q) : x <= y -> (rne x <= rne y)%Z.
Proof.
  intros Hxy.
  pose proof (Qfloor_resp_le x y Hxy) as Hf.
  destruct (Z.eq_dec (Qfloor x) (Qfloor y)) as [E | NE].
  - unfold rne. rewrite E.
    destruct (Qcompare_spec (x - inject_Z (Qfloor y)) (1 # 2));
      destruct (Qcompare_spec (y - inject_Z (Qfloor y)) (1 # 2));
      try (destruct (Z.even (Qfloor y))); try lia; exfalso; lra.
  - pose proof (rne_bounds x). pose proof (rne_bounds y). lia.
Qed.

Lemma scaled_range (x : Q) (e : Z) :
  2 ^ e <= x -> x < 2 ^ (e + 1) ->
  2 ^ 52 <= x / 2 ^ (e - 52) /\ x / 2 ^ (e - 52) <= 2 ^ 53.
Proof.
  intros H1 H2.
  pose proof (pow2_pos (e - 52)) as Hs.
  assert (He : 2 ^ e == 2 ^ 52 * 2 ^ (e - 52)).
  { rewrite <- Qpower_plus by apply two_neq_0.
    replace (52 + (e - 52))%Z with e by lia. reflexivity. }
  assert (He1 : 2 ^ (e + 1) == 2 ^ 53 * 2 ^ (e - 52)).
  { rewrite <- Qpower_plus by apply two_neq_0.
    replace (53 + (e - 52))%Z with (e + 1)%Z by lia. reflexivity. }
  split.
  - apply Qle_shift_div_l; [exact Hs|]. rewrite <- He. exact H1.
  - apply Qle_shift_div_r; [exact Hs|]. rewrite <- He1.
    apply Qlt_le_weak, H2.
Qed.

Lemma roundPos_comp (x y : Q) : 0 < x -> x == y -> roundPos x == roundPos y.
Proof.
  intros Hx Hxy. unfold roundPos.
  rewrite <- (binade_comp x y Hx Hxy).
  assert (H : x / 2 ^ (binade x - 52) == y / 2 ^ (binade x - 52))
    by (apply Qdiv_comp; [exact Hxy | reflexivity]).
  rewrite (rne_comp _ _ H). reflexivity.
Qed.

Lemma roundPos_bounds (x : Q) :
  0 < x -> 2 ^ binade x <= roundPos x /\ roundPos x <= 2 ^ (binade x + 1).
Proof.
  intros Hx. destruct (binade_spec x Hx) as [B1 B2].
  destruct (scaled_range x (binade x) B1 B2) as [S1 S2].
  unfold roundPos. set (s := (binade x - 52)%Z) in *.
  pose proof (pow2_pos s) as Hs.
  assert (He : 2 ^ binade x == 2 ^ 52 * 2 ^ s).
  { rewrite <- Qpower_plus by apply two_neq_0.
    replace (52 + s)%Z with (binade x) by (unfold s; lia). reflexivity. }
  assert (He1 : 2 ^ (binade x + 1) == 2 ^ 53 * 2 ^ s).
  { rewrite <- Qpower_plus by apply two_neq_0.
    replace (53 + s)%Z with (binade x + 1)%Z by (unfold s; lia). reflexivity. }
  assert (R1 : (2 ^ 52 <= rne (x / 2 ^ s))%Z).
  { rewrite <- (rne_Z (2 ^ 52)). apply rne_mono. exact S1. }
  assert (R2 : (rne (x / 2 ^ s) <= 2 ^ 53)%Z).
  { rewrite <- (rne_Z (2 ^ 53)). apply rne_mono. exact S2. }
  rewrite He, He1. split.
  - apply Qmult_le_compat_r; [|lra]. rewrite Zle_Qle in R1. exact R1.
  - apply Qmult_le_compat_r; [|lra]. rewrite Zle_Qle in R2. exact R2.
Qed.

Lemma roundPos_pos (x : Q) : 0 < x -> 0 < roundPos x.
Proof.
  intros Hx. destruct (roundPos_bounds x Hx) as [H _].
  pose proof (pow2_pos (binade x)). lra.
Qed.

Lemma roundPos_mono (x y : Q) :
  0 < x -> x <= y -> roundPos x <= roundPos y.
Proof.
  intros Hx Hxy. assert (Hy : 0 < y) by lra.
  pose proof (binade_mono x y Hx Hxy) as Hb.
  destruct (Z.eq_dec (binade x) (binade y)) as [E | NE].
  - unfold roundPos. rewrite E. set (s := (binade y - 52)%Z).
    pose proof (pow2_pos s) as Hs.
    apply Qmult_le_compat_r; [|lra]. rewrite <- Zle_Qle.
    apply rne_mono. apply Qmult_le_compat_r; [exact Hxy|].
    apply Qlt_le_weak, Qinv_lt_0_compat, Hs.
  - destruct (roundPos_bounds x Hx) as [_ X2].
    destruct (roundPos_bounds y Hy) as [Y1 _].
    pose proof (pow2_le (binade x + 1) (binade y) ltac:(lia)). lra.
Qed.

Lemma round64_pos (x : Q) : 0 < x -> round64 x = roundPos x.
Proof.
  intros Hx. unfold round64.
  destruct (Qcompare_spec 0 x); [exfalso; lra | reflexivity | exfalso; lra].
Qed.

Lemma round64_neg (x : Q) : x < 0 -> round64 x = - roundPos (- x).
Proof.
  intros Hx. unfold round64.
  destruct (Qcompare_spec 0 x); [exfalso; lra | exfalso; lra | reflexivity].
Qed.

Lemma round64_0 (x : Q) : x == 0 -> round64 x = 0.
Proof.
  intros Hx. unfold round64.
  destruct (Qcompare_spec 0 x); [reflexivity | exfalso; lra | exfalso; lra].
Qed.

Lemma round64_comp (x y : Q) : x == y -> round64 x == round64 y.
Proof.
  intros Hxy. destruct (Q_dec 0 x) as [[Hx | Hx] | Hx].
  - rewrite (round64_pos x Hx), (round64_pos y) by lra.
    apply roundPos_comp; assumption.
  - rewrite (round64_neg x Hx), (round64_neg y) by lra.
    apply Qopp_comp. apply roundPos_comp; [lra | rewrite Hxy; reflexivity].
  - rewrite (round64_0 x), (round64_0 y) by lra. reflexivity.
Qed.

Lemma round64_mono (x y : Q) : x <= y -> round64 x <= round64 y.
Proof.
  intros Hxy.
  destruct (Q_dec 0 x) as [[Hx | Hx] | Hx].
  - rewrite (round64_pos x Hx), (round64_pos y) by lra.
    apply roundPos_mono; assumption.
  - rewrite (round64_neg x Hx).
    pose proof (roundPos_pos (- x) ltac:(lra)) as Px.
    destruct (Q_dec 0 y) as [[Hy | Hy] | Hy].
    + rewrite (round64_pos y Hy). pose proof (roundPos_pos y Hy). lra.
    + rewrite (round64_neg y Hy).
      pose proof (roundPos_mono (- y) (- x) ltac:(lra) ltac:(lra)). lra.
    + rewrite (round64_0 y) by lra. lra.
  - rewrite (round64_0 x) by lra.
    destruct (Q_dec 0 y) as [[Hy | Hy] | Hy].
    + rewrite (round64_pos y Hy). pose proof (roundPos_pos y Hy). lra.
    + exfalso. lra.
    + rewrite (round64_0 y) by lra. lra.
Qed.

Lemma round64_eq_0 (x : Q) : round64 x == 0 -> x == 0.
Proof.
  intros H. destruct (Q_dec 0 x) as [[Hx | Hx] | Hx].
  - rewrite (round64_pos x Hx) in H. pose proof (roundPos_pos x Hx). lra.
  - rewrite (round64_neg x Hx) in H.
    pose proof (roundPos_pos (- x) ltac:(lra)). lra.
  - lra.
Qed.

Lemma Qdiv_cancel (x a p : Q) : 0 < p -> x == a * p -> x / p == a.
Proof. intros Hp H. rewrite H. field. lra. Qed.

Lemma roundPos_dyadic (z : Z) :
  (0 < z < 2 ^ 53)%Z -> roundPos (z # 32) == z # 32.
Proof.
  intros [Hz0 Hz].
  assert (Hx : 0 < z # 32) by (unfold Qlt; cbn; lia).
  destruct (binade_spec _ Hx) as [B1 B2].
  assert (Hx48 : z # 32 < 2 ^ 48).
  { unfold Qlt. cbn. lia. }
  assert (HE : (binade (z # 32) <= 47)%Z).
  { destruct (Z.le_gt_cases (binade (z # 32)) 47) as [H | H]; [exact H|].
    exfalso. pose proof (pow2_le 48 (binade (z # 32)) ltac:(lia)). lra. }
  unfold roundPos. set (s := (binade (z # 32) - 52)%Z) in *.
  set (k := (- 5 - s)%Z).
  assert (Hk : (0 <= k)%Z) by (unfold k, s; lia).
  assert (Hpk : 2 ^ k * 2 ^ s == 1 # 32).
  { rewrite <- Qpower_plus by apply two_neq_0.
    replace (k + s)%Z with (- 5)%Z by (unfold k; lia). reflexivity. }
  pose proof (pow2_pos s) as Hs.
  assert (Hq : (z # 32) / 2 ^ s == inject_Z (z * 2 ^ k)).
  { rewrite inject_Z_mult, pow2_inject by assumption.
    apply Qdiv_cancel; [exact Hs|].
    rewrite <- Qmult_assoc, Hpk. rewrite (Qmake_Qdiv z 32). field. }
  rewrite (rne_comp _ _ Hq), rne_Z.
  rewrite inject_Z_mult, pow2_inject by assumption.
  rewrite <- Qmult_assoc, Hpk. rewrite (Qmake_Qdiv z 32). field.
Qed.

Lemma round64_dyadic (z : Z) :
  (Z.abs z < 2 ^ 53)%Z -> round64 (z # 32) == z # 32.
Proof.
  intros Hz. destruct (Z.lt_trichotomy z 0) as [H | [H | H]].
  - rewrite round64_neg by (unfold Qlt; cbn; lia).
    assert (Ho : - (z # 32) == (- z) # 32) by reflexivity.
    assert (Hp : 0 < - (z # 32)) by (unfold Qlt; cbn; lia).
    rewrite (roundPos_comp _ _ Hp Ho).
    rewrite roundPos_dyadic by lia. unfold Qeq. cbn. lia.
  - subst z. reflexivity.
  - rewrite round64_pos by (unfold Qlt; cbn; lia).
    apply roundPos_dyadic. lia.
Qed.

End RoundingFacts.

(** ** Numbers *)

Lemma Qeq_bool_false (x : Q) : ~ x == 0 -> Qeq_bool x 0 = false.
Proof.
  intros H. destruct (Qeq_bool x 0) eqn:E; [|reflexivity].
  apply Qeq_bool_eq in E. contradiction.
Qed.

Lemma round64_Z (z : Z) :
  (Z.abs z < 2 ^ 48)%Z -> round64 (inject_Z z) == inject_Z z.
Proof.
  intros Hz.
  assert (H : inject_Z z == (32 * z) # 32) by (unfold Qeq; cbn; lia).
  rewrite (round64_comp _ _ H), round64_dyadic by lia.
  symmetry. exact H.
Qed.

Lemma round64_nonneg (x : Q) : (0 <= x)%Q -> (0 <= round64 x)%Q.
Proof.
  intros H. pose proof (round64_mono 0 x H) as Hm.
  rewrite (round64_0 0) in Hm by reflexivity. exact Hm.
Qed.

Lemma round64_nonpos (x : Q) : (x <= 0)%Q -> (round64 x <= 0)%Q.
Proof.
  intros H. pose proof (round64_mono x 0 H) as Hm.
  rewrite (round64_0 0) in Hm by reflexivity. exact Hm.
Qed.

Lemma round64_gt_0 (x : Q) : (0 < x)%Q -> (0 < round64 x)%Q.
Proof.
  intros H. rewrite round64_pos by exact H. apply roundPos_pos, H.
Qed.

Lemma round64_lt_0 (x : Q) : (x < 0)%Q -> (round64 x < 0)%Q.
Proof.
  intros H. rewrite round64_neg by exact H.
  pose proof (roundPos_pos (- x)%Q ltac:(lra)). lra.
Qed.

Lemma inject_Z_pred (z : Z) : (inject_Z (z - 1) == inject_Z z - 1)%Q.
Proof. unfold Qeq. cbn. lia. Qed.

Lemma inject_Z_succ (z : Z) : (inject_Z (z + 1) == inject_Z z + 1)%Q.
Proof. unfold Qeq. cbn. lia. Qed.

Lemma rne_ge (y : Q) (M : Z) : (inject_Z M - (1 # 2) < y)%Q -> (M <= rne y)%Z.
Proof.
  intros H. pose proof (Qlt_floor y) as Hf. pose proof (Qfloor_le y) as Hl.
  rewrite inject_Z_succ in Hf.
  assert (Hfl : (M - 1 <= Qfloor y)%Z).
  { destruct (Z.le_gt_cases (M - 1) (Qfloor y)) as [G | G]; [exact G|].
    exfalso. assert (G' : (Qfloor y <= M - 1 - 1)%Z) by lia.
    rewrite Zle_Qle, !inject_Z_pred in G'. lra. }
  unfold rne.
  destruct (Qcompare_spec (y - inject_Z (Qfloor y)) (1 # 2)) as [E | E | E].
  - destruct (Z.eq_dec (Qfloor y) (M - 1)%Z) as [Eq | Ne];
      [|destruct (Z.even (Qfloor y)); lia].
    exfalso. rewrite Eq, inject_Z_pred in E. lra.
  - destruct (Z.eq_dec (Qfloor y) (M - 1)%Z) as [Eq | Ne]; [|lia].
    exfalso. rewrite Eq, inject_Z_pred in E. lra.
  - lia.
Qed.

Lemma jle_of_Z (a b : Z) : jle (of_Z a) (of_Z b) = (a <=? b)%Z.
Proof.
  cbn. destruct (Z.leb_spec a b) as [H | H].
  - apply Qle_bool_iff. rewrite <- Zle_Qle. exact H.
  - destruct (Qle_bool (inject_Z a) (inject_Z b)) eqn:E; [|reflexivity].
    apply Qle_bool_iff in E. rewrite <- Zle_Qle in E. lia.
Qed.

Lemma jmin_of_Z (a b : Z) : jmin (of_Z a) (of_Z b) = of_Z (Z.min a b).
Proof.
  unfold jmin. cbn [of_Z]. change (Fin (inject_Z ?x)) with (of_Z x).
  rewrite jle_of_Z. destruct (Z.leb_spec a b); f_equal; lia.
Qed.

Lemma jmax_of_Z (a b : Z) : jmax (of_Z a) (of_Z b) = of_Z (Z.max a b).
Proof.
  unfold jmax. cbn [of_Z]. change (Fin (inject_Z ?x)) with (of_Z x).
  rewrite jle_of_Z. destruct (Z.leb_spec a b); f_equal; lia.
Qed.

Lemma is_index_Z (z : Z) : (0 <= z)%Z -> is_index (inject_Z z) = true.
Proof.
  intros H. unfold is_index. rewrite Qfloor_Z.
  apply andb_true_intro. split.
  - apply Qeq_bool_iff. reflexivity.
  - apply Z.leb_le, H.
Qed.

(** ** Colour scale *)

Section ColourScale.

Variable COLORS : list string.

Let len : Z := Z.of_nat (length COLORS).

Lemma colorAt_of_Z (z : Z) :
  (0 <= z)%Z -> colorAt COLORS (of_Z z) = COLORS !! Z.to_nat z.
Proof.
  intros H. unfold colorAt, of_Z. rewrite is_index_Z by exact H.
  rewrite Qfloor_Z. reflexivity.
Qed.

Lemma validPrice_truthy (p : jsnum) : validPrice p = true -> falsy p = false.
Proof.
  destruct p as [q | | |]; cbn; try discriminate; try reflexivity.
  intros H. apply Qltb_lt in H. apply Qeq_bool_false.
  intros E. rewrite E in H. revert H. apply Qlt_irrefl.
Qed.

Lemma range_width_pos (lo hi : Q) : (lo < hi)%Q -> (0 < round64 (hi - lo))%Q.
Proof. intros H. apply round64_gt_0. lra. Qed.

Lemma bucketIndex_Fin (lo hi p : Q) :
  (lo < hi)%Q ->
  bucketIndex COLORS (Fin p) {| pr_min := Fin lo; pr_max := Fin hi |}
  = of_Z (Z.max 0 (Z.min (Qfloor (scaled COLORS lo hi p)) (len - 1))).
Proof.
  intros H. pose proof (range_width_pos lo hi H) as Hd.
  unfold bucketIndex. cbv beta iota delta [pr_min pr_max jsub jdiv].
  rewrite Qeq_bool_false by lra.
  cbv beta iota delta [of_nat of_Z jmul jfloor].
  change (Fin (inject_Z ?x)) with (of_Z x).
  rewrite jmin_of_Z, jmax_of_Z. reflexivity.
Qed.

Lemma bucketIndex_PInf (lo hi : Q) :
  (lo < hi)%Q -> (0 < len)%Z ->
  bucketIndex COLORS PInf {| pr_min := Fin lo; pr_max := Fin hi |}
  = of_Z (len - 1).
Proof.
  intros H Hlen. pose proof (range_width_pos lo hi H) as Hd.
  unfold bucketIndex.
  cbv beta iota delta [pr_min pr_max jsub jdiv signed_inf].
  assert (Hle : Qle_bool 0 (round64 (hi - lo)) = true).
  { apply Qle_bool_iff. lra. }
  rewrite Hle. cbv beta iota delta [of_nat of_Z jmul]. fold len.
  assert (Hl : (0 < inject_Z len)%Q).
  { change 0%Q with (inject_Z 0). rewrite <- Zlt_Qlt. exact Hlen. }
  rewrite Qeq_bool_false by lra.
  assert (Hlt : Qltb 0 (inject_Z len) = true) by (apply Qltb_lt; exact Hl).
  rewrite Hlt. cbv beta iota delta [signed_inf jfloor jmin jle].
  change (Fin (inject_Z ?x)) with (of_Z x).
  rewrite jmax_of_Z. f_equal. lia.
Qed.

Lemma scaled_mono (lo hi p1 p2 : Q) :
  (lo < hi)%Q -> (p1 <= p2)%Q ->
  (scaled COLORS lo hi p1 <= scaled COLORS lo hi p2)%Q.
Proof.
  intros H Hp. pose proof (range_width_pos lo hi H) as Hd.
  unfold scaled. apply round64_mono.
  apply Qmult_le_compat_r.
  - apply round64_mono. apply Qmult_le_compat_r.
    + apply round64_mono. lra.
    + apply Qlt_le_weak, Qinv_lt_0_compat, Hd.
  - change 0%Q with (inject_Z 0). rewrite <- Zle_Qle. lia.
Qed.

Lemma scaled_low (lo hi p : Q) :
  (lo < hi)%Q -> (p <= lo)%Q -> (scaled COLORS lo hi p <= 0)%Q.
Proof.
  intros H Hp. pose proof (range_width_pos lo hi H) as Hd.
  unfold scaled. apply round64_nonpos.
  assert (Hn : (round64 (p - lo) <= 0)%Q) by (apply round64_nonpos; lra).
  assert (Hq : (round64 (round64 (p - lo) / round64 (hi - lo)) <= 0)%Q).
  { apply round64_nonpos. apply Qle_shift_div_r; [exact Hd | lra]. }
  assert (Hl : (0 <= inject_Z (Z.of_nat (length COLORS)))%Q).
  { change 0%Q with (inject_Z 0). rewrite <- Zle_Qle. lia. }
  set (x := round64 (round64 (p - lo) / round64 (hi - lo))) in *.
  set (y := inject_Z (Z.of_nat (length COLORS))) in *.
  clearbody x y. nra.
Qed.

Lemma scaled_high (lo hi p : Q) :
  (lo < hi)%Q -> (hi <= p)%Q -> (len < 2 ^ 48)%Z ->
  (inject_Z len <= scaled COLORS lo hi p)%Q.
Proof.
  intros H Hp Hlen. pose proof (range_width_pos lo hi H) as Hd.
  unfold scaled. fold len.
  assert (Hn : (round64 (hi - lo) <= round64 (p - lo))%Q).
  { apply round64_mono. lra. }
  assert (Hq : (1 <= round64 (round64 (p - lo) / round64 (hi - lo)))%Q).
  { rewrite <- (round64_Z 1) by (cbn; lia). apply round64_mono.
    change (inject_Z 1) with 1%Q.
    apply Qle_shift_div_l; [exact Hd | lra]. }
  assert (Hl : (0 <= inject_Z len)%Q).
  { change 0%Q with (inject_Z 0). rewrite <- Zle_Qle. unfold len. lia. }
  rewrite <- (round64_Z len) at 1 by (unfold len in *; lia).
  apply round64_mono.
  set (x := round64 (round64 (p - lo) / round64 (hi - lo))) in *.
  set (y := inject_Z len) in *.
  clearbody x y. nra.
Qed.

Lemma bucket_bounds (z : Z) :
  (0 < len)%Z -> (0 <= Z.max 0 (Z.min z (len - 1)) <= len - 1)%Z.
Proof. lia. Qed.

Lemma getColor_valid (a : AppState) (p : jsnum) (z : Z) :
  validPrice p = true -> (0 <= z)%Z ->
  bucketIndex COLORS p (priceRange a) = of_Z z ->
  getColor COLORS p a = COLORS !! Z.to_nat z.
Proof.
  intros Hp Hz Hb. unfold getColor.
  rewrite (validPrice_truthy p Hp), Hb. apply colorAt_of_Z, Hz.
Qed.

(** A valid price and finite bounds that differ: the palette index is an
    integer of the palette, 0 for a price at or below the lower bound and
    the last index for one at or above the upper bound. *)
Lemma bucketIndex_valid (lo hi : Q) (p : jsnum) :
  (lo < hi)%Q -> (0 < len < 2 ^ 32)%Z -> validPrice p = true ->
  exists z : Z,
    bucketIndex COLORS p {| pr_min := Fin lo; pr_max := Fin hi |} = of_Z z
    /\ (0 <= z <= len - 1)%Z
    /\ (jle p (Fin lo) = true -> z = 0%Z)
    /\ (jle (Fin hi) p = true -> z = (len - 1)%Z).
Proof.
  intros H Hlen Hp. destruct p as [q | | |]; try discriminate Hp.
  - exists (Z.max 0 (Z.min (Qfloor (scaled COLORS lo hi q)) (len - 1))).
    split; [apply bucketIndex_Fin, H|]. split; [apply bucket_bounds; lia|].
    split; intros Hc; apply Qle_bool_iff in Hc.
    + pose proof (scaled_low lo hi q H Hc) as Hs.
      apply Qfloor_resp_le in Hs. change 0%Q with (inject_Z 0) in Hs.
      rewrite Qfloor_Z in Hs. lia.
    + pose proof (scaled_high lo hi q H Hc ltac:(lia)) as Hs.
      apply Qfloor_resp_le in Hs. rewrite Qfloor_Z in Hs. lia.
  - exists (len - 1)%Z.
    split; [apply bucketIndex_PInf; [exact H | lia]|].
    split; [lia|]. split; [discriminate | reflexivity].
Qed.

Lemma bucketIndex_mono (lo hi : Q) (p1 p2 : jsnum) (z1 z2 : Z) :
  (lo < hi)%Q -> (0 < len < 2 ^ 32)%Z ->
  validPrice p1 = true -> validPrice p2 = true -> jle p1 p2 = true ->
  bucketIndex COLORS p1 {| pr_min := Fin lo; pr_max := Fin hi |} = of_Z z1 ->
  bucketIndex COLORS p2 {| pr_min := Fin lo; pr_max := Fin hi |} = of_Z z2 ->
  (z1 <= z2)%Z.
Proof.
  intros H Hlen Hp1 Hp2 Hle E1 E2.
  assert (Hinj : forall x y : Z, of_Z x = of_Z y -> x = y).
  { intros x y Hxy. injection Hxy. auto. }
  destruct p1 as [q1 | | |]; try discriminate Hp1;
    destruct p2 as [q2 | | |]; try discriminate Hp2; try discriminate Hle.
  - rewrite bucketIndex_Fin in E1, E2 by exact H.
    apply Hinj in E1, E2. subst z1 z2.
    apply Qle_bool_iff in Hle.
    pose proof (Qfloor_resp_le _ _ (scaled_mono lo hi q1 q2 H Hle)). lia.
  - rewrite bucketIndex_Fin in E1 by exact H.
    rewrite bucketIndex_PInf in E2 by (try exact H; lia).
    apply Hinj in E1, E2. subst z1 z2. lia.
  - rewrite bucketIndex_PInf in E1, E2 by (try exact H; lia).
    apply Hinj in E1, E2. subst z1 z2. lia.
Qed.

(** C7.  For a range whose lower bound is strictly below its upper bound,
    [getColor] is monotone non-decreasing over positive prices and clamps:
    a price at or below the lower bound gets palette index 0, a price at or
    above the upper bound gets the last index, and every index lies in the
    palette.  The lower bound is not negative, as in every range the
    application computes (a percentile of positive prices, 0 or 50000):
    the two differences [getColor] forms are then within the range of
    binary64, and a quotient or product beyond that range is clamped to the
    same index as the infinity the code gets. *)
Theorem getColor_monotone_clamped (a : AppState) (lo hi : Q)
    (p1 p2 : jsnum) :
  priceRange a = {| pr_min := Fin lo; pr_max := Fin hi |} ->
  (lo < hi)%Q ->
  (0 <= lo)%Q ->
  (0 < len < 2 ^ 32)%Z ->
  validPrice p1 = true -> validPrice p2 = true -> jle p1 p2 = true ->
  exists i1 i2 : nat,
    bucketIndex COLORS p1 (priceRange a) = of_nat i1
    /\ bucketIndex COLORS p2 (priceRange a) = of_nat i2
    /\ getColor COLORS p1 a = COLORS !! i1
    /\ getColor COLORS p2 a = COLORS !! i2
    /\ (i1 <= i2 < length COLORS)%nat
    /\ (jle p1 (Fin lo) = true -> i1 = 0%nat)
    /\ (jle (Fin hi) p2 = true -> i2 = (length COLORS - 1)%nat).
Proof.
  intros Hr H Hlo Hlen Hp1 Hp2 Hle.
  destruct (bucketIndex_valid lo hi p1 H Hlen Hp1)
    as (z1 & E1 & B1 & L1 & _).
  destruct (bucketIndex_valid lo hi p2 H Hlen Hp2)
    as (z2 & E2 & B2 & _ & U2).
  pose proof (bucketIndex_mono lo hi p1 p2 z1 z2 H Hlen Hp1 Hp2 Hle E1 E2)
    as Hm.
  rewrite <- Hr in E1, E2.
  exists (Z.to_nat z1), (Z.to_nat z2). unfold of_nat.
  rewrite !Z2Nat.id by lia.
  split; [exact E1|]. split; [exact E2|].
  split; [apply getColor_valid; [exact Hp1 | lia | exact E1]|].
  split; [apply getColor_valid; [exact Hp2 | lia | exact E2]|].
  unfold len in *. split; [lia|]. split.
  - intros Hc. rewrite (L1 Hc). reflexivity.
  - intros Hc. rewrite (U2 Hc). lia.
Qed.

(** A collapsed range ([min] equal to [max]): the width is zero, the
    quotient is an infinity of the sign of [price - min], and the clamping
    of the index sends it to one end of the palette. *)
Lemma bucketIndex_collapsed (b p : Q) :
  (0 < len)%Z ->
  bucketIndex COLORS (Fin p) {| pr_min := Fin b; pr_max := Fin b |}
  = if Qltb b p then of_Z (len - 1)
    else if Qltb p b then of_Z 0 else NaN.
Proof.
  intros Hlen. unfold bucketIndex.
  cbv beta iota delta [pr_min pr_max jsub jdiv].
  rewrite (round64_0 (b - b)) by lra.
  change (Qeq_bool 0 0) with true. cbv iota.
  assert (Hl : (0 < inject_Z len)%Q).
  { change 0%Q with (inject_Z 0). rewrite <- Zlt_Qlt. exact Hlen. }
  assert (Hl0 : Qeq_bool (inject_Z len) 0 = false)
    by (apply Qeq_bool_false; lra).
  assert (Hl1 : Qltb 0 (inject_Z len) = true) by (apply Qltb_lt; exact Hl).
  assert (Hl2 : Qltb (inject_Z len) 0 = false) by (apply Qltb_ge; lra).
  destruct (Q_dec b p) as [[Hlt | Hgt] | Heq].
  - assert (Hn : (0 < round64 (p - b))%Q) by (apply round64_gt_0; lra).
    rewrite (proj2 (Qltb_lt b p) Hlt), (proj2 (Qltb_lt 0 _) Hn).
    cbv beta iota delta [of_nat of_Z jmul]. fold len.
    rewrite Hl0, Hl1. cbv beta iota delta [signed_inf jfloor jmin jle].
    change (Fin (inject_Z ?x)) with (of_Z x).
    rewrite jmax_of_Z. f_equal. lia.
  - assert (Hn : (round64 (p - b) < 0)%Q) by (apply round64_lt_0; lra).
    rewrite (proj2 (Qltb_ge b p)) by lra.
    rewrite (proj2 (Qltb_lt p b) Hgt).
    rewrite (proj2 (Qltb_ge 0 _)) by lra.
    rewrite (proj2 (Qltb_lt _ 0) Hn).
    cbv beta iota delta [of_nat of_Z jmul]. fold len.
    rewrite Hl0, Hl2. reflexivity.
  - rewrite (proj2 (Qltb_ge b p)) by lra.
    rewrite (proj2 (Qltb_ge p b)) by lra.
    rewrite (round64_0 (p - b)) by lra. reflexivity.
Qed.

(** C3, as the code has it.  When the two bounds of the range coincide,
    [getColor] raises nothing; a positive price strictly below the bound
    gets palette index 0 and one strictly above it gets the last index. *)
Theorem getColor_collapsed_range (a : AppState) (b : Q) (p : jsnum) :
  priceRange a = {| pr_min := Fin b; pr_max := Fin b |} ->
  (0 < len)%Z ->
  validPrice p = true ->
  (jlt p (Fin b) = true ->
     bucketIndex COLORS p (priceRange a) = of_nat 0
     /\ getColor COLORS p a = COLORS !! 0%nat)
  /\ (jlt (Fin b) p = true ->
       bucketIndex COLORS p (priceRange a) = of_nat (length COLORS - 1)
       /\ getColor COLORS p a = COLORS !! (length COLORS - 1)%nat).
Proof.
  intros Hr Hlen Hp.
  assert (Hlast : of_Z (len - 1) = of_nat (length COLORS - 1)).
  { unfold of_nat, len in *. f_equal. lia. }
  assert (Hcol : forall z : Z, (0 <= z)%Z ->
            bucketIndex COLORS p (priceRange a) = of_Z z ->
            getColor COLORS p a = COLORS !! Z.to_nat z).
  { intros z Hz Hb. apply getColor_valid; assumption. }
  destruct p as [q | | |]; try discriminate Hp.
  - pose proof (bucketIndex_collapsed b q Hlen) as Hb. rewrite <- Hr in Hb.
    split; intros Hc; cbn in Hc.
    + assert (Hge : Qltb b q = false).
      { apply Qltb_ge. apply Qltb_lt in Hc. lra. }
      rewrite Hge, Hc in Hb. split; [exact Hb|]. apply (Hcol 0%Z); [lia|].
      exact Hb.
    + rewrite Hc in Hb. split; [rewrite Hb; exact Hlast|].
      rewrite (Hcol (len - 1)%Z) by (try exact Hb; lia).
      f_equal. unfold len. lia.
  - split; intros Hc; [discriminate Hc|].
    assert (Hb : bucketIndex COLORS PInf (priceRange a) = of_Z (len - 1)).
    { rewrite Hr. unfold bucketIndex.
      cbv beta iota delta [pr_min pr_max jsub jdiv signed_inf].
      rewrite (round64_0 (b - b)) by lra.
      change (Qle_bool 0 0) with true.
      cbv beta iota delta [of_nat of_Z jmul]. fold len.
      assert (Hl : (0 < inject_Z len)%Q).
      { change 0%Q with (inject_Z 0). rewrite <- Zlt_Qlt. exact Hlen. }
      rewrite Qeq_bool_false by lra.
      rewrite (proj2 (Qltb_lt 0 _) Hl).
      cbv beta iota delta [signed_inf jfloor jmin jle].
      change (Fin (inject_Z ?x)) with (of_Z x).
      rewrite jmax_of_Z. f_equal. lia. }
    split; [rewrite Hb; exact Hlast|].
    rewrite (Hcol (len - 1)%Z) by (try exact Hb; lia).
    f_equal. unfold len. lia.
Qed.

(** At the bound itself the quotient is 0/0: the index is NaN and
    [COLORS[NaN]] is [undefined]. *)
Lemma getColor_collapsed_at_bound (a : AppState) (b : Q) :
  priceRange a = {| pr_min := Fin b; pr_max := Fin b |} ->
  (0 < len)%Z -> (0 < b)%Q ->
  bucketIndex COLORS (Fin b) (priceRange a) = NaN
  /\ getColor COLORS (Fin b) a = None.
Proof.
  intros Hr Hlen Hb.
  assert (E : bucketIndex COLORS (Fin b) (priceRange a) = NaN).
  { rewrite Hr, (bucketIndex_collapsed b b Hlen).
    rewrite (proj2 (Qltb_ge b b)) by lra. reflexivity. }
  split; [exact E|]. unfold getColor. rewrite E.
  cbn [falsy]. rewrite Qeq_bool_false by lra. reflexivity.
Qed.

End ColourScale.

(** Witness of [getColor_monotone_clamped]: prices 150000 and 300000 on the
    range 100000..300000 with the palette of eight colours. *)
Lemma getColor_monotone_clamped_witness :
  exists i1 i2 : nat,
    bucketIndex demoCOLORS (of_Z 150000)
      {| pr_min := of_Z 100000; pr_max := of_Z 300000 |} = of_nat i1
    /\ bucketIndex demoCOLORS (of_Z 300000)
         {| pr_min := of_Z 100000; pr_max := of_Z 300000 |} = of_nat i2
    /\ (i1 <= i2 < 8)%nat.
Proof.
  destruct (getColor_monotone_clamped demoCOLORS
              (with_priceRange
                 {| pr_min := of_Z 100000; pr_max := of_Z 300000 |}
                 initialAppState)
              (inject_Z 100000) (inject_Z 300000)
              (of_Z 150000) (of_Z 300000))
    as (i1 & i2 & E1 & E2 & _ & _ & Hi & _); try reflexivity.
  - vm_compute. discriminate.
  - cbn. lia.
  - exists i1, i2. cbn in E1, E2. auto.
Defined.

(** Witness of [getColor_collapsed_range]: the range 100000..100000. *)
Lemma getColor_collapsed_range_witness :
  getColor demoCOLORS (of_Z 99000)
    (with_priceRange {| pr_min := of_Z 100000; pr_max := of_Z 100000 |}
       initialAppState) = Some "#c0"
  /\ getColor demoCOLORS (of_Z 101000)
       (with_priceRange {| pr_min := of_Z 100000; pr_max := of_Z 100000 |}
          initialAppState) = Some "#c7".
Proof.
  split.
  - apply (getColor_collapsed_range demoCOLORS
             (with_priceRange
                {| pr_min := of_Z 100000; pr_max := of_Z 100000 |}
                initialAppState) (inject_Z 100000) (of_Z 99000));
      reflexivity.
  - apply (getColor_collapsed_range demoCOLORS
             (with_priceRange
                {| pr_min := of_Z 100000; pr_max := of_Z 100000 |}
                initialAppState) (inject_Z 100000) (of_Z 101000));
      reflexivity.
Defined.

(** C3 as stated fails: on the range 100000..100000 the positive prices
    99000, 100000 and 101000 get palette index 0, no colour at all, and the
    last palette index. *)
Lemma getColor_collapsed_range_not_one_bucket :
  let a := with_priceRange
             {| pr_min := of_Z 100000; pr_max := of_Z 100000 |}
             initialAppState in
  getColor demoCOLORS (of_Z 99000) a = Some "#c0"
  /\ getColor demoCOLORS (of_Z 100000) a = None
  /\ getColor demoCOLORS (of_Z 101000) a = Some "#c7"
  /\ bucketIndex demoCOLORS (of_Z 100000) (priceRange a) = NaN.
Proof. vm_compute. repeat split. Qed.

(** ** Sorting and percentiles *)

Lemma comparefn_gt (x y : jsnum) :
  isNaN x = false -> isNaN y = false ->
  jlt (of_Z 0) (comparefn x y) = jlt y x.
Proof.
  intros Hx Hy. destruct x as [a | | |], y as [b | | |];
    try discriminate; try reflexivity.
  unfold comparefn, jsub, of_Z, jlt.
  destruct (Qlt_le_dec b a) as [H | H].
  - rewrite (proj2 (Qltb_lt b a) H). apply Qltb_lt.
    change (inject_Z 0) with 0%Q. apply round64_gt_0. lra.
  - rewrite (proj2 (Qltb_ge b a) H). apply Qltb_ge.
    change (inject_Z 0) with 0%Q. apply round64_nonpos. lra.
Qed.

Lemma jlt_false_jle (x y : jsnum) :
  isNaN x = false -> isNaN y = false -> jlt y x = false -> jle x y = true.
Proof.
  intros Hx Hy. destruct x as [a | | |], y as [b | | |];
    try discriminate; try reflexivity.
  cbn. intros H. apply Qltb_ge in H. apply Qle_bool_iff, H.
Qed.

Lemma jlt_true_jle (x y : jsnum) : jlt y x = true -> jle y x = true.
Proof.
  destruct x as [a | | |], y as [b | | |]; try discriminate; try reflexivity.
  cbn. intros H. apply Qltb_lt in H. apply Qle_bool_iff. lra.
Qed.

Lemma jle_refl (x : jsnum) : isNaN x = false -> jle x x = true.
Proof.
  destruct x as [a | | |]; try discriminate; try reflexivity.
  intros _. cbn. apply Qle_bool_iff. lra.
Qed.

Lemma jle_trans (x y z : jsnum) :
  jle x y = true -> jle y z = true -> jle x z = true.
Proof.
  destruct x as [a | | |], y as [b | | |], z as [c | | |];
    try discriminate; try reflexivity.
  cbn. intros H1 H2. apply Qle_bool_iff in H1, H2. apply Qle_bool_iff. lra.
Qed.

Lemma validPrice_not_NaN (p : jsnum) : validPrice p = true -> isNaN p = false.
Proof. destruct p; cbn; try discriminate; reflexivity. Qed.

Lemma insertSorted_perm (x : jsnum) (l : list jsnum) :
  insertSorted x l ≡ₚ x :: l.
Proof.
  induction l as [| y l IH]; cbn [insertSorted]; [reflexivity|].
  destruct (jlt (of_Z 0) (comparefn x y)); [|reflexivity].
  rewrite IH. apply Permutation_swap.
Qed.

Lemma sortPrices_perm (l : list jsnum) : sortPrices l ≡ₚ l.
Proof.
  induction l as [| x l IH]; cbn [sortPrices foldr]; [reflexivity|].
  fold (sortPrices l). rewrite insertSorted_perm, IH. reflexivity.
Qed.

Lemma sortPrices_length (l : list jsnum) : length (sortPrices l) = length l.
Proof. apply Permutation_length, sortPrices_perm. Qed.

Lemma insertSorted_ascending (x : jsnum) (l : list jsnum) :
  isNaN x = false -> Forall (fun y => isNaN y = false) l ->
  ascending l -> ascending (insertSorted x l).
Proof.
  intros Hx Hl Hs. induction Hs as [| y l Hs IH Hy]; cbn [insertSorted].
  - repeat constructor.
  - apply Forall_cons in Hl as [Hy0 Hl].
    rewrite (comparefn_gt x y Hx Hy0).
    destruct (jlt y x) eqn:E.
    + constructor; [apply IH, Hl|].
      rewrite insertSorted_perm. constructor; [|exact Hy].
      apply jlt_true_jle, E.
    + pose proof (jlt_false_jle x y Hx Hy0 E) as Hxy.
      constructor; [constructor; assumption|].
      constructor; [exact Hxy|].
      eapply Forall_impl; [exact Hy|]. cbn. intros z Hz.
      eapply jle_trans; eassumption.
Qed.

Lemma sortPrices_ascending (l : list jsnum) :
  Forall (fun y => isNaN y = false) l -> ascending (sortPrices l).
Proof.
  induction 1 as [| x l Hx Hl IH]; cbn [sortPrices foldr]; [constructor|].
  fold (sortPrices l).
  apply insertSorted_ascending; [exact Hx | | exact IH].
  rewrite sortPrices_perm. exact Hl.
Qed.

Lemma ascending_lookup (l : list jsnum) (i j : nat) (x y : jsnum) :
  ascending l -> Forall (fun y => isNaN y = false) l ->
  (i <= j)%nat -> l !! i = Some x -> l !! j = Some y -> jle x y = true.
Proof.
  intros Hs. revert i j. induction Hs as [| z l Hs IH Hz];
    intros i j Hl Hij Hi Hj; [discriminate Hi|].
  apply Forall_cons in Hl as [Hz0 Hl].
  destruct i as [| i], j as [| j]; cbn in Hi, Hj.
  - injection Hi as <-. injection Hj as <-. apply jle_refl, Hz0.
  - injection Hi as <-. rewrite Forall_forall in Hz.
    apply Hz. eapply list_elem_of_lookup_2, Hj.
  - lia.
  - apply (IH i j); [exact Hl | lia | exact Hi | exact Hj].
Qed.

Lemma percentileIndex_eq (c : Q) (n : nat) :
  percentileIndex c n
  = of_Z (Qfloor (round64 (inject_Z (Z.of_nat n) * c))).
Proof. reflexivity. Qed.

(** The three indices for 20, 40 and 100 prices.  The product [n * 0.95]
    is rounded to the nearest double before [Math.floor]: for 20 prices it
    is 19, although the double nearest to 0.95 is below 0.95. *)
Example percentileIndex_values :
  map (fun n => (percentileIndex c05 n, percentileIndex c50 n,
                 percentileIndex c95 n)) [20; 40; 100]%nat
  = [(of_Z 1, of_Z 10, of_Z 19); (of_Z 2, of_Z 20, of_Z 38);
     (of_Z 5, of_Z 50, of_Z 95)].
Proof. vm_compute. reflexivity. Qed.

Lemma Qfloor_eq (q : Q) (K : Z) :
  (inject_Z K <= q)%Q -> (q < inject_Z (K + 1))%Q -> Qfloor q = K.
Proof.
  intros H1 H2. apply Qfloor_resp_le in H1. rewrite Qfloor_Z in H1.
  pose proof (Qfloor_le q) as H3.
  assert (H4 : (inject_Z (Qfloor q) < inject_Z (K + 1))%Q) by lra.
  rewrite <- Zlt_Qlt in H4. lia.
Qed.

Lemma percentile05_value (n : Z) :
  (0 <= n < 2 ^ 32)%Z -> Qfloor (round64 (inject_Z n * c05)) = (n / 20)%Z.
Proof.
  intros Hn. set (K := (n / 20)%Z).
  assert (HK : (20 * K <= n <= 20 * K + 19)%Z).
  { pose proof (Z.div_mod n 20%Z ltac:(lia)).
    pose proof (Z.mod_pos_bound n 20%Z ltac:(lia)). unfold K. lia. }
  apply Qfloor_eq.
  - rewrite <- (round64_Z K) by lia. apply round64_mono.
    unfold Qle, c05. cbn. lia.
  - assert (H1 : (inject_Z n * c05 <= (32 * K + 31) # 32)%Q).
    { unfold Qle, c05. cbn. lia. }
    apply round64_mono in H1. rewrite round64_dyadic in H1 by lia.
    assert (H2 : ((32 * K + 31) # 32 < inject_Z (K + 1))%Q).
    { unfold Qlt. cbn. lia. }
    lra.
Qed.

Lemma percentile50_value (n : Z) :
  (0 <= n < 2 ^ 32)%Z -> Qfloor (round64 (inject_Z n * c50)) = (n / 2)%Z.
Proof.
  intros Hn.
  assert (H : (inject_Z n * c50 == (16 * n) # 32)%Q).
  { unfold Qeq, c50. cbn. lia. }
  rewrite (Qfloor_comp _ _ (round64_comp _ _ H)).
  rewrite (Qfloor_comp _ _ (round64_dyadic (16 * n)%Z ltac:(lia))).
  cbn [Qfloor]. exact (Z.div_mul_cancel_l n 2 16 ltac:(lia) ltac:(lia)).
Qed.

Lemma percentile95_value (n : Z) :
  (0 <= n < 2 ^ 32)%Z ->
  Qfloor (round64 (inject_Z n * c95)) = (19 * n / 20)%Z.
Proof.
  intros Hn. set (K := (19 * n / 20)%Z).
  assert (HK : (20 * K <= 19 * n <= 20 * K + 19)%Z).
  { pose proof (Z.div_mod (19 * n)%Z 20%Z ltac:(lia)).
    pose proof (Z.mod_pos_bound (19 * n)%Z 20%Z ltac:(lia)). unfold K. lia. }
  apply Qfloor_eq.
  - destruct (Z.eq_dec (19 * n)%Z (20 * K)%Z) as [E | NE].
    + (* n = 20 j, K = 19 j: the product lies just below K *)
      destruct (Z.eq_dec n 0%Z) as [-> | Hn0].
      { assert (HK0 : K = 0%Z) by lia. rewrite HK0.
        vm_compute. discriminate. }
      set (x := (inject_Z n * c95)%Q).
      assert (Hx : (0 < x)%Q).
      { unfold x, Qlt, c95. cbn. lia. }
      rewrite (round64_pos x Hx). unfold roundPos.
      destruct (binade_spec x Hx) as [B1 B2].
      set (e := binade x) in *.
      assert (He : (e <= 31)%Z).
      { destruct (Z.le_gt_cases e 31) as [G | G]; [exact G|]. exfalso.
        pose proof (pow2_le 32%Z e ltac:(lia)) as P.
        assert (Hx32 : (x < 2 ^ 32)%Q).
        { unfold x, Qlt, c95. cbn. lia. }
        lra. }
      set (s := (e - 52)%Z).
      pose proof (pow2_pos s) as Ps.
      assert (Hpk : (2 ^ (- s) * 2 ^ s == 1)%Q).
      { rewrite <- Qpower_plus by apply two_neq_0.
        replace (- s + s)%Z with 0%Z by lia. reflexivity. }
      assert (He1 : (2 ^ (e + 1) == 2 ^ 53 * 2 ^ s)%Q).
      { rewrite <- Qpower_plus by apply two_neq_0.
        replace (53 + s)%Z with (e + 1)%Z by (unfold s; lia). reflexivity. }
      set (M := (K * 2 ^ (- s))%Z).
      assert (HM : (inject_Z M == inject_Z K * 2 ^ (- s))%Q).
      { unfold M. rewrite inject_Z_mult, pow2_inject by (unfold s; lia).
        reflexivity. }
      assert (HxK : (inject_Z K - x == inject_Z (n - K) * (1 # 2 ^ 50))%Q).
      { unfold x, Qeq, c95. cbn. lia. }
      assert (Hj : (16 * inject_Z (n - K) < x)%Q).
      { unfold x, Qlt, c95. cbn. lia. }
      assert (Hr : (M <= rne (x / 2 ^ s))%Z).
      { apply rne_ge. rewrite HM.
        set (P := (2 ^ s)%Q) in *. set (P' := (2 ^ (- s))%Q) in *.
        set (P1 := (2 ^ (e + 1))%Q) in *.
        assert (Hdiv : (x / P == x * P')%Q).
        { apply Qdiv_cancel; [exact Ps|]. rewrite <- Qmult_assoc, Hpk. ring. }
        rewrite Hdiv.
        assert (HP' : (0 < P')%Q) by apply pow2_pos.
        set (J := inject_Z (n - K)) in *. set (k := inject_Z K) in *.
        assert (Hd : ((k - x) * P' < 1 # 2)%Q).
        { rewrite HxK.
          assert (HJP : (16 * J < 2 ^ 53 * P)%Q) by lra.
          assert (HJ2 : (16 * J * P' < 2 ^ 53 * P * P')%Q).
          { apply Qmult_lt_compat_r; assumption. }
          assert (HPP : (2 ^ 53 * P * P' == 2 ^ 53)%Q).
          { rewrite <- Qmult_assoc, (Qmult_comm P P'), Hpk. ring. }
          rewrite HPP in HJ2.
          change (2 ^ 53)%Q with 9007199254740992%Q in HJ2.
          change (1 # 2 ^ 50)%Q with (1 # 1125899906842624)%Q.
          clearbody J k P P' P1. lra. }
        clearbody J k P P' P1. lra. }
      rewrite Zle_Qle in Hr.
      assert (HK2 : (inject_Z K == inject_Z M * 2 ^ s)%Q).
      { rewrite HM, <- Qmult_assoc, Hpk. ring. }
      rewrite HK2. apply Qmult_le_compat_r; [exact Hr | lra].
    + rewrite <- (round64_Z K) by lia. apply round64_mono.
      unfold Qle, c95. cbn. lia.
  - assert (H1 : (inject_Z n * c95 <= (32 * K + 31) # 32)%Q).
    { unfold Qle, c95. cbn. lia. }
    apply round64_mono in H1. rewrite round64_dyadic in H1 by lia.
    assert (H2 : ((32 * K + 31) # 32 < inject_Z (K + 1))%Q).
    { unfold Qlt. cbn. lia. }
    lra.
Qed.

Lemma percentileIndex_floor (n : nat) :
  (Z.of_nat n < 2 ^ 32)%Z ->
  percentileIndex c05 n = of_nat (n / 20)
  /\ percentileIndex c50 n = of_nat (n / 2)
  /\ percentileIndex c95 n = of_nat (19 * n / 20).
Proof.
  intros Hn. rewrite !percentileIndex_eq. unfold of_nat.
  rewrite percentile05_value, percentile50_value, percentile95_value by lia.
  rewrite !Nat2Z.inj_div, Nat2Z.inj_mul. repeat split; reflexivity.
Qed.

Lemma at_index_lookup (l : list jsnum) (z : Z) :
  (0 <= z < Z.of_nat (length l))%Z ->
  l !! Z.to_nat z = Some (at_index l (of_Z z)).
Proof.
  intros Hz. unfold at_index, of_Z. rewrite is_index_Z by lia.
  rewrite Qfloor_Z, nth_lookup.
  destruct (lookup_lt_is_Some_2 l (Z.to_nat z) ltac:(lia)) as [x Hx].
  rewrite Hx. reflexivity.
Qed.

Lemma collectPrices_valid (geojson : GeoJSON) (a : AppState) :
  Forall (fun p => validPrice p = true) (collectPrices geojson a).
Proof.
  apply Forall_forall. intros p Hp. unfold collectPrices in Hp.
  apply list_elem_of_omap in Hp as (f & _ & Hf).
  destruct (yearCell _ _ _) as [v |]; [|discriminate].
  destruct (validPrice v) eqn:E; [|discriminate].
  injection Hf as <-. exact E.
Qed.

Lemma at_index_lookup_nat (l : list jsnum) (k : nat) :
  (k < length l)%nat -> l !! k = Some (at_index l (of_nat k)).
Proof.
  intros Hk. unfold of_nat. rewrite <- at_index_lookup by lia.
  rewrite Nat2Z.id. reflexivity.
Qed.

Lemma percentile_positions (n : nat) :
  (0 < n)%nat -> (n / 20 <= n / 2 <= 19 * n / 20 /\ 19 * n / 20 < n)%nat.
Proof.
  intros Hn.
  pose proof (Nat.div_mod_eq n 20). pose proof (Nat.mod_upper_bound n 20).
  pose proof (Nat.div_mod_eq n 2). pose proof (Nat.mod_upper_bound n 2).
  pose proof (Nat.div_mod_eq (19 * n) 20).
  pose proof (Nat.mod_upper_bound (19 * n) 20).
  lia.
Qed.

(** C4.  On a non-empty sequence of positive prices of length [n],
    [calculatePriceRange] sorts the prices in ascending order and returns
    the elements of the sorted sequence at the indices
    [Math.floor(n * 0.05)], [Math.floor(n * 0.95)] and [Math.floor(n * 0.5)]
    as [min], [max] and [median], its first and last elements as [lowest]
    and [highest], and [n] as [count].  The three indices are the integer
    parts of n/20, 19n/20 and n/2, so
    [lowest <= min <= median <= max <= highest].  (A JavaScript array holds
    fewer than 2^32 elements.) *)
Theorem rangeOfPrices_percentiles (prices : list jsnum) :
  prices <> [] ->
  Forall (fun p => validPrice p = true) prices ->
  (Z.of_nat (length prices) < 2 ^ 32)%Z ->
  let n := length prices in
  let sorted := sortPrices prices in
  let r := rangeOfPrices prices in
  percentileIndex c05 n = of_nat (n / 20)
  /\ percentileIndex c50 n = of_nat (n / 2)
  /\ percentileIndex c95 n = of_nat (19 * n / 20)
  /\ sorted ≡ₚ prices
  /\ ascending sorted
  /\ sorted !! (n / 20)%nat = Some (r_min r)
  /\ sorted !! (19 * n / 20)%nat = Some (r_max r)
  /\ sorted !! (n / 2)%nat = Some (r_median r)
  /\ sorted !! 0%nat = Some (r_lowest r)
  /\ last sorted = Some (r_highest r)
  /\ r_count r = n
  /\ jle (r_lowest r) (r_min r) = true
  /\ jle (r_min r) (r_median r) = true
  /\ jle (r_median r) (r_max r) = true
  /\ jle (r_max r) (r_highest r) = true.
Proof.
  intros Hne Hvalid Hlen n sorted r.
  assert (Hn : (0 < n)%nat).
  { unfold n. destruct prices; [contradiction | cbn; lia]. }
  assert (Hsl : length sorted = n) by apply sortPrices_length.
  assert (HnotNaN : Forall (fun y => isNaN y = false) prices).
  { eapply Forall_impl; [exact Hvalid|]. apply validPrice_not_NaN. }
  assert (Hasc : ascending sorted) by (apply sortPrices_ascending, HnotNaN).
  assert (HnotNaN' : Forall (fun y => isNaN y = false) sorted).
  { unfold sorted. rewrite sortPrices_perm. exact HnotNaN. }
  destruct (percentileIndex_floor n Hlen) as (I05 & I50 & I95).
  destruct (percentile_positions n Hn) as ((P1 & P2) & P3).
  assert (Hr : r = {| r_min := at_index sorted (of_nat (n / 20));
                      r_max := at_index sorted (of_nat (19 * n / 20));
                      r_median := at_index sorted (of_nat (n / 2));
                      r_lowest := at_index sorted (of_nat 0);
                      r_highest := at_index sorted (of_nat (n - 1));
                      r_count := n |}).
  { unfold r, rangeOfPrices. fold n.
    destruct (Nat.eqb_spec n 0) as [E | _]; [lia|].
    fold sorted. rewrite Hsl, I05, I50, I95.
    replace (of_Z (Z.of_nat n - 1)) with (of_nat (n - 1))
      by (unfold of_nat; f_equal; lia).
    reflexivity. }
  assert (L05 : sorted !! (n / 20)%nat = Some (r_min r)).
  { rewrite Hr. apply at_index_lookup_nat. lia. }
  assert (L50 : sorted !! (n / 2)%nat = Some (r_median r)).
  { rewrite Hr. apply at_index_lookup_nat. lia. }
  assert (L95 : sorted !! (19 * n / 20)%nat = Some (r_max r)).
  { rewrite Hr. apply at_index_lookup_nat. lia. }
  assert (L0 : sorted !! 0%nat = Some (r_lowest r)).
  { rewrite Hr. apply at_index_lookup_nat. lia. }
  assert (Ll : sorted !! (n - 1)%nat = Some (r_highest r)).
  { rewrite Hr. apply at_index_lookup_nat. lia. }
  repeat match goal with |- _ /\ _ => split end;
    try assumption.
  - apply sortPrices_perm.
  - rewrite last_lookup, Hsl.
    replace (Nat.pred n) with (n - 1)%nat by lia. exact Ll.
  - rewrite Hr. reflexivity.
  - apply (ascending_lookup sorted 0 (n / 20)); auto; lia.
  - apply (ascending_lookup sorted (n / 20) (n / 2)); auto; lia.
  - apply (ascending_lookup sorted (n / 2) (19 * n / 20)); auto; lia.
  - apply (ascending_lookup sorted (19 * n / 20) (n - 1)); auto; lia.
Qed.

(** Witness of [rangeOfPrices_percentiles]: the prices of the Wisconsin
    features for the year 2000. *)
Lemma rangeOfPrices_percentiles_witness :
  sortPrices (collectPrices wiGeoJSON (app demoWorld))
    !! (2 / 20)%nat
  = Some (r_min (calculatePriceRange wiGeoJSON (app demoWorld)))
  /\ jle (r_lowest (calculatePriceRange wiGeoJSON (app demoWorld)))
         (r_min (calculatePriceRange wiGeoJSON (app demoWorld))) = true
  /\ jle (r_max (calculatePriceRange wiGeoJSON (app demoWorld)))
         (r_highest (calculatePriceRange wiGeoJSON (app demoWorld))) = true.
Proof.
  destruct (rangeOfPrices_percentiles
              (collectPrices wiGeoJSON (app demoWorld)))
    as (_ & _ & _ & _ & _ & Hmin & _ & _ & _ & _ & _ & Hlo & _ & _ & Hhi).
  - discriminate.
  - vm_compute. repeat constructor.
  - vm_compute. reflexivity.
  - split; [exact Hmin|]. split; [exact Hlo | exact Hhi].
Defined.

(** ** Empty inputs and the national table *)

Lemma nationalPrices_zhviData (year : Z) (a b : AppState) :
  zhviData a = zhviData b -> nationalPrices year a = nationalPrices year b.
Proof. intros H. unfold nationalPrices. rewrite H. reflexivity. Qed.

(** One iteration of the loop of [calculateNationalPriceRanges]. *)
Lemma national_loop_zhviData (years : list Z) (a : AppState) :
  zhviData
    (foldl (fun a year =>
              with_nationalPriceRange
                (<[year := nationalRangeOf (nationalPrices year a)]>
                   (nationalPriceRange a)) a) a years)
  = zhviData a.
Proof.
  revert a. induction years as [| y years IH]; intros a; [reflexivity|].
  cbn [foldl]. rewrite IH. reflexivity.
Qed.

Lemma national_loop_lookup (years : list Z) (a : AppState) (year : Z) :
  nationalPriceRange
    (foldl (fun a year =>
              with_nationalPriceRange
                (<[year := nationalRangeOf (nationalPrices year a)]>
                   (nationalPriceRange a)) a) a years) !! year
  = if bool_decide (year ∈ years)
    then Some (nationalRangeOf (nationalPrices year a))
    else nationalPriceRange a !! year.
Proof.
  induction years as [| y years IH] using rev_ind.
  - cbn [foldl]. rewrite bool_decide_eq_false_2; [reflexivity|].
    apply not_elem_of_nil.
  - rewrite foldl_app. cbn [foldl nationalPriceRange with_nationalPriceRange].
    rewrite lookup_insert. destruct (decide (y = year)) as [-> | Hy].
    + rewrite bool_decide_eq_true_2.
      * f_equal. f_equal. apply nationalPrices_zhviData.
        apply national_loop_zhviData.
      * apply elem_of_app. right. apply list_elem_of_singleton. reflexivity.
    + rewrite IH. destruct (decide (year ∈ years)) as [Hin | Hin].
      * rewrite (bool_decide_eq_true_2 _ Hin).
        rewrite bool_decide_eq_true_2; [reflexivity|].
        apply elem_of_app. left. exact Hin.
      * rewrite (bool_decide_eq_false_2 _ Hin).
        rewrite bool_decide_eq_false_2; [reflexivity|].
        intros [H | H]%elem_of_app; [contradiction|].
        apply list_elem_of_singleton in H. congruence.
Qed.

Lemma calculateNationalPriceRanges_lookup (a : AppState) (year : Z) :
  (2000 <= year <= 2025)%Z ->
  nationalPriceRange (calculateNationalPriceRanges a) !! year
  = Some (nationalRangeOf (nationalPrices year a)).
Proof.
  intros Hy. unfold calculateNationalPriceRanges.
  rewrite national_loop_lookup, bool_decide_eq_true_2; [reflexivity|].
  apply elem_of_seqZ. lia.
Qed.

(** C5, as the code has it.  Whenever the features of a state yield no
    price for the current year, whatever the rest of the dataset holds,
    [calculatePriceRange] returns the fixed range
    [{ min: 0, max: 1000000, median: 0, lowest: 0, highest: 0, count: 0 }].
    Whenever a year from 2000 to 2025 has no price in the whole dataset,
    the national table stores [{ min: 50000, max: 1000000 }] for it. *)
Theorem empty_input_ranges (a : AppState) (geojson : GeoJSON) (year : Z) :
  (collectPrices geojson a = [] ->
   calculatePriceRange geojson a
   = {| r_min := of_Z 0; r_max := of_Z 1000000; r_median := of_Z 0;
        r_lowest := of_Z 0; r_highest := of_Z 0; r_count := 0 |})
  /\ ((2000 <= year <= 2025)%Z ->
      nationalPrices year a = [] ->
      nationalPriceRange (calculateNationalPriceRanges a) !! year
      = Some {| pr_min := of_Z 50000; pr_max := of_Z 1000000 |}).
Proof.
  split.
  - intros Hc. unfold calculatePriceRange. rewrite Hc. reflexivity.
  - intros Hy Hn. rewrite calculateNationalPriceRanges_lookup by exact Hy.
    rewrite Hn. reflexivity.
Qed.

(** Witness of [empty_input_ranges].  For the first part: in 2020, a year
    for which the dataset has prices in every state, a state whose only ZIP
    code, 54303, has no row.  For the second part: the year 2010, for which
    the dataset has no price. *)
Lemma empty_input_ranges_witness :
  calculatePriceRange {| features := [ {| ZCTA5CE10 := "54303" |} ] |}
    (with_currentYear 2020 (with_zhviData demoData initialAppState))
  = {| r_min := of_Z 0; r_max := of_Z 1000000; r_median := of_Z 0;
       r_lowest := of_Z 0; r_highest := of_Z 0; r_count := 0 |}
  /\ nationalPriceRange
       (calculateNationalPriceRanges
          (with_zhviData demoData initialAppState))
     !! 2010%Z
     = Some {| pr_min := of_Z 50000; pr_max := of_Z 1000000 |}.
Proof.
  split.
  - destruct (empty_input_ranges
                (with_currentYear 2020
                   (with_zhviData demoData initialAppState))
                {| features := [ {| ZCTA5CE10 := "54303" |} ] |} 2020)
      as [H1 _].
    apply H1. vm_compute. reflexivity.
  - destruct (empty_input_ranges (with_zhviData demoData initialAppState)
                wiGeoJSON 2010) as [_ H2].
    apply H2; [lia | vm_compute; reflexivity].
Defined.

(** C5 as stated fails: for a year without any price the national table
    does not hold the bounds [calculatePriceRange] returns on empty input;
    its lower bound is 50000, not 0. *)
Lemma national_default_differs :
  nationalPrices 2010 (with_zhviData demoData initialAppState) = []
  /\ (nationalPriceRange
        (calculateNationalPriceRanges
           (with_zhviData demoData initialAppState)) !! 2010%Z
      = Some {| pr_min := of_Z 50000; pr_max := of_Z 1000000 |})
  /\ r_min (rangeOfPrices []) = of_Z 0
  /\ of_Z 50000 <> r_min (rangeOfPrices []).
Proof.
  split; [vm_compute; reflexivity|].
  split; [vm_compute; reflexivity|].
  split; [reflexivity | discriminate].
Qed.

(** ** The view state *)

Ltac fields :=
  cbn [app layers timers nextTimer pending fetchLog consoleErrors display
       map_layers map_view currentLayer currentGeoJSON zhviData currentYear
       currentState isPlaying playInterval priceRange scaleMode
       nationalPriceRange shownYear legend stats loading
       with_map_layers with_map_view with_currentLayer with_currentGeoJSON
       with_zhviData with_currentYear with_currentState with_isPlaying
       with_playInterval with_priceRange with_scaleMode
       with_nationalPriceRange with_shownYear with_legend with_stats
       with_loading with_app with_layers with_timers with_nextTimer
       with_pending with_fetchLog with_consoleErrors with_display
       upd_app upd_display] in *.

Section View.

Variable COLORS : list string.
Variable STATES : gmap string StateInfo.

(** [calculatePriceRange] reads the dataset and the current year only. *)
Lemma calculatePriceRange_ext (geojson : GeoJSON) (a b : AppState) :
  zhviData a = zhviData b -> currentYear a = currentYear b ->
  calculatePriceRange geojson a = calculatePriceRange geojson b.
Proof.
  intros Hd Hy. unfold calculatePriceRange, collectPrices, yearCell.
  rewrite Hd, Hy. reflexivity.
Qed.

(** Recomputing the range and restyling, as [updateYear], [setScaleMode]
    and [renderState] do, leaves layer [l] styled from its data. *)
Lemma restyle_styledFrom (geojson : GeoJSON) (l : nat) (w : World) :
  layer_geojson <$> layers w !! l = Some geojson ->
  styledFrom COLORS geojson l
    (setStyle COLORS l
       (applyPriceRange (calculatePriceRange geojson (app w)) w)).
Proof.
  intros Hl. destruct (layers w !! l) as [L |] eqn:E; [|discriminate].
  injection Hl as Hg.
  unfold styledFrom, setStyle, applyPriceRange. fields.
  split; [|split].
  - rewrite list_lookup_alter, decide_True, E by reflexivity.
    cbn. rewrite Hg. reflexivity.
  - reflexivity.
  - reflexivity.
Qed.

Lemma updateYear_rendered (year : Z) (l : nat) (geojson : GeoJSON)
    (w : World) :
  currentLayer (app w) = Some l -> currentGeoJSON (app w) = Some geojson ->
  updateYear COLORS year w
  = let w := upd_display (with_shownYear year)
               (upd_app (with_currentYear year) w) in
    setStyle COLORS l
      (applyPriceRange (calculatePriceRange geojson (app w)) w).
Proof.
  intros Hl Hg. unfold updateYear. fields. rewrite Hl, Hg. reflexivity.
Qed.

Lemma setScaleMode_rendered (mode : string) (l : nat) (geojson : GeoJSON)
    (w : World) :
  currentLayer (app w) = Some l -> currentGeoJSON (app w) = Some geojson ->
  setScaleMode COLORS mode w
  = let w := upd_app (with_scaleMode mode) w in
    setStyle COLORS l
      (applyPriceRange (calculatePriceRange geojson (app w)) w).
Proof.
  intros Hl Hg. unfold setScaleMode. fields. rewrite Hl, Hg. reflexivity.
Qed.

Lemma updateYear_idle (year : Z) (w : World) :
  currentLayer (app w) = None \/ currentGeoJSON (app w) = None ->
  updateYear COLORS year w
  = upd_display (with_shownYear year) (upd_app (with_currentYear year) w).
Proof.
  intros H. unfold updateYear. fields.
  destruct H as [H | H]; rewrite H; [reflexivity|].
  destruct (currentLayer (app w)); reflexivity.
Qed.

Lemma setScaleMode_idle (mode : string) (w : World) :
  currentLayer (app w) = None \/ currentGeoJSON (app w) = None ->
  setScaleMode COLORS mode w = upd_app (with_scaleMode mode) w.
Proof.
  intros H. unfold setScaleMode. fields.
  destruct H as [H | H]; rewrite H; [reflexivity|].
  destruct (currentLayer (app w)); reflexivity.
Qed.

Lemma updateYear_currentYear (year : Z) (w : World) :
  currentYear (app (updateYear COLORS year w)) = year.
Proof.
  unfold updateYear. fields.
  destruct (currentLayer (app w)), (currentGeoJSON (app w)); reflexivity.
Qed.


(** *** Rendering a state *)

Lemma renderState_known (r : string) (st : StateInfo) (w : World) :
  r <> "" -> STATES !! r = Some st ->
  renderState STATES r w
  = with_pending (<[length (fetchLog w) := r]> (pending w))
      (with_fetchLog (fetchLog w ++ ["geojsons/" +:+ state_file st])
         (upd_display (with_loading true)
            (upd_app
               (fun a =>
                  with_currentLayer None
                    (with_map_layers
                       (match currentLayer a with
                        | Some l => filter (fun x => x <> l) (map_layers a)
                        | None => map_layers a
                        end)
                       (with_currentState (Some r) a))) w))).
Proof.
  intros Hr Hs. unfold renderState, loadStateGeoJSON, showLoading.
  rewrite bool_decide_eq_false_2 by exact Hr. fields.
  destruct w as [a ls ts nt pd fl ce d].
  destruct a as [ml mv cl cg zd cy cs ip pi pr sm np]. fields.
  destruct cl; fields; rewrite Hs; reflexivity.
Qed.

(** The state in which [renderState] leaves the application once its fetch
    has succeeded. *)
Lemma renderState_resume_success (r : string) (st : StateInfo)
    (geojson : GeoJSON) (w : World) :
  STATES !! r = Some st ->
  let w' := renderState_resume COLORS STATES r (Some geojson) w in
  let l := length (layers w) in
  currentGeoJSON (app w') = Some geojson
  /\ currentLayer (app w') = Some l
  /\ map_layers (app w') = map_layers (app w) ++ [l]
  /\ layers w' = layers w ++ [newLayer COLORS geojson (app w')]
  /\ styledFrom COLORS geojson l w'
  /\ currentState (app w') = currentState (app w)
  /\ currentYear (app w') = currentYear (app w)
  /\ scaleMode (app w') = scaleMode (app w)
  /\ isPlaying (app w') = isPlaying (app w)
  /\ playInterval (app w') = playInterval (app w)
  /\ timers w' = timers w
  /\ pending w' = pending w
  /\ fetchLog w' = fetchLog w
  /\ consoleErrors w' = consoleErrors w.
Proof.
  intros Hs w' l. subst w'.
  unfold renderState_resume, loadStateGeoJSON_settled, showLoading,
    applyPriceRange, setStyle.
  fields. rewrite Hs. fields. fold l.
  rewrite alter_app_r_alt by (unfold l; lia).
  replace (l - length (layers w))%nat with 0%nat by (unfold l; lia).
  cbn [alter list_alter]. unfold styledFrom, applyPriceRange. fields.
  rewrite lookup_app_r by (unfold l; lia).
  replace (l - length (layers w))%nat with 0%nat by (unfold l; lia).
  repeat split; reflexivity.
Qed.

(** The state in which [renderState] leaves the application once its fetch
    has failed: nothing but the overlay and the console changes. *)
Lemma renderState_resume_failure (r : string) (w : World) :
  renderState_resume COLORS STATES r None w
  = upd_display (with_loading false)
      (with_consoleErrors (S (consoleErrors w)) w).
Proof. reflexivity. Qed.

Lemma step_renderState (r : string) (w : World) :
  step COLORS STATES w (EvRenderState r) = renderState STATES r w.
Proof. reflexivity. Qed.

Lemma step_updateYear (year : Z) (w : World) :
  step COLORS STATES w (EvUpdateYear year) = updateYear COLORS year w.
Proof. reflexivity. Qed.

Lemma step_setScaleMode (mode : string) (w : World) :
  step COLORS STATES w (EvSetScaleMode mode) = setScaleMode COLORS mode w.
Proof. reflexivity. Qed.

Lemma step_fetch_settled (k : nat) (r : string) (outcome : option GeoJSON)
    (w : World) :
  pending w !! k = Some r ->
  step COLORS STATES w (EvFetchSettled k outcome)
  = renderState_resume COLORS STATES r outcome
      (with_pending (delete k (pending w)) w).
Proof. intros H. cbn [step]. rewrite H. reflexivity. Qed.

(** *** Year and scale changes on a rendered state *)

Lemma setStyle_layer_geojson (l j : nat) (w : World) :
  layer_geojson <$> layers (setStyle COLORS l w) !! j
  = layer_geojson <$> layers w !! j.
Proof.
  unfold setStyle. fields. rewrite list_lookup_alter.
  destruct (decide (l = j)) as [-> | _]; [|reflexivity].
  destruct (layers w !! j); reflexivity.
Qed.

(** A change of year or scale mode touches neither the network, nor the
    cached geometry, nor the set of layers on the map, nor the timers. *)
Lemma view_change_frame (e : event) (w : World) :
  isViewChange e ->
  let w' := step COLORS STATES w e in
  fetchLog w' = fetchLog w
  /\ pending w' = pending w
  /\ currentGeoJSON (app w') = currentGeoJSON (app w)
  /\ currentLayer (app w') = currentLayer (app w)
  /\ map_layers (app w') = map_layers (app w)
  /\ currentState (app w') = currentState (app w)
  /\ (forall j, layer_geojson <$> layers w' !! j
                 = layer_geojson <$> layers w !! j).
Proof.
  intros He. destruct e as [| | year | mode | |]; try contradiction;
    cbn [step].
  - unfold updateYear. fields.
    destruct (currentLayer (app w)) as [l |] eqn:El,
      (currentGeoJSON (app w)) eqn:Eg;
      repeat (split; [first [reflexivity | assumption]|]); intros j;
      rewrite ?setStyle_layer_geojson; reflexivity.
  - unfold setScaleMode. fields.
    destruct (currentLayer (app w)) as [l |] eqn:El,
      (currentGeoJSON (app w)) eqn:Eg;
      repeat (split; [first [reflexivity | assumption]|]); intros j;
      rewrite ?setStyle_layer_geojson; reflexivity.
Qed.

Lemma view_change_styledFrom (e : event) (l : nat) (geojson : GeoJSON)
    (w : World) :
  isViewChange e ->
  currentLayer (app w) = Some l -> currentGeoJSON (app w) = Some geojson ->
  layer_geojson <$> layers w !! l = Some geojson ->
  styledFrom COLORS geojson l (step COLORS STATES w e).
Proof.
  intros He Hl Hg HL. destruct e as [| | year | mode | |]; try contradiction;
    cbn [step].
  - rewrite (updateYear_rendered year l geojson w Hl Hg). cbv zeta.
    apply restyle_styledFrom. exact HL.
  - rewrite (setScaleMode_rendered mode l geojson w Hl Hg). cbv zeta.
    apply restyle_styledFrom. exact HL.
Qed.

Lemma styledFrom_layer_geojson (geojson : GeoJSON) (l : nat) (w : World) :
  styledFrom COLORS geojson l w ->
  layer_geojson <$> layers w !! l = Some geojson.
Proof. intros [H _]. rewrite H. reflexivity. Qed.

(** C8.  Once a state is rendered, no sequence of year and scale-mode
    changes fetches anything: the log of requests and the suspended calls
    stay as they are, the cached geometry and the layer on the map stay the
    same, and after each change the layer is styled, and the range
    computed, from the cached geometry. *)
Theorem view_changes_reuse_cached_geometry (w : World) (l : nat)
    (geojson : GeoJSON) (es : list event) :
  currentLayer (app w) = Some l ->
  currentGeoJSON (app w) = Some geojson ->
  styledFrom COLORS geojson l w ->
  Forall isViewChange es ->
  let w' := run COLORS STATES w es in
  fetchLog w' = fetchLog w
  /\ pending w' = pending w
  /\ currentGeoJSON (app w') = Some geojson
  /\ currentLayer (app w') = Some l
  /\ map_layers (app w') = map_layers (app w)
  /\ currentState (app w') = currentState (app w)
  /\ styledFrom COLORS geojson l w'.
Proof.
  intros Hl Hg Hs Hes. cbv zeta.
  induction es as [| e es IH] using rev_ind.
  - repeat (split; [first [reflexivity | assumption]|]). exact Hs.
  - apply Forall_app in Hes as [Hes He]. apply Forall_cons in He as [He _].
    unfold run in *. rewrite foldl_app. cbn [foldl].
    destruct (IH Hes) as (F1 & F2 & F3 & F4 & F5 & F6 & F7).
    destruct (view_change_frame e (foldl (step COLORS STATES) w es) He)
      as (G1 & G2 & G3 & G4 & G5 & G6 & G7).
    rewrite G1, G2, G3, G4, G5, G6.
    repeat (split; [assumption|]).
    apply view_change_styledFrom; try assumption.
    apply styledFrom_layer_geojson, F7.
Qed.

(** C10.  With no layer or no cached geometry, [updateYear] and
    [setScaleMode] record the new year (also shown on the page) and the new
    scale mode and change nothing else; a state rendered afterwards is
    styled for that year and that mode. *)
Theorem view_changes_without_layer (w : World) (year : Z) (mode r : string)
    (st : StateInfo) (geojson : GeoJSON) :
  currentLayer (app w) = None \/ currentGeoJSON (app w) = None ->
  r <> "" -> STATES !! r = Some st ->
  updateYear COLORS year w
  = upd_display (with_shownYear year) (upd_app (with_currentYear year) w)
  /\ setScaleMode COLORS mode w = upd_app (with_scaleMode mode) w
  /\ let w' :=
       run COLORS STATES w
         [EvUpdateYear year; EvSetScaleMode mode; EvRenderState r;
          EvFetchSettled (length (fetchLog w)) (Some geojson)] in
     currentYear (app w') = year
     /\ scaleMode (app w') = mode
     /\ currentGeoJSON (app w') = Some geojson
     /\ exists l : nat,
         currentLayer (app w') = Some l /\ styledFrom COLORS geojson l w'.
Proof.
  intros Hidle Hr Hs.
  split; [apply updateYear_idle, Hidle|].
  split; [apply setScaleMode_idle, Hidle|].
  cbv zeta. unfold run. cbn [foldl].
  rewrite step_updateYear, step_setScaleMode, step_renderState.
  rewrite (updateYear_idle year w Hidle).
  rewrite setScaleMode_idle by (fields; exact Hidle).
  rewrite (renderState_known r st _ Hr Hs).
  rewrite (step_fetch_settled (length (fetchLog w)) r)
    by (fields; apply lookup_insert_eq).
  match goal with
  | |- context [renderState_resume COLORS STATES r (Some geojson) ?w0] =>
      destruct (renderState_resume_success r st geojson w0 Hs)
        as (R1 & R2 & _ & _ & R5 & _ & R7 & R8 & _)
  end.
  fields. rewrite R7, R8. repeat (split; [first [reflexivity | exact R1]|]).
  eexists. split; [exact R2 | exact R5].
Qed.

(** *** Selections whose fetches overlap *)

(** C1, as the code has it.  When [renderState r2] is called while the
    fetch of [renderState r1] is in flight and both fetches succeed, the
    selected state is [r2] whatever the order of the two responses, but the
    cached geometry and the current layer are those of the response that
    arrives last; each response puts its layer on the map and removes
    none. *)
Theorem overlapping_fetches_last_response_wins (w : World) (r1 r2 : string)
    (st1 st2 : StateInfo) (g1 g2 : GeoJSON) :
  r1 <> "" -> r2 <> "" ->
  STATES !! r1 = Some st1 -> STATES !! r2 = Some st2 ->
  let k1 := length (fetchLog w) in
  let k2 := S k1 in
  let l1 := length (layers w) in
  let l2 := S l1 in
  let w2 := run COLORS STATES w [EvRenderState r1; EvRenderState r2] in
  let wa :=
    run COLORS STATES w2
      [EvFetchSettled k1 (Some g1); EvFetchSettled k2 (Some g2)] in
  let wb :=
    run COLORS STATES w2
      [EvFetchSettled k2 (Some g2); EvFetchSettled k1 (Some g1)] in
  (currentState (app wa) = Some r2
   /\ currentGeoJSON (app wa) = Some g2
   /\ currentLayer (app wa) = Some l2
   /\ layer_geojson <$> layers wa !! l2 = Some g2
   /\ l1 ∈ map_layers (app wa) /\ l2 ∈ map_layers (app wa))
  /\ (currentState (app wb) = Some r2
      /\ currentGeoJSON (app wb) = Some g1
      /\ currentLayer (app wb) = Some l2
      /\ layer_geojson <$> layers wb !! l2 = Some g1
      /\ l1 ∈ map_layers (app wb) /\ l2 ∈ map_layers (app wb)).
Proof.
  intros Hr1 Hr2 Hs1 Hs2. cbv zeta. unfold run. cbn [foldl].
  rewrite !step_renderState.
  rewrite (renderState_known r1 st1 w Hr1 Hs1).
  rewrite (renderState_known r2 st2 _ Hr2 Hs2).
  fields. rewrite length_app. cbn [length].
  replace (length (fetchLog w) + 1)%nat with (S (length (fetchLog w)))
    by lia.
  set (k1 := length (fetchLog w)).
  assert (Hk : k1 <> S k1) by lia.
  assert (Hk' : S k1 <> k1) by lia.
  split.
  - rewrite (step_fetch_settled k1 r1).
    2:{ fields. rewrite lookup_insert_ne by exact Hk'.
        apply lookup_insert_eq. }
    match goal with
    | |- context [renderState_resume COLORS STATES r1 (Some g1) ?w0] =>
        destruct (renderState_resume_success r1 st1 g1 w0 Hs1)
          as (A1 & A2 & A3 & A4 & _ & A6 & _ & _ & _ & _ & _ & A12 & _);
        set (wa1 := renderState_resume COLORS STATES r1 (Some g1) w0) in *
    end.
    fields.
    rewrite (step_fetch_settled (S k1) r2).
    2:{ rewrite A12. fields. rewrite lookup_delete_ne by exact Hk.
        apply lookup_insert_eq. }
    match goal with
    | |- context [renderState_resume COLORS STATES r2 (Some g2) ?w0] =>
        destruct (renderState_resume_success r2 st2 g2 w0 Hs2)
          as (B1 & B2 & B3 & B4 & _ & B6 & _)
    end.
    fields. rewrite B6, B1, B2, B3, B4, A6, A3, A4, length_app. cbn [length].
    replace (length (layers w) + 1)%nat with (S (length (layers w)))
      by lia.
    repeat split; try reflexivity.
    + rewrite lookup_app_r by (rewrite length_app; cbn [length]; lia).
      rewrite length_app. cbn [length].
      replace (S (length (layers w)) - (length (layers w) + 1))%nat
        with 0%nat by lia.
      reflexivity.
    + apply elem_of_app. left. apply elem_of_app. right.
      apply list_elem_of_singleton. reflexivity.
    + apply elem_of_app. right. apply list_elem_of_singleton. reflexivity.
  - rewrite (step_fetch_settled (S k1) r2).
    2:{ fields. apply lookup_insert_eq. }
    match goal with
    | |- context [renderState_resume COLORS STATES r2 (Some g2) ?w0] =>
        destruct (renderState_resume_success r2 st2 g2 w0 Hs2)
          as (A1 & A2 & A3 & A4 & _ & A6 & _ & _ & _ & _ & _ & A12 & _);
        set (wb1 := renderState_resume COLORS STATES r2 (Some g2) w0) in *
    end.
    fields.
    rewrite (step_fetch_settled k1 r1).
    2:{ rewrite A12. fields. rewrite lookup_delete_ne by exact Hk'.
        rewrite lookup_insert_ne by exact Hk'. apply lookup_insert_eq. }
    match goal with
    | |- context [renderState_resume COLORS STATES r1 (Some g1) ?w0] =>
        destruct (renderState_resume_success r1 st1 g1 w0 Hs1)
          as (B1 & B2 & B3 & B4 & _ & B6 & _)
    end.
    fields. rewrite B6, B1, B2, B3, B4, A6, A3, A4, length_app. cbn [length].
    replace (length (layers w) + 1)%nat with (S (length (layers w)))
      by lia.
    repeat split; try reflexivity.
    + rewrite lookup_app_r by (rewrite length_app; cbn [length]; lia).
      rewrite length_app. cbn [length].
      replace (S (length (layers w)) - (length (layers w) + 1))%nat
        with 0%nat by lia.
      reflexivity.
    + apply elem_of_app. left. apply elem_of_app. right.
      apply list_elem_of_singleton. reflexivity.
    + apply elem_of_app. right. apply list_elem_of_singleton. reflexivity.
Qed.

(** *** A fetch that fails *)

(** C2, as the code has it.  When a state is on the map and the fetch of
    the next selected state fails, nothing is raised: the failure is
    written to the console, the loading overlay is hidden and
    [renderState] returns.  The cached geometry, the layer objects and the
    price range are as before the call, but the layer that was shown has
    been taken off the map and [currentLayer] is empty, the selected state
    being the new one. *)
Theorem failed_fetch_after_render (w : World) (l : nat) (r : string)
    (st : StateInfo) :
  currentLayer (app w) = Some l ->
  r <> "" -> STATES !! r = Some st ->
  let w' :=
    run COLORS STATES w
      [EvRenderState r; EvFetchSettled (length (fetchLog w)) None] in
  currentLayer (app w') = None
  /\ map_layers (app w') = filter (fun x => x <> l) (map_layers (app w))
  /\ (l ∉ map_layers (app w'))
  /\ currentGeoJSON (app w') = currentGeoJSON (app w)
  /\ layers w' = layers w
  /\ priceRange (app w') = priceRange (app w)
  /\ currentState (app w') = Some r
  /\ consoleErrors w' = S (consoleErrors w)
  /\ loading (display w') = false
  /\ pending w' !! length (fetchLog w) = None.
Proof.
  intros Hl Hr Hs. cbv zeta. unfold run. cbn [foldl].
  rewrite step_renderState, (renderState_known r st w Hr Hs).
  rewrite (step_fetch_settled (length (fetchLog w)) r)
    by (fields; apply lookup_insert_eq).
  rewrite renderState_resume_failure. fields. rewrite Hl.
  repeat (split; [reflexivity|]).
  split; [|repeat (split; [reflexivity|]); apply lookup_delete_eq].
  intros Hin. apply list_elem_of_filter in Hin as [Hne _]. contradiction.
Qed.

(** *** The animation timer *)

Lemma updateYear_timers (year : Z) (w : World) :
  let w' := updateYear COLORS year w in
  timers w' = timers w
  /\ nextTimer w' = nextTimer w
  /\ isPlaying (app w') = isPlaying (app w)
  /\ playInterval (app w') = playInterval (app w).
Proof.
  unfold updateYear. fields.
  destruct (currentLayer (app w)), (currentGeoJSON (app w));
    repeat split; reflexivity.
Qed.

(** Every event but a click on the play button and a timer expiry leaves
    the timers and the animation flag alone. *)
Lemma step_timers_frame (e : event) (w : World) :
  e <> EvTogglePlay -> (forall h, e <> EvTimer h) ->
  let w' := step COLORS STATES w e in
  timers w' = timers w
  /\ nextTimer w' = nextTimer w
  /\ isPlaying (app w') = isPlaying (app w)
  /\ playInterval (app w') = playInterval (app w).
Proof.
  intros H1 H2. destruct e as [r | k o | year | mode | | h];
    try contradiction; try (exfalso; apply (H2 h); reflexivity);
    cbn [step].
  - unfold renderState, loadStateGeoJSON, showLoading.
    destruct (bool_decide (r = "")); [repeat split; reflexivity|].
    fields. destruct (currentLayer (app w)); fields;
      destruct (STATES !! r); repeat split; reflexivity.
  - destruct (pending w !! k) as [r |]; [|repeat split; reflexivity].
    destruct o as [g |]; [|repeat split; reflexivity].
    unfold renderState_resume, loadStateGeoJSON_settled, showLoading,
      applyPriceRange, setStyle.
    fields. destruct (STATES !! r); repeat split; reflexivity.
  - apply updateYear_timers.
  - unfold setScaleMode. fields.
    destruct (currentLayer (app w)), (currentGeoJSON (app w));
      repeat split; reflexivity.
Qed.

Lemma togglePlay_pause (w : World) (h : nat) :
  isPlaying (app w) = true -> playInterval (app w) = Some h ->
  timers w = [h] ->
  isPlaying (app (togglePlay COLORS w)) = false
  /\ timers (togglePlay COLORS w) = [].
Proof.
  intros Hp Hi Ht. unfold togglePlay, clearInterval. rewrite Hp, Hi.
  fields. rewrite Ht. split; [reflexivity|].
  cbn [filter list_filter]. rewrite decide_False by (intros H; apply H; reflexivity).
  reflexivity.
Qed.

Lemma togglePlay_play (w : World) :
  isPlaying (app w) = false -> timers w = [] ->
  isPlaying (app (togglePlay COLORS w)) = true
  /\ playInterval (app (togglePlay COLORS w)) = Some (nextTimer w)
  /\ timers (togglePlay COLORS w) = [nextTimer w].
Proof.
  intros Hp Ht. unfold togglePlay, setInterval. rewrite Hp. fields.
  destruct (2025 <=? currentYear (app w))%Z.
  - destruct (updateYear_timers 2000
                (upd_app (with_isPlaying true) w)) as (T1 & T2 & T3 & _).
    cbv zeta in T1, T2, T3. fields. rewrite T1, T2. fields. rewrite Ht.
    repeat split; first [reflexivity | exact T3].
  - fields. rewrite Ht. repeat split; reflexivity.
Qed.

(** The timers stay consistent with the animation flag whatever happens. *)
Lemma step_timersConsistent (e : event) (w : World) :
  timersConsistent w -> timersConsistent (step COLORS STATES w e).
Proof.
  assert (Htoggle : forall w0, timersConsistent w0 ->
            timersConsistent (togglePlay COLORS w0)).
  { intros w0 H0. unfold timersConsistent in *.
    destruct (isPlaying (app w0)) eqn:Hp.
    - destruct H0 as (h & Hi & Ht).
      destruct (togglePlay_pause w0 h Hp Hi Ht) as [P1 P2].
      rewrite P1. exact P2.
    - destruct (togglePlay_play w0 Hp H0) as (P1 & P2 & P3).
      rewrite P1. eexists. split; [exact P2 | exact P3]. }
  assert (Hframe : forall w0 w1 : World,
            timers w1 = timers w0 ->
            isPlaying (app w1) = isPlaying (app w0) ->
            playInterval (app w1) = playInterval (app w0) ->
            timersConsistent w0 -> timersConsistent w1).
  { intros w0 w1 E1 E2 E3. unfold timersConsistent.
    rewrite E1, E2, E3. auto. }
  intros Hc.
  destruct e as [r | k o | year | mode | | h].
  1-4: match goal with
       | |- timersConsistent (step COLORS STATES _ ?e0) =>
           assert (N1 : e0 <> EvTogglePlay) by discriminate;
           assert (N2 : forall h, e0 <> EvTimer h) by discriminate;
           destruct (step_timers_frame e0 w N1 N2) as (T1 & _ & T3 & T4);
           exact (Hframe _ _ T1 T3 T4 Hc)
       end.
  { apply Htoggle, Hc. }
  cbn [step]. destruct (bool_decide (h ∈ timers w)); [|exact Hc].
  unfold playTick. destruct (2025 <=? currentYear (app w))%Z.
  - apply Htoggle, Hc.
  - destruct (updateYear_timers (currentYear (app w) + 1) w)
      as (T1 & _ & T3 & T4).
    exact (Hframe _ _ T1 T3 T4 Hc).
Qed.

Lemma initialWorld_timersConsistent : timersConsistent initialWorld.
Proof. reflexivity. Qed.

Lemma timers_stay_empty (es : list event) (w : World) :
  timers w = [] -> Forall (fun e => e <> EvTogglePlay) es ->
  timers (run COLORS STATES w es) = [].
Proof.
  intros Ht Hes. revert w Ht.
  induction Hes as [| e es He Hes IH]; intros w Ht; [exact Ht|].
  unfold run. cbn [foldl]. apply IH.
  destruct e as [r | k o | year | mode | | h]; try contradiction.
  1-4: match goal with
       | |- timers (step COLORS STATES _ ?e0) = [] =>
           assert (N2 : forall h, e0 <> EvTimer h) by discriminate;
           destruct (step_timers_frame e0 w He N2) as (T1 & _);
           rewrite T1; exact Ht
       end.
  cbn [step]. rewrite Ht.
  rewrite bool_decide_eq_false_2 by apply not_elem_of_nil. exact Ht.
Qed.

(** C9, as the code has it.  While the animation plays, a click that pauses
    it cancels the timer for good: no timer is active afterwards and, until
    play is pressed again, a timer expiry changes nothing.  A call of
    [renderState] does not: the animation flag and the timer stay as they
    are, and the next expiry of the timer advances the year. *)
Theorem pause_cancels_timer_renderState_keeps_it (w : World) (h : nat) :
  isPlaying (app w) = true -> playInterval (app w) = Some h ->
  timers w = [h] ->
  (let wp := step COLORS STATES w EvTogglePlay in
   isPlaying (app wp) = false
   /\ timers wp = []
   /\ forall (es : list event) (t : nat),
       Forall (fun e => e <> EvTogglePlay) es ->
       step COLORS STATES (run COLORS STATES wp es) (EvTimer t)
       = run COLORS STATES wp es)
  /\ (forall r : string,
       let ws := step COLORS STATES w (EvRenderState r) in
       isPlaying (app ws) = true
       /\ playInterval (app ws) = Some h
       /\ timers ws = [h]
       /\ ((currentYear (app w) < 2025)%Z ->
           currentYear (app (step COLORS STATES ws (EvTimer h)))
           = (currentYear (app w) + 1)%Z)).
Proof.
  intros Hp Hi Ht. split.
  - cbv zeta.
    change (step COLORS STATES w EvTogglePlay) with (togglePlay COLORS w).
    destruct (togglePlay_pause w h Hp Hi Ht) as [P1 P2].
    split; [exact P1|]. split; [exact P2|].
    intros es t Hes. cbn [step].
    rewrite (timers_stay_empty es _ P2 Hes).
    rewrite bool_decide_eq_false_2 by apply not_elem_of_nil. reflexivity.
  - intros r. cbv zeta.
    assert (N1 : EvRenderState r <> EvTogglePlay) by discriminate.
    assert (N2 : forall t, EvRenderState r <> EvTimer t) by discriminate.
    destruct (step_timers_frame (EvRenderState r) w N1 N2)
      as (T1 & _ & T3 & T4).
    cbv zeta in T1, T3, T4.
    assert (Hyear : currentYear
                      (app (step COLORS STATES w (EvRenderState r)))
                    = currentYear (app w)).
    { cbn [step]. unfold renderState, loadStateGeoJSON, showLoading.
      destruct (bool_decide (r = "")); [reflexivity|].
      fields. destruct (currentLayer (app w)); fields;
        destruct (STATES !! r); reflexivity. }
    set (ws := step COLORS STATES w (EvRenderState r)) in *. clearbody ws.
    rewrite T1, T3, T4. repeat (split; [assumption|]).
    intros Hy.
    cbn [step]. rewrite T1, Ht.
    rewrite bool_decide_eq_true_2
      by (apply list_elem_of_singleton; reflexivity).
    unfold playTick. rewrite Hyear.
    destruct (Z.leb_spec 2025 (currentYear (app w))) as [Hge | _]; [lia|].
    apply updateYear_currentYear.
Qed.

End View.



(** ** The statements on the small configuration *)

(** Witness of [view_changes_reuse_cached_geometry]: Wisconsin rendered,
    then the year set to 2020 and back to 2000; one request in all. *)
Lemma view_changes_reuse_cached_geometry_witness :
  fetchLog (demoRun demoRendered [EvUpdateYear 2020; EvUpdateYear 2000])
  = ["geojsons/wi.min.json"]
  /\ currentGeoJSON
       (app (demoRun demoRendered [EvUpdateYear 2020; EvUpdateYear 2000]))
     = Some wiGeoJSON.
Proof.
  destruct (view_changes_reuse_cached_geometry demoCOLORS demoSTATES
              demoRendered 0 wiGeoJSON
              [EvUpdateYear 2020; EvUpdateYear 2000])
    as (H1 & _ & H3 & _).
  - vm_compute. reflexivity.
  - vm_compute. reflexivity.
  - unfold styledFrom. vm_compute. repeat split.
  - repeat constructor.
  - split; [exact H1 | exact H3].
Defined.

(** Witness of [view_changes_without_layer]: before any selection, the year
    is set to 2020 and the scale to national, then Wisconsin is rendered. *)
Lemma view_changes_without_layer_witness :
  currentYear
    (app (demoRun demoWorld
            [EvUpdateYear 2020; EvSetScaleMode "national";
             EvRenderState "WI"; EvFetchSettled 0 (Some wiGeoJSON)]))
  = 2020%Z
  /\ scaleMode
       (app (demoRun demoWorld
               [EvUpdateYear 2020; EvSetScaleMode "national";
                EvRenderState "WI"; EvFetchSettled 0 (Some wiGeoJSON)]))
     = "national".
Proof.
  destruct (view_changes_without_layer demoCOLORS demoSTATES demoWorld
              2020 "national" "WI" wiInfo wiGeoJSON)
    as (_ & _ & H1 & H2 & _).
  - left. vm_compute. reflexivity.
  - discriminate.
  - vm_compute. reflexivity.
  - split; [exact H1 | exact H2].
Defined.

(** Witness of [overlapping_fetches_last_response_wins]: California then
    Texas selected before either file arrives. *)
Lemma overlapping_fetches_last_response_wins_witness :
  currentGeoJSON
    (app (demoRun demoWorld
            [EvRenderState "CA"; EvRenderState "TX";
             EvFetchSettled 0 (Some caGeoJSON);
             EvFetchSettled 1 (Some txGeoJSON)])) = Some txGeoJSON
  /\ currentGeoJSON
       (app (demoRun demoWorld
               [EvRenderState "CA"; EvRenderState "TX";
                EvFetchSettled 1 (Some txGeoJSON);
                EvFetchSettled 0 (Some caGeoJSON)])) = Some caGeoJSON.
Proof.
  destruct (overlapping_fetches_last_response_wins demoCOLORS demoSTATES
              demoWorld "CA" "TX" caInfo txInfo caGeoJSON txGeoJSON)
    as ((_ & HA & _) & (_ & HB & _)).
  - discriminate.
  - discriminate.
  - vm_compute. reflexivity.
  - vm_compute. reflexivity.
  - split; [exact HA | exact HB].
Defined.

(** C1 as stated fails: California is selected, then Texas; the Texas file
    arrives first and the California file last.  Texas is the selected
    state, yet the cached geometry and the current layer are California's,
    and both layers are on the map. *)
Lemma stale_response_overwrites_newer_selection :
  let w :=
    demoRun demoWorld
      [EvRenderState "CA"; EvRenderState "TX";
       EvFetchSettled 1 (Some txGeoJSON);
       EvFetchSettled 0 (Some caGeoJSON)] in
  currentState (app w) = Some "TX"
  /\ currentGeoJSON (app w) = Some caGeoJSON
  /\ currentLayer (app w) = Some 1%nat
  /\ layer_geojson <$> layers w !! 1%nat = Some caGeoJSON
  /\ map_layers (app w) = [0%nat; 1%nat]
  /\ caGeoJSON <> txGeoJSON.
Proof. vm_compute. repeat split. discriminate. Qed.

(** Witness of [failed_fetch_after_render]: Wisconsin on the map, Texas
    selected, the fetch of Texas fails. *)
Lemma failed_fetch_after_render_witness :
  currentLayer
    (app (demoRun demoRendered [EvRenderState "TX"; EvFetchSettled 1 None]))
  = None
  /\ currentGeoJSON
       (app (demoRun demoRendered
               [EvRenderState "TX"; EvFetchSettled 1 None]))
     = Some wiGeoJSON.
Proof.
  destruct (failed_fetch_after_render demoCOLORS demoSTATES demoRendered
              0 "TX" txInfo) as (H1 & _ & _ & H4 & _).
  - vm_compute. reflexivity.
  - discriminate.
  - vm_compute. reflexivity.
  - split; [exact H1 | exact H4].
Defined.

(** C2 as stated fails: Wisconsin is on the map as layer 0; after the
    failed fetch of Texas the map has no layer and there is no current
    layer. *)
Lemma failed_fetch_clears_rendered_layer :
  currentLayer (app demoRendered) = Some 0%nat
  /\ map_layers (app demoRendered) = [0%nat]
  /\ let w' :=
       demoRun demoRendered [EvRenderState "TX"; EvFetchSettled 1 None] in
     currentLayer (app w') = None
     /\ map_layers (app w') = []
     /\ currentState (app w') = Some "TX".
Proof. vm_compute. repeat split. Qed.

(** Witness of [pause_cancels_timer_renderState_keeps_it]: Wisconsin
    rendered and the animation playing on timer 0. *)
Lemma pause_cancels_timer_renderState_keeps_it_witness :
  timers (demoStep demoPlaying EvTogglePlay) = []
  /\ timers (demoStep demoPlaying (EvRenderState "TX")) = [0%nat].
Proof.
  destruct (pause_cancels_timer_renderState_keeps_it demoCOLORS demoSTATES
              demoPlaying 0) as ((_ & H1 & _) & H2).
  - vm_compute. reflexivity.
  - vm_compute. reflexivity.
  - vm_compute. reflexivity.
  - split; [exact H1|]. destruct (H2 "TX") as (_ & _ & H3 & _). exact H3.
Defined.

(** C9 as stated fails: the animation plays on Wisconsin in year 2000;
    Texas is selected; the timer then expires and the year advances to
    2001, the animation still playing. *)
Lemma renderState_leaves_timer_running :
  isPlaying (app demoPlaying) = true
  /\ currentYear (app demoPlaying) = 2000%Z
  /\ let w' := demoRun demoPlaying [EvRenderState "TX"; EvTimer 0] in
     currentState (app w') = Some "TX"
     /\ isPlaying (app w') = true
     /\ timers w' = [0%nat]
     /\ currentYear (app w') = 2001%Z.
Proof. vm_compute. repeat split. Qed.

(** * Further properties *)

(** ** Loading the dataset *)

Lemma length_append (s1 s2 : string) :
  String.length (s1 +:+ s2) = (String.length s1 + String.length s2)%nat.
Proof.
  induction s1 as [| c s1 IH]; [reflexivity|].
  change (String c s1 +:+ s2) with (String c (s1 +:+ s2)).
  cbn [String.length]. rewrite IH. reflexivity.
Qed.

Lemma zeros_length (n : nat) : String.length (zeros n) = n.
Proof.
  induction n as [| n IH]; cbn; [reflexivity | f_equal; exact IH].
Qed.

(** A padded ZIP code has five characters, or as many as the text it was
    made from when that has more; padding a padded code changes nothing. *)
Theorem padStart5_length_idempotent (s : string) :
  String.length (padStart5 s) = Nat.max 5 (String.length s)
  /\ padStart5 (padStart5 s) = padStart5 s.
Proof.
  assert (H : String.length (padStart5 s) = Nat.max 5 (String.length s)).
  { unfold padStart5. rewrite length_append, zeros_length. lia. }
  split; [exact H|].
  unfold padStart5 at 1. rewrite H.
  replace (5 - Nat.max 5 (String.length s))%nat with 0%nat by lia.
  reflexivity.
Qed.

Lemma storeRow_lookup (k : string) (row : CsvRow) (a : AppState) :
  zhviData (storeRow a row) !! k
  = if storesUnder k row then Some (row_cells row) else zhviData a !! k.
Proof.
  unfold storeRow, storesUnder. destruct (Zip_Code row) as [z |];
    [|reflexivity].
  destruct (bool_decide (z = "")); cbn [negb andb]; [reflexivity|].
  cbn [zhviData with_zhviData]. rewrite lookup_insert.
  destruct (decide (padStart5 z = k)) as [E | NE].
  - rewrite bool_decide_eq_true_2 by exact E. reflexivity.
  - rewrite bool_decide_eq_false_2 by exact NE. reflexivity.
Qed.

Lemma storeRows_lookup (k : string) (data : list CsvRow) (a : AppState) :
  zhviData (foldl storeRow a data) !! k
  = match lastRowFor k data with
    | Some cells => Some cells
    | None => zhviData a !! k
    end.
Proof.
  revert a. induction data as [| row rest IH]; intros a; [reflexivity|].
  cbn [foldl lastRowFor]. rewrite IH, storeRow_lookup.
  destruct (lastRowFor k rest); [reflexivity|].
  destruct (storesUnder k row); reflexivity.
Qed.

Lemma calculateNationalPriceRanges_zhviData (a : AppState) :
  zhviData (calculateNationalPriceRanges a) = zhviData a.
Proof. apply national_loop_zhviData. Qed.

(** After [loadZHVIData], the row found under a key is the last row of the
    file whose non-empty ZIP code pads to that key; a key no row pads to
    keeps what it had.  Rows whose codes differ only in leading zeros
    therefore share a key, and the later one replaces the earlier. *)
Theorem loadZHVIData_last_row_wins (data : list CsvRow) (a : AppState)
    (k : string) :
  zhviData (loadZHVIData data a) !! k
  = match lastRowFor k data with
    | Some cells => Some cells
    | None => zhviData a !! k
    end.
Proof.
  unfold loadZHVIData. rewrite calculateNationalPriceRanges_zhviData.
  apply storeRows_lookup.
Qed.

Lemma lastRowFor_is_Some (k : string) (data : list CsvRow) :
  is_Some (lastRowFor k data)
  <-> Exists (fun row => storesUnder k row = true) data.
Proof.
  induction data as [| row rest IH]; cbn [lastRowFor].
  - split; [intros [c H]; discriminate | intros H; inversion H].
  - rewrite Exists_cons. destruct (lastRowFor k rest) as [c |].
    + split; [intros _; right; apply IH; eauto | eauto].
    + destruct (storesUnder k row).
      * split; [intros _; left; reflexivity | eauto].
      * split.
        -- intros [c H]. discriminate.
        -- intros [H | H]; [discriminate|]. apply IH in H as [c H].
           discriminate.
Qed.

(** The keys of the dataset after [loadZHVIData] are the keys it had and
    the padded codes of the rows with a non-empty [Zip_Code]; rows without
    one are skipped. *)
Theorem loadZHVIData_keys (data : list CsvRow) (a : AppState) (k : string) :
  is_Some (zhviData (loadZHVIData data a) !! k)
  <-> is_Some (zhviData a !! k)
      \/ Exists
           (fun row =>
              exists z : string,
                Zip_Code row = Some z /\ z <> "" /\ padStart5 z = k)
           data.
Proof.
  unfold loadZHVIData.
  rewrite calculateNationalPriceRanges_zhviData, storeRows_lookup.
  assert (Hst : forall row,
            storesUnder k row = true
            <-> exists z : string,
                Zip_Code row = Some z /\ z <> "" /\ padStart5 z = k).
  { intros row. unfold storesUnder. destruct (Zip_Code row) as [z |].
    - rewrite andb_true_iff, negb_true_iff, bool_decide_eq_false,
        bool_decide_eq_true.
      split.
      + intros [H1 H2]. exists z. auto.
      + intros (z' & E & H1 & H2). injection E as <-. auto.
    - split; [discriminate | intros (z & E & _); discriminate]. }
  assert (Hex : Exists (fun row => storesUnder k row = true) data
                <-> Exists
                      (fun row =>
                         exists z : string,
                           Zip_Code row = Some z /\ z <> ""
                           /\ padStart5 z = k) data).
  { rewrite !Exists_exists. split; intros (row & Hin & H); exists row;
      (split; [exact Hin | apply Hst, H]). }
  rewrite <- Hex, <- lastRowFor_is_Some.
  destruct (lastRowFor k data) as [c |].
  - split; [intros _; right; eauto | intros _; eauto].
  - split; [intros H; left; exact H | intros [H | [c H]]; [exact H | discriminate]].
Qed.

(** ** The national table *)

Lemma omap_length_le {A B : Type} (f : A -> option B) (l : list A) :
  (length (omap f l) <= length l)%nat.
Proof.
  induction l as [| x l IH]; cbn; [lia|].
  destruct (f x); cbn; lia.
Qed.

Lemma nationalPrices_valid (year : Z) (a : AppState) :
  Forall (fun p => validPrice p = true) (nationalPrices year a).
Proof.
  apply Forall_forall. intros p Hp. unfold nationalPrices in Hp.
  apply list_elem_of_omap in Hp as (data & _ & Hf).
  destruct (data !! year) as [v |]; [|discriminate].
  destruct (validPrice v) eqn:E; [|discriminate].
  injection Hf as <-. exact E.
Qed.

Lemma nationalPrices_length (year : Z) (a : AppState) :
  (length (nationalPrices year a) <= size (zhviData a))%nat.
Proof.
  unfold nationalPrices. etransitivity; [apply omap_length_le|].
  rewrite length_map, length_map_to_list. reflexivity.
Qed.

(** The two percentiles of a list of valid prices are in order. *)
Lemma nationalRangeOf_ordered (prices : list jsnum) :
  Forall (fun p => validPrice p = true) prices ->
  (Z.of_nat (length prices) < 2 ^ 32)%Z ->
  jle (pr_min (nationalRangeOf prices)) (pr_max (nationalRangeOf prices))
  = true.
Proof.
  intros Hvalid Hlen. unfold nationalRangeOf.
  destruct (Nat.ltb_spec 0 (length prices)) as [Hn | Hn]; [|reflexivity].
  cbn [pr_min pr_max]. rewrite sortPrices_length.
  set (n := length prices) in *. set (sorted := sortPrices prices).
  assert (Hsl : length sorted = n) by apply sortPrices_length.
  assert (HnotNaN : Forall (fun y => isNaN y = false) prices).
  { eapply Forall_impl; [exact Hvalid|]. apply validPrice_not_NaN. }
  assert (HnotNaN' : Forall (fun y => isNaN y = false) sorted).
  { unfold sorted. rewrite sortPrices_perm. exact HnotNaN. }
  destruct (percentileIndex_floor n Hlen) as (I05 & _ & I95).
  destruct (percentile_positions n Hn) as ((P1 & P2) & P3).
  rewrite I05, I95.
  apply (ascending_lookup sorted (n / 20) (19 * n / 20)).
  - apply sortPrices_ascending, HnotNaN.
  - exact HnotNaN'.
  - lia.
  - apply at_index_lookup_nat. lia.
  - apply at_index_lookup_nat. lia.
Qed.

(** [calculateNationalPriceRanges] fills the table for the years 2000 to
    2025 and for no other year, and in every entry it writes the lower
    bound is at most the upper bound.  (The dataset has fewer than 2^32
    rows.) *)
Theorem calculateNationalPriceRanges_table (a : AppState) (year : Z) :
  (Z.of_nat (size (zhviData a)) < 2 ^ 32)%Z ->
  nationalPriceRange (calculateNationalPriceRanges a) !! year
  = (if bool_decide (2000 <= year <= 2025)%Z
     then Some (nationalRangeOf (nationalPrices year a))
     else nationalPriceRange a !! year)
  /\ jle (pr_min (nationalRangeOf (nationalPrices year a)))
         (pr_max (nationalRangeOf (nationalPrices year a))) = true.
Proof.
  intros Hsize. split.
  - unfold calculateNationalPriceRanges. rewrite national_loop_lookup.
    destruct (decide (2000 <= year <= 2025)%Z) as [Hy | Hy].
    + rewrite !bool_decide_eq_true_2; [reflexivity | exact Hy |].
      apply elem_of_seqZ. lia.
    + rewrite !bool_decide_eq_false_2; [reflexivity | exact Hy |].
      intros Hin. apply elem_of_seqZ in Hin. lia.
  - apply nationalRangeOf_ordered; [apply nationalPrices_valid|].
    pose proof (nationalPrices_length year a). lia.
Qed.

(** ** Styling of features *)

Section Styling.

Variable COLORS : list string.

(** The price range of a state depends on the rows of its own ZIP codes and
    on the current year, and on nothing else in the state. *)
Theorem calculatePriceRange_local (geojson : GeoJSON) (a b : AppState) :
  (forall f : Feature,
      f ∈ features geojson ->
      zhviData a !! ZCTA5CE10 f = zhviData b !! ZCTA5CE10 f) ->
  currentYear a = currentYear b ->
  calculatePriceRange geojson a = calculatePriceRange geojson b.
Proof.
  intros Hrows Hyear. unfold calculatePriceRange. f_equal.
  unfold collectPrices. rewrite Hyear.
  induction (features geojson) as [| f fs IH]; [reflexivity|].
  assert (Hc : yearCell (ZCTA5CE10 f) (currentYear b) a
               = yearCell (ZCTA5CE10 f) (currentYear b) b).
  { unfold yearCell. rewrite (Hrows f) by left. reflexivity. }
  cbn [omap list_omap]. rewrite Hc, IH; [reflexivity|].
  intros f' Hf'. apply Hrows. right. exact Hf'.
Qed.

(** A negative price is left out of the price range by
    [calculatePriceRange], yet the feature that has it is painted with the
    first colour of the palette, not with the no-data colour. *)
Theorem styleFeature_negative_price (feature : Feature) (a : AppState)
    (p lo hi : Q) :
  yearCell (ZCTA5CE10 feature) (currentYear a) a = Some (Fin p) ->
  (p < 0)%Q ->
  priceRange a = {| pr_min := Fin lo; pr_max := Fin hi |} ->
  (0 <= lo)%Q -> (lo < hi)%Q ->
  (0 < length COLORS)%nat ->
  validPrice (Fin p) = false
  /\ styleFeature COLORS feature a = COLORS !! 0%nat.
Proof.
  intros Hcell Hp Hr Hlo Hlh Hlen. split.
  - cbn. apply Qltb_ge. change (inject_Z 0) with 0%Q. lra.
  - unfold styleFeature. rewrite Hcell.
    assert (Hf : falsy (Fin p) = false).
    { cbn. apply Qeq_bool_false. lra. }
    rewrite Hf. unfold getColor. rewrite Hf, Hr, bucketIndex_Fin by exact Hlh.
    pose proof (scaled_low COLORS lo hi p Hlh ltac:(lra)) as Hs.
    apply Qfloor_resp_le in Hs. change 0%Q with (inject_Z 0) in Hs.
    rewrite Qfloor_Z in Hs.
    replace (Z.max 0 (Z.min (Qfloor (scaled COLORS lo hi p))
                        (Z.of_nat (length COLORS) - 1))) with 0%Z by lia.
    apply (colorAt_of_Z COLORS 0). lia.
Qed.

Lemma styledFrom_fill (geojson : GeoJSON) (l i : nat) (f : Feature)
    (w : World) :
  styledFrom COLORS geojson l w ->
  features geojson !! i = Some f ->
  exists L : Layer,
    layers w !! l = Some L
    /\ layer_fill L !! i = Some (styleFeature COLORS f (app w)).
Proof.
  intros (HL & _) Hf. eexists. split; [exact HL|].
  cbn [newLayer layer_fill]. rewrite list_lookup_fmap, Hf. reflexivity.
Qed.

(** On a styled layer, a feature without a row, without a cell for the
    current year, or whose cell reads as zero or as no number at all, is
    painted in the no-data colour whatever the price range and the scale
    mode. *)
Theorem styleFeature_no_data (geojson : GeoJSON) (l i : nat) (f : Feature)
    (w : World) :
  styledFrom COLORS geojson l w ->
  features geojson !! i = Some f ->
  match yearCell (ZCTA5CE10 f) (currentYear (app w)) (app w) with
  | Some v => falsy v = true
  | None => True
  end ->
  exists L : Layer,
    layers w !! l = Some L /\ layer_fill L !! i = Some (Some "#6b7280").
Proof.
  intros Hs Hf H.
  destruct (styledFrom_fill geojson l i f w Hs Hf) as (L & HL & Hfill).
  exists L. split; [exact HL|]. rewrite Hfill. f_equal.
  unfold styleFeature.
  destruct (yearCell _ _ _) as [v |]; [rewrite H|]; reflexivity.
Qed.

Lemma styledFrom_state_range (geojson : GeoJSON) (l : nat) (w : World) :
  styledFrom COLORS geojson l w ->
  scaleMode (app w) <> "national" ->
  priceRange (app w)
  = {| pr_min := r_min (calculatePriceRange geojson (app w));
       pr_max := r_max (calculatePriceRange geojson (app w)) |}.
Proof.
  intros (_ & Hr & _) Hmode. rewrite Hr. unfold applyPriceRange. fields.
  rewrite bool_decide_eq_false_2 by exact Hmode. reflexivity.
Qed.

Lemma styleFeature_valid (f : Feature) (a : AppState) (price : jsnum) :
  yearCell (ZCTA5CE10 f) (currentYear a) a = Some price ->
  validPrice price = true ->
  styleFeature COLORS f a = getColor COLORS price a.
Proof.
  intros Hc Hv. unfold styleFeature.
  rewrite Hc, (validPrice_truthy price Hv). reflexivity.
Qed.

(** On a layer styled on the state scale, with the 5th percentile strictly
    below the 95th, every feature with a positive price gets a colour of
    the palette: the first one when its price is at or below the 5th
    percentile, the last one when it is at or above the 95th. *)
Theorem state_scale_extremes (geojson : GeoJSON) (l i : nat) (f : Feature)
    (w : World) (price : jsnum) (lo hi : Q) :
  styledFrom COLORS geojson l w ->
  scaleMode (app w) <> "national" ->
  r_min (calculatePriceRange geojson (app w)) = Fin lo ->
  r_max (calculatePriceRange geojson (app w)) = Fin hi ->
  (lo < hi)%Q ->
  (0 < Z.of_nat (length COLORS) < 2 ^ 32)%Z ->
  features geojson !! i = Some f ->
  yearCell (ZCTA5CE10 f) (currentYear (app w)) (app w) = Some price ->
  validPrice price = true ->
  exists (L : Layer) (k : nat),
    layers w !! l = Some L
    /\ layer_fill L !! i = Some (COLORS !! k)
    /\ (k < length COLORS)%nat
    /\ (jle price (Fin lo) = true -> k = 0%nat)
    /\ (jle (Fin hi) price = true -> k = (length COLORS - 1)%nat).
Proof.
  intros Hs Hmode Hmin Hmax Hlh Hlen Hf Hc Hv.
  destruct (styledFrom_fill geojson l i f w Hs Hf) as (L & HL & Hfill).
  pose proof (styledFrom_state_range geojson l w Hs Hmode) as Hr.
  rewrite Hmin, Hmax in Hr.
  destruct (bucketIndex_valid COLORS lo hi price Hlh Hlen Hv)
    as (z & Hb & Hz & Hlow & Hhigh).
  rewrite <- Hr in Hb.
  exists L, (Z.to_nat z). split; [exact HL|].
  split.
  { rewrite Hfill, (styleFeature_valid f (app w) price Hc Hv).
    f_equal. apply getColor_valid; [exact Hv | lia | exact Hb]. }
  split; [lia|]. split.
  - intros H. rewrite (Hlow H). reflexivity.
  - intros H. rewrite (Hhigh H). lia.
Qed.

(** On a layer styled on the state scale, when all the prices of the state
    for the year are one and the same (in particular when one feature only
    has a price), the range collapses onto that price and the features that
    have it get no fill colour at all: [getColor] returns [undefined]. *)
Theorem state_scale_single_price_unfilled (geojson : GeoJSON) (l i : nat)
    (f : Feature) (w : World) (p : Q) :
  styledFrom COLORS geojson l w ->
  scaleMode (app w) <> "national" ->
  collectPrices geojson (app w) <> [] ->
  Forall (fun x => x = Fin p) (collectPrices geojson (app w)) ->
  (Z.of_nat (length (features geojson)) < 2 ^ 32)%Z ->
  (0 < length COLORS)%nat ->
  features geojson !! i = Some f ->
  yearCell (ZCTA5CE10 f) (currentYear (app w)) (app w) = Some (Fin p) ->
  priceRange (app w) = {| pr_min := Fin p; pr_max := Fin p |}
  /\ exists L : Layer,
      layers w !! l = Some L /\ layer_fill L !! i = Some None.
Proof.
  intros Hs Hmode Hne Hall Hlen Hcol Hf Hc.
  set (prices := collectPrices geojson (app w)) in *.
  assert (Hvalid : Forall (fun x => validPrice x = true) prices)
    by apply collectPrices_valid.
  assert (Hp : validPrice (Fin p) = true).
  { destruct prices as [| x xs]; [contradiction|].
    apply Forall_cons in Hall as [-> _].
    apply Forall_cons in Hvalid as [Hx _]. exact Hx. }
  assert (Hp0 : (0 < p)%Q).
  { cbn in Hp. apply Qltb_lt in Hp. exact Hp. }
  set (n := length prices).
  assert (Hn : (0 < n)%nat).
  { unfold n. destruct prices; [contradiction | cbn; lia]. }
  assert (Hn32 : (Z.of_nat n < 2 ^ 32)%Z).
  { pose proof (omap_length_le
                  (fun feature =>
                     match yearCell (ZCTA5CE10 feature)
                             (currentYear (app w)) (app w) with
                     | Some price =>
                         if validPrice price then Some price else None
                     | None => None
                     end) (features geojson)) as Hle.
    unfold n, prices, collectPrices. lia. }
  set (sorted := sortPrices prices).
  assert (Hsl : length sorted = n) by apply sortPrices_length.
  assert (Hsall : Forall (fun x => x = Fin p) sorted).
  { unfold sorted. rewrite sortPrices_perm. exact Hall. }
  assert (Hat : forall k : nat, (k < n)%nat ->
            at_index sorted (of_nat k) = Fin p).
  { intros k Hk.
    pose proof (at_index_lookup_nat sorted k ltac:(lia)) as Hlk.
    rewrite Forall_forall in Hsall. apply Hsall.
    eapply list_elem_of_lookup_2, Hlk. }
  destruct (percentileIndex_floor n Hn32) as (I05 & _ & I95).
  destruct (percentile_positions n Hn) as ((P1 & P2) & P3).
  assert (Hrange : calculatePriceRange geojson (app w)
                   = rangeOfPrices prices) by reflexivity.
  assert (Hmin : r_min (calculatePriceRange geojson (app w)) = Fin p).
  { rewrite Hrange. unfold rangeOfPrices. fold n.
    destruct (Nat.eqb_spec n 0) as [E | _]; [lia|].
    cbn [r_min]. fold sorted. rewrite Hsl, I05. apply Hat. lia. }
  assert (Hmax : r_max (calculatePriceRange geojson (app w)) = Fin p).
  { rewrite Hrange. unfold rangeOfPrices. fold n.
    destruct (Nat.eqb_spec n 0) as [E | _]; [lia|].
    cbn [r_max]. fold sorted. rewrite Hsl, I95. apply Hat. lia. }
  pose proof (styledFrom_state_range geojson l w Hs Hmode) as Hr.
  rewrite Hmin, Hmax in Hr. split; [exact Hr|].
  destruct (styledFrom_fill geojson l i f w Hs Hf) as (L & HL & Hfill).
  exists L. split; [exact HL|].
  rewrite Hfill, (styleFeature_valid f (app w) (Fin p) Hc Hp).
  f_equal.
  apply (getColor_collapsed_at_bound COLORS (app w) p Hr); [lia | exact Hp0].
Qed.

End Styling.

(** ** What every event preserves *)

Section Invariants.

Variable COLORS : list string.
Variable STATES : gmap string StateInfo.

(** Unfolds the operations behind [step] and splits on their tests. *)
Ltac split_ops :=
  unfold playTick; unfold togglePlay;
  unfold renderState, renderState_resume, updateYear, setScaleMode,
    setInterval, clearInterval;
  unfold loadStateGeoJSON, loadStateGeoJSON_settled, applyPriceRange,
    setStyle, showLoading;
  fields;
  repeat match goal with
         | |- context [match ?x with _ => _ end] => destruct x eqn:?; fields
         end.

(** What an event leaves untouched in any case: the dataset and the
    national table. *)
Lemma step_dataset (e : event) (w : World) :
  zhviData (app (step COLORS STATES w e)) = zhviData (app w)
  /\ nationalPriceRange (app (step COLORS STATES w e))
     = nationalPriceRange (app w).
Proof.
  destruct e as [r | k o | year | mode | | h]; cbn [step];
    split_ops; split; reflexivity.
Qed.

(** No event changes the dataset or the national table: after
    [loadZHVIData] they are only read. *)
Theorem dataset_read_only (w : World) (es : list event) :
  zhviData (app (run COLORS STATES w es)) = zhviData (app w)
  /\ nationalPriceRange (app (run COLORS STATES w es))
     = nationalPriceRange (app w).
Proof.
  revert w. induction es as [| e es IH]; intros w; [split; reflexivity|].
  unfold run in *. cbn [foldl].
  destruct (IH (step COLORS STATES w e)) as [H1 H2].
  destruct (step_dataset e w) as [S1 S2].
  rewrite H1, H2, S1, S2. split; reflexivity.
Qed.

Lemma step_legend (e : event) (w : World) :
  legend (display w) = priceRange (app w) ->
  legend (display (step COLORS STATES w e))
  = priceRange (app (step COLORS STATES w e)).
Proof.
  intros H. destruct e as [r | k o | year | mode | | h]; cbn [step];
    split_ops; first [reflexivity | exact H].
Qed.

(** The bounds shown in the legend are always those of the price range in
    force. *)
Theorem legend_shows_range_in_force (w : World) (es : list event) :
  legend (display w) = priceRange (app w) ->
  legend (display (run COLORS STATES w es))
  = priceRange (app (run COLORS STATES w es)).
Proof.
  revert w. induction es as [| e es IH]; intros w H; [exact H|].
  unfold run in *. cbn [foldl]. apply IH, step_legend, H.
Qed.

Lemma step_fetchLog (e : event) (w : World) :
  fetchLog (step COLORS STATES w e)
  = fetchLog w ++ match requestOf STATES e with
                  | Some url => [url]
                  | None => []
                  end.
Proof.
  destruct e as [r | k o | year | mode | | h]; cbn [step requestOf];
    split_ops; cbn [fmap option_fmap option_map] in *; simplify_eq;
    rewrite ?app_nil_r; reflexivity.
Qed.

(** The requests made over any sequence of events are, in order, one for
    each call of [renderState] with a state of [STATES]: a state is
    fetched again each time it is selected, and nothing else (a failed
    fetch, a change of year or scale, the animation) fetches anything. *)
Theorem fetches_are_the_selections (w : World) (es : list event) :
  fetchLog (run COLORS STATES w es)
  = fetchLog w ++ omap (requestOf STATES) es.
Proof.
  revert w. induction es as [| e es IH]; intros w.
  - cbn. rewrite app_nil_r. reflexivity.
  - unfold run in *. cbn [foldl omap list_omap].
    rewrite IH, step_fetchLog.
    destruct (requestOf STATES e); cbn [app];
      rewrite <- ?app_assoc, ?app_nil_r; reflexivity.
Qed.

(** *** The current layer is always in step with the state *)

Lemma styleFeature_ext (f : Feature) (a b : AppState) :
  zhviData a = zhviData b -> currentYear a = currentYear b ->
  priceRange a = priceRange b ->
  styleFeature COLORS f a = styleFeature COLORS f b.
Proof.
  intros H1 H2 H3. unfold styleFeature, yearCell, getColor.
  rewrite H1, H2, H3. reflexivity.
Qed.

Lemma styledFrom_ext (geojson : GeoJSON) (l : nat) (w w' : World) :
  zhviData (app w') = zhviData (app w) ->
  currentYear (app w') = currentYear (app w) ->
  priceRange (app w') = priceRange (app w) ->
  scaleMode (app w') = scaleMode (app w) ->
  nationalPriceRange (app w') = nationalPriceRange (app w) ->
  layers w' = layers w ->
  stats (display w') = stats (display w) ->
  styledFrom COLORS geojson l w -> styledFrom COLORS geojson l w'.
Proof.
  intros H1 H2 H3 H4 H5 H6 H7 (S1 & S2 & S3).
  assert (Hc : calculatePriceRange geojson (app w')
               = calculatePriceRange geojson (app w))
    by (apply calculatePriceRange_ext; assumption).
  unfold styledFrom. rewrite H6, H7, H3, Hc. split; [|split].
  - rewrite S1. f_equal. unfold newLayer. f_equal.
    apply map_ext. intros f. symmetry. apply styleFeature_ext; assumption.
  - rewrite S2. unfold applyPriceRange. fields. rewrite H4, H5, H2.
    reflexivity.
  - exact S3.
Qed.

Lemma renderedInSync_ext (w w' : World) :
  app w' = app w \/
  (zhviData (app w') = zhviData (app w)
   /\ currentYear (app w') = currentYear (app w)
   /\ priceRange (app w') = priceRange (app w)
   /\ scaleMode (app w') = scaleMode (app w)
   /\ nationalPriceRange (app w') = nationalPriceRange (app w)
   /\ currentLayer (app w') = currentLayer (app w)
   /\ currentGeoJSON (app w') = currentGeoJSON (app w)
   /\ map_layers (app w') = map_layers (app w)) ->
  layers w' = layers w ->
  stats (display w') = stats (display w) ->
  renderedInSync COLORS w -> renderedInSync COLORS w'.
Proof.
  intros Happ HL HS Hsync.
  assert (H : zhviData (app w') = zhviData (app w)
              /\ currentYear (app w') = currentYear (app w)
              /\ priceRange (app w') = priceRange (app w)
              /\ scaleMode (app w') = scaleMode (app w)
              /\ nationalPriceRange (app w') = nationalPriceRange (app w)
              /\ currentLayer (app w') = currentLayer (app w)
              /\ currentGeoJSON (app w') = currentGeoJSON (app w)
              /\ map_layers (app w') = map_layers (app w)).
  { destruct Happ as [-> | H]; [repeat split; reflexivity | exact H]. }
  destruct H as (H1 & H2 & H3 & H4 & H5 & H6 & H7 & H8).
  intros l Hl. rewrite H6 in Hl.
  destruct (Hsync l Hl) as (Hin & g & Hg & Hs).
  rewrite H8, H7. split; [exact Hin|]. exists g. split; [exact Hg|].
  apply (styledFrom_ext g l w w'); assumption.
Qed.

Lemma renderedInSync_view_change (e : event) (w : World) :
  isViewChange e ->
  renderedInSync COLORS w -> renderedInSync COLORS (step COLORS STATES w e).
Proof.
  intros He Hsync l Hl.
  destruct (view_change_frame COLORS STATES e w He)
    as (_ & _ & G3 & G4 & G5 & _ & _).
  cbv zeta in G3, G4, G5. rewrite G4 in Hl.
  destruct (Hsync l Hl) as (Hin & g & Hg & Hs).
  rewrite G5, G3. split; [exact Hin|]. exists g. split; [exact Hg|].
  apply view_change_styledFrom; try assumption.
  apply (styledFrom_layer_geojson COLORS), Hs.
Qed.

Lemma renderedInSync_resume (r : string) (geojson : GeoJSON) (w : World) :
  renderedInSync COLORS
    (renderState_resume COLORS STATES r (Some geojson) w).
Proof.
  intros l Hl. destruct (STATES !! r) as [st |] eqn:Hs.
  - destruct (renderState_resume_success COLORS STATES r st geojson w Hs)
      as (R1 & R2 & R3 & _ & R5 & _).
    cbv zeta in R1, R2, R3, R5. rewrite R2 in Hl. injection Hl as <-.
    rewrite R3. split.
    + apply elem_of_app. right. apply list_elem_of_singleton. reflexivity.
    + exists geojson. split; [exact R1 | exact R5].
  - revert Hl.
    unfold renderState_resume, loadStateGeoJSON_settled, showLoading,
      applyPriceRange, setStyle.
    fields. rewrite Hs. fields. intros Hl. injection Hl as <-.
    split.
    + apply elem_of_app. right. apply list_elem_of_singleton. reflexivity.
    + exists geojson. split; [reflexivity|].
      rewrite alter_app_r_alt by lia.
      rewrite Nat.sub_diag. cbn [alter list_alter].
      unfold styledFrom, applyPriceRange. fields.
      rewrite lookup_app_r by lia. rewrite Nat.sub_diag.
      repeat split; reflexivity.
Qed.

Lemma renderedInSync_togglePlay (w : World) :
  renderedInSync COLORS w -> renderedInSync COLORS (togglePlay COLORS w).
Proof.
  intros Hsync. unfold togglePlay.
  destruct (isPlaying (app w)).
  - unfold clearInterval. destruct (playInterval (app w));
      (eapply renderedInSync_ext; [| | | exact Hsync]);
      first [reflexivity | right; repeat split; reflexivity].
  - unfold setInterval.
    assert (H1 : renderedInSync COLORS (upd_app (with_isPlaying true) w)).
    { eapply renderedInSync_ext; [| | | exact Hsync];
        first [reflexivity | right; repeat split; reflexivity]. }
    fields.
    destruct (2025 <=? currentYear (app w))%Z.
    + pose proof (renderedInSync_view_change (EvUpdateYear 2000)
                    (upd_app (with_isPlaying true) w) I H1) as H2.
      cbn [step] in H2.
      eapply renderedInSync_ext; [| | | exact H2];
        first [reflexivity | right; repeat split; reflexivity].
    + eapply renderedInSync_ext; [| | | exact H1];
        first [reflexivity | right; repeat split; reflexivity].
Qed.

Lemma step_renderedInSync (e : event) (w : World) :
  renderedInSync COLORS w -> renderedInSync COLORS (step COLORS STATES w e).
Proof.
  intros Hsync. destruct e as [r | k o | year | mode | | h].
  - cbn [step]. unfold renderState.
    destruct (bool_decide (r = "")); [exact Hsync|].
    intros l Hl. exfalso. revert Hl.
    unfold loadStateGeoJSON, showLoading. fields.
    destruct (currentLayer (app w)) eqn:E; fields;
      destruct (STATES !! r); fields; rewrite ?E; discriminate.
  - cbn [step]. destruct (pending w !! k) as [r |]; [|exact Hsync].
    destruct o as [g |]; [apply renderedInSync_resume|].
    rewrite renderState_resume_failure.
    eapply renderedInSync_ext; [| | | exact Hsync];
      first [reflexivity | left; reflexivity].
  - apply renderedInSync_view_change; [exact I | exact Hsync].
  - apply renderedInSync_view_change; [exact I | exact Hsync].
  - apply renderedInSync_togglePlay, Hsync.
  - cbn [step]. destruct (bool_decide (h ∈ timers w)); [|exact Hsync].
    unfold playTick. destruct (2025 <=? currentYear (app w))%Z.
    + apply renderedInSync_togglePlay, Hsync.
    + apply (renderedInSync_view_change
               (EvUpdateYear (currentYear (app w) + 1)) w I Hsync).
Qed.

(** Whatever the sequence of selections, responses, year and scale changes
    and timer expiries, whenever a layer is current it is on the map, the
    cached geometry is the one it was built from, and its fill colours, the
    price range and the statistics are those of the current year, scale
    mode and dataset. *)
Theorem current_layer_always_in_sync (w : World) (es : list event) :
  renderedInSync COLORS w ->
  renderedInSync COLORS (run COLORS STATES w es).
Proof.
  revert w. induction es as [| e es IH]; intros w H; [exact H|].
  unfold run in *. cbn [foldl]. apply IH, step_renderedInSync, H.
Qed.

(** *** Timers and years *)

(** At any moment at most one interval timer is active, and one is active
    exactly while the animation plays: it is the timer recorded in
    [playInterval]. *)
Theorem timers_always_consistent (w : World) (es : list event) :
  timersConsistent w -> timersConsistent (run COLORS STATES w es).
Proof.
  revert w. induction es as [| e es IH]; intros w H; [exact H|].
  unfold run in *. cbn [foldl]. apply IH, step_timersConsistent, H.
Qed.

Lemma step_yearInRange (e : event) (w : World) :
  sliderYear e -> yearInRange w -> yearInRange (step COLORS STATES w e).
Proof.
  unfold yearInRange. intros He Hy.
  assert (Hupd : forall year w0, (2000 <= year <= 2025)%Z ->
            (2000 <= currentYear (app (updateYear COLORS year w0))
             <= 2025)%Z).
  { intros year w0 H. rewrite updateYear_currentYear. exact H. }
  assert (Htoggle : (2000 <= currentYear (app (togglePlay COLORS w))
                     <= 2025)%Z).
  { unfold togglePlay. destruct (isPlaying (app w)).
    - unfold clearInterval. destruct (playInterval (app w)); exact Hy.
    - unfold setInterval. fields.
      destruct (2025 <=? currentYear (app w))%Z; fields.
      + rewrite updateYear_currentYear. lia.
      + exact Hy. }
  destruct e as [r | k o | year | mode | | h]; cbn [step].
  - split_ops; exact Hy.
  - split_ops; exact Hy.
  - apply Hupd, He.
  - split_ops; exact Hy.
  - exact Htoggle.
  - destruct (bool_decide (h ∈ timers w)); [|exact Hy].
    unfold playTick.
    destruct (Z.leb_spec 2025 (currentYear (app w))); [exact Htoggle|].
    apply Hupd. lia.
Qed.

(** As long as the slider delivers years from 2000 to 2025, the current
    year stays within 2000..2025: neither the animation nor any other
    event takes it outside. *)
Theorem year_stays_in_range (w : World) (es : list event) :
  yearInRange w -> Forall sliderYear es ->
  yearInRange (run COLORS STATES w es).
Proof.
  intros Hy Hes. revert w Hy.
  induction Hes as [| e es He Hes IH]; intros w Hy; [exact Hy|].
  unfold run in *. cbn [foldl]. apply IH, step_yearInRange; assumption.
Qed.

Lemma timer_tick_advances (w : World) (h : nat) :
  isPlaying (app w) = true -> playInterval (app w) = Some h ->
  timers w = [h] -> (currentYear (app w) < 2025)%Z ->
  let w' := step COLORS STATES w (EvTimer h) in
  isPlaying (app w') = true /\ playInterval (app w') = Some h
  /\ timers w' = [h]
  /\ currentYear (app w') = (currentYear (app w) + 1)%Z.
Proof.
  intros Hp Hi Ht Hy. cbv zeta. cbn [step]. rewrite Ht.
  rewrite bool_decide_eq_true_2
    by (apply list_elem_of_singleton; reflexivity).
  unfold playTick.
  destruct (Z.leb_spec 2025 (currentYear (app w))); [lia|].
  destruct (updateYear_timers COLORS (currentYear (app w) + 1) w)
    as (T1 & _ & T3 & T4).
  cbv zeta in T1, T3, T4. rewrite T1, T3, T4, updateYear_currentYear.
  repeat split; assumption || reflexivity.
Qed.

(** The animation advances the year by one at each expiry of its timer up
    to 2025, and the expiry that finds the year at 2025 stops it: the timer
    is cancelled and the year stays 2025. *)
Theorem animation_runs_to_2025_and_stops (w : World) (h : nat) (j : nat) :
  isPlaying (app w) = true -> playInterval (app w) = Some h ->
  timers w = [h] ->
  (currentYear (app w) + Z.of_nat j <= 2025)%Z ->
  let wj := run COLORS STATES w (replicate j (EvTimer h)) in
  (isPlaying (app wj) = true /\ timers wj = [h]
   /\ currentYear (app wj) = (currentYear (app w) + Z.of_nat j)%Z)
  /\ (currentYear (app w) + Z.of_nat j = 2025 ->
      let w' := step COLORS STATES wj (EvTimer h) in
      isPlaying (app w') = false /\ timers w' = []
      /\ currentYear (app w') = 2025)%Z.
Proof.
  intros Hp Hi Ht Hy. cbv zeta.
  assert (Hrun : isPlaying
                   (app (run COLORS STATES w (replicate j (EvTimer h))))
                 = true
                 /\ playInterval
                      (app (run COLORS STATES w (replicate j (EvTimer h))))
                    = Some h
                 /\ timers (run COLORS STATES w (replicate j (EvTimer h)))
                    = [h]
                 /\ currentYear
                      (app (run COLORS STATES w (replicate j (EvTimer h))))
                    = (currentYear (app w) + Z.of_nat j)%Z).
  { revert w Hp Hi Ht Hy. induction j as [| j IH]; intros w Hp Hi Ht Hy.
    - cbn. repeat split; try assumption. lia.
    - unfold run in *. cbn [replicate foldl].
      destruct (timer_tick_advances w h Hp Hi Ht ltac:(lia))
        as (A1 & A2 & A3 & A4).
      cbv zeta in A1, A2, A3, A4.
      destruct (IH _ A1 A2 A3 ltac:(lia)) as (B1 & B2 & B3 & B4).
      rewrite B1, B2, B3, B4, A4. repeat split; try reflexivity. lia. }
  destruct Hrun as (R1 & R2 & R3 & R4).
  split; [repeat split; assumption|].
  intros Hend. cbn [step]. rewrite R3.
  rewrite bool_decide_eq_true_2
    by (apply list_elem_of_singleton; reflexivity).
  unfold playTick.
  destruct (Z.leb_spec 2025
              (currentYear
                 (app (run COLORS STATES w (replicate j (EvTimer h))))));
    [|lia].
  destruct (togglePlay_pause COLORS _ h R1 R2 R3) as [P1 P2].
  split; [exact P1|]. split; [exact P2|].
  unfold togglePlay, clearInterval. rewrite R1, R2. fields. lia.
Qed.

(** Pressing play when the year is 2025 (or beyond) first takes the year
    back to 2000, restyling the current layer if there is one, and then
    starts the timer. *)
Theorem play_at_the_end_rewinds (w : World) :
  isPlaying (app w) = false -> timers w = [] ->
  (2025 <= currentYear (app w))%Z ->
  let w' := step COLORS STATES w EvTogglePlay in
  currentYear (app w') = 2000%Z
  /\ isPlaying (app w') = true
  /\ playInterval (app w') = Some (nextTimer w)
  /\ timers w' = [nextTimer w]
  /\ (forall (l : nat) (geojson : GeoJSON),
        currentLayer (app w) = Some l ->
        currentGeoJSON (app w) = Some geojson ->
        layer_geojson <$> layers w !! l = Some geojson ->
        styledFrom COLORS geojson l w').
Proof.
  intros Hp Ht Hy. cbv zeta.
  change (step COLORS STATES w EvTogglePlay) with (togglePlay COLORS w).
  destruct (togglePlay_play COLORS w Hp Ht) as (P1 & P2 & P3).
  split.
  { unfold togglePlay, setInterval. rewrite Hp. fields.
    destruct (Z.leb_spec 2025 (currentYear (app w))); [|lia].
    fields. apply updateYear_currentYear. }
  repeat (split; [assumption|]).
  intros l g Hl Hg HL.
  unfold togglePlay, setInterval. rewrite Hp. fields.
  destruct (Z.leb_spec 2025 (currentYear (app w))); [|lia].
  pose proof (view_change_styledFrom COLORS STATES (EvUpdateYear 2000) l g
                (upd_app (with_isPlaying true) w) I Hl Hg HL) as Hs.
  cbn [step] in Hs.
  eapply styledFrom_ext; [| | | | | | | exact Hs]; reflexivity.
Qed.

(** *** Selections that fetch nothing *)

(** Selecting the empty entry does nothing at all.  Selecting a state that
    is not in [STATES] fetches nothing and leaves nothing pending, but it
    is recorded as the selected state and the layer that was shown is taken
    off the map. *)
Theorem renderState_without_fetch (r : string) (w : World) :
  r = "" \/ STATES !! r = None ->
  let w' := step COLORS STATES w (EvRenderState r) in
  fetchLog w' = fetchLog w
  /\ pending w' = pending w
  /\ display w' = display w
  /\ (if bool_decide (r = "") then w' = w
      else currentState (app w') = Some r
           /\ currentLayer (app w') = None
           /\ currentGeoJSON (app w') = currentGeoJSON (app w)
           /\ forall l : nat,
               currentLayer (app w) = Some l -> l ∉ map_layers (app w')).
Proof.
  intros H. cbv zeta. cbn [step]. unfold renderState, loadStateGeoJSON.
  destruct (decide (r = "")) as [E | NE].
  { rewrite !bool_decide_eq_true_2 by exact E. repeat split; reflexivity. }
  destruct H as [H | H]; [contradiction|].
  rewrite !bool_decide_eq_false_2 by exact NE. fields.
  destruct (currentLayer (app w)) as [l0 |] eqn:E; fields; rewrite H;
    fields; rewrite ?E; repeat (split; [reflexivity|]).
  - intros l Hl. injection Hl as <-.
    intros Hin. apply list_elem_of_filter in Hin as [Hne _].
    contradiction.
  - intros l Hl. discriminate.
Qed.

(** *** The national scale *)

Lemma loadZHVIData_tableLoadedAt (data : list CsvRow) (a : AppState)
    (year : Z) :
  nationalPriceRange a = ∅ -> tableLoadedAt year (loadZHVIData data a).
Proof.
  intros Hempty. unfold tableLoadedAt, loadZHVIData.
  unfold calculateNationalPriceRanges at 1. rewrite national_loop_lookup.
  assert (Hnp : nationalPrices year
                  (calculateNationalPriceRanges (foldl storeRow a data))
                = nationalPrices year (foldl storeRow a data)).
  { apply nationalPrices_zhviData, calculateNationalPriceRanges_zhviData. }
  rewrite Hnp.
  assert (Htab : nationalPriceRange (foldl storeRow a data) = ∅).
  { clear Hnp. revert a Hempty.
    induction data as [| row rest IH]; intros a Hempty; [exact Hempty|].
    cbn [foldl]. apply IH. unfold storeRow.
    destruct (Zip_Code row) as [z |]; [|exact Hempty].
    destruct (bool_decide (z = "")); exact Hempty. }
  rewrite Htab, lookup_empty.
  destruct (decide (2000 <= year <= 2025)%Z) as [Hy | Hy].
  - rewrite !bool_decide_eq_true_2; [reflexivity | exact Hy |].
    apply elem_of_seqZ. lia.
  - rewrite !bool_decide_eq_false_2; [reflexivity | exact Hy |].
    intros Hin. apply elem_of_seqZ in Hin. lia.
Qed.

(** On the national scale the price range set by [updateYear] depends on
    the year only, not on the state shown, for the years 2000 to 2025; for
    any other year, which [updateYear] accepts as well, the range silently
    becomes the state's own. *)
Theorem national_scale_by_year (w : World) (l : nat) (geojson : GeoJSON)
    (year : Z) :
  tableLoadedAt year (app w) ->
  currentLayer (app w) = Some l ->
  currentGeoJSON (app w) = Some geojson ->
  scaleMode (app w) = "national" ->
  priceRange (app (updateYear COLORS year w))
  = if bool_decide (2000 <= year <= 2025)%Z
    then nationalRangeOf (nationalPrices year (app w))
    else {| pr_min :=
              r_min (calculatePriceRange geojson
                       (with_currentYear year (app w)));
            pr_max :=
              r_max (calculatePriceRange geojson
                       (with_currentYear year (app w))) |}.
Proof.
  intros Htab Hl Hg Hmode. unfold tableLoadedAt in Htab.
  rewrite (updateYear_rendered COLORS year l geojson w Hl Hg). cbv zeta.
  unfold setStyle, applyPriceRange. fields. rewrite Hmode.
  rewrite bool_decide_eq_true_2 by reflexivity.
  rewrite Htab.
  destruct (bool_decide (2000 <= year <= 2025)%Z); [|reflexivity].
  destruct (nationalRangeOf (nationalPrices year (app w))); reflexivity.
Qed.

End Invariants.

(** ** The ZIP search *)

Lemma sliceTo_length (n : nat) (s : string) :
  String.length (sliceTo n s) = Nat.min n (String.length s).
Proof.
  revert s. induction n as [| n IH]; intros [| c s]; cbn; try reflexivity.
  rewrite IH. reflexivity.
Qed.

Lemma sliceTo_all (n : nat) (s : string) :
  (String.length s <= n)%nat -> sliceTo n s = s.
Proof.
  revert s. induction n as [| n IH]; intros [| c s] H; cbn in *;
    try reflexivity; try lia.
  rewrite IH by lia. reflexivity.
Qed.

Lemma removeNonDigits_allDigits (s : string) :
  allDigits (removeNonDigits s) = true.
Proof.
  induction s as [| c s IH]; [reflexivity|]. cbn [removeNonDigits].
  destruct (isDigit c) eqn:E; [|exact IH].
  cbn [allDigits]. rewrite E, IH. reflexivity.
Qed.

Lemma removeNonDigits_digits (s : string) :
  allDigits s = true -> removeNonDigits s = s.
Proof.
  induction s as [| c s IH]; [reflexivity|]. cbn [allDigits removeNonDigits].
  intros [Hc Hs]%andb_true_iff. rewrite Hc, IH by exact Hs. reflexivity.
Qed.

Lemma sliceTo_allDigits (n : nat) (s : string) :
  allDigits s = true -> allDigits (sliceTo n s) = true.
Proof.
  revert s. induction n as [| n IH]; intros [| c s]; cbn; try reflexivity.
  intros [Hc Hs]%andb_true_iff. rewrite Hc, IH by exact Hs. reflexivity.
Qed.

Lemma removeNonDigits_chars (s : string) :
  String.list_ascii_of_string (removeNonDigits s)
  = List.filter isDigit (String.list_ascii_of_string s).
Proof.
  induction s as [| c s IH]; [reflexivity|].
  cbn [removeNonDigits String.list_ascii_of_string List.filter].
  destruct (isDigit c); [cbn [String.list_ascii_of_string]; f_equal|];
    exact IH.
Qed.

Lemma sliceTo_chars (n : nat) (s : string) :
  String.list_ascii_of_string (sliceTo n s)
  = take n (String.list_ascii_of_string s).
Proof.
  revert s. induction n as [| n IH]; intros [| c s]; try reflexivity.
  cbn [sliceTo String.list_ascii_of_string take]. f_equal. apply IH.
Qed.

Lemma length_chars (s : string) :
  length (String.list_ascii_of_string s) = String.length s.
Proof.
  induction s as [| c s IH]; [reflexivity|]. cbn. f_equal. exact IH.
Qed.

(** What the input handler leaves in the search box: its characters are the
    decimal digits of the text typed, in the order typed, cut after the
    fifth; so it is made of digits only and has five of them, or as many as
    were typed when there are fewer.  Text that is already so is left as it
    is. *)
Theorem sanitizeZipInput_digits (value : string) :
  String.list_ascii_of_string (sanitizeZipInput value)
  = take 5 (List.filter isDigit (String.list_ascii_of_string value))
  /\ allDigits (sanitizeZipInput value) = true
  /\ String.length (sanitizeZipInput value)
     = Nat.min 5
         (length
            (List.filter isDigit (String.list_ascii_of_string value)))
  /\ sanitizeZipInput (sanitizeZipInput value) = sanitizeZipInput value.
Proof.
  assert (H0 : String.list_ascii_of_string (sanitizeZipInput value)
               = take 5
                   (List.filter isDigit
                      (String.list_ascii_of_string value))).
  { unfold sanitizeZipInput.
    rewrite sliceTo_chars, removeNonDigits_chars. reflexivity. }
  assert (H1 : allDigits (sanitizeZipInput value) = true).
  { apply sliceTo_allDigits, removeNonDigits_allDigits. }
  assert (H2 : String.length (sanitizeZipInput value)
               = Nat.min 5
                   (length
                      (List.filter isDigit
                         (String.list_ascii_of_string value)))).
  { rewrite <- length_chars, H0, length_take. reflexivity. }
  split; [exact H0|]. split; [exact H1|]. split; [exact H2|].
  unfold sanitizeZipInput at 1.
  rewrite (removeNonDigits_digits _ H1). apply sliceTo_all. lia.
Qed.

Section SearchFacts.

Variable COLORS : list string.
Variable STATES : gmap string StateInfo.
Variable getStateFromZip : string -> option string.

Lemma searchVisit_hit (zip : string) (l : nat) (found : bool)
    (ui : SearchUI) (i : nat) (f : Feature) :
  ZCTA5CE10 f = zip ->
  searchVisit zip l (found, ui) (i, f)
  = (true,
     mkSearchUI (sw_world ui)
       (Some (foundReport zip (app (sw_world ui))).1)
       (foundReport zip (app (sw_world ui))).2
       (highlighted ui ++ [(l, i)]) (Some (l, i))).
Proof.
  intros H. unfold searchVisit, foundReport, shownPrice, yearCell.
  rewrite bool_decide_eq_true_2 by exact H.
  destruct (zhviData (app (sw_world ui)) !! zip); reflexivity.
Qed.

Lemma searchVisit_miss (zip : string) (l : nat) (found : bool)
    (ui : SearchUI) (i : nat) (f : Feature) :
  ZCTA5CE10 f <> zip ->
  searchVisit zip l (found, ui) (i, f) = (found, ui).
Proof.
  intros H. unfold searchVisit.
  rewrite bool_decide_eq_false_2 by exact H. reflexivity.
Qed.

Lemma searchVisit_fold (zip : string) (l : nat) (es : list (nat * Feature))
    (found : bool) (ui : SearchUI) :
  let r := foldl (searchVisit zip l) (found, ui) es in
  let hits := filter (fun e : nat * Feature => ZCTA5CE10 e.2 = zip) es in
  r.1 = found || bool_decide (hits <> [])
  /\ sw_world r.2 = sw_world ui
  /\ highlighted r.2
     = highlighted ui ++ ((fun e : nat * Feature => (l, e.1)) <$> hits)
  /\ (hits = [] -> r.2 = ui)
  /\ (hits <> [] ->
      searchError r.2 = Some (foundReport zip (app (sw_world ui))).1
      /\ searchSuccess r.2 = (foundReport zip (app (sw_world ui))).2).
Proof.
  revert found ui. induction es as [| [i f] es IH]; intros found ui.
  - cbn. rewrite orb_false_r, app_nil_r.
    split; [reflexivity|]. split; [reflexivity|]. split; [reflexivity|].
    split; [reflexivity|]. intros Hne. contradiction.
  - cbn [foldl]. destruct (decide (ZCTA5CE10 f = zip)) as [E | NE].
    + rewrite (searchVisit_hit zip l found ui i f E).
      rewrite filter_cons_True by exact E.
      specialize (IH true
                    (mkSearchUI (sw_world ui)
                       (Some (foundReport zip (app (sw_world ui))).1)
                       (foundReport zip (app (sw_world ui))).2
                       (highlighted ui ++ [(l, i)]) (Some (l, i)))).
      cbv zeta in IH. destruct IH as (I1 & I2 & I3 & I4 & I5).
      cbv zeta. cbn [sw_world highlighted] in *.
      split.
      { rewrite I1. cbn [orb]. symmetry. apply orb_true_iff. right.
        apply bool_decide_eq_true_2. discriminate. }
      split; [exact I2|]. split.
      { rewrite I3, <- app_assoc. reflexivity. }
      split; [discriminate|]. intros _.
      destruct (filter (fun e : nat * Feature => ZCTA5CE10 e.2 = zip) es)
        as [| e hits] eqn:Eh.
      * rewrite (I4 eq_refl). split; reflexivity.
      * apply I5. discriminate.
    + rewrite (searchVisit_miss zip l found ui i f NE).
      rewrite filter_cons_False by exact NE. apply IH.
Qed.

Lemma hits_on_features (zip : string) (feats : list Feature) :
  filter (fun e : nat * Feature => ZCTA5CE10 e.2 = zip)
    (imap (fun i f => (i, f)) feats) <> []
  <-> zip ∈ ZCTA5CE10 <$> feats.
Proof.
  split.
  - intros H.
    destruct (filter _ _) as [| e hits] eqn:Eh; [contradiction|].
    assert (He : e ∈ filter
                   (fun e : nat * Feature => ZCTA5CE10 e.2 = zip)
                   (imap (fun i f => (i, f)) feats)).
    { rewrite Eh. left. }
    apply list_elem_of_filter in He as [Hz He].
    apply elem_of_lookup_imap in He as (i & f & -> & Hf).
    apply list_elem_of_fmap. exists f. split; [symmetry; exact Hz|].
    eapply list_elem_of_lookup_2, Hf.
  - intros H. apply list_elem_of_fmap in H as (f & Hz & Hf).
    apply list_elem_of_lookup_1 in Hf as [i Hf].
    apply (elem_of_not_nil (i, f)). apply list_elem_of_filter.
    split; [symmetry; exact Hz|].
    apply elem_of_lookup_imap. exists i, f. split; [reflexivity | exact Hf].
Qed.

(** [searchZipCode] from [let found = false] onwards, when a layer is
    current. *)
Lemma searchZipCode_find_spec (zip : string) (l : nat) (ui : SearchUI) :
  currentLayer (app (sw_world ui)) = Some l ->
  exists ui' : SearchUI,
    searchZipCode_find zip ui = Returned ui'
    /\ sw_world ui' = sw_world ui
    /\ searchError ui'
       = Some (searchReport zip (layerFeatures l (sw_world ui))
                 (app (sw_world ui))).1
    /\ searchSuccess ui'
       = (searchReport zip (layerFeatures l (sw_world ui))
            (app (sw_world ui))).2
    /\ forall e : nat * nat,
        e ∈ highlighted ui'
        <-> e ∈ highlighted ui
            \/ exists (i : nat) (f : Feature),
                e = (l, i)
                /\ layerFeatures l (sw_world ui) !! i = Some f
                /\ ZCTA5CE10 f = zip.
Proof.
  intros Hl. unfold searchZipCode_find. rewrite Hl.
  set (feats := layerFeatures l (sw_world ui)).
  pose proof (searchVisit_fold zip l (imap (fun i f => (i, f)) feats)
                false ui) as H.
  cbv zeta in H.
  destruct (foldl (searchVisit zip l) (false, ui)
              (imap (fun i f => (i, f)) feats)) as [found ui1].
  cbn [fst snd] in H. destruct H as (H1 & H2 & H3 & H4 & H5).
  cbn [orb] in H1.
  assert (Hhl : forall e : nat * nat,
            e ∈ highlighted ui1
            <-> e ∈ highlighted ui
                \/ exists (i : nat) (f : Feature),
                    e = (l, i) /\ feats !! i = Some f
                    /\ ZCTA5CE10 f = zip).
  { intros e. rewrite H3, elem_of_app, list_elem_of_fmap.
    split; (intros [H0 | H0]; [left; exact H0 | right]).
    - destruct H0 as ([i f] & -> & Hin).
      apply list_elem_of_filter in Hin as [Hz Hin].
      apply elem_of_lookup_imap in Hin as (i' & f' & E & Hf).
      injection E as -> ->. exists i', f'. auto.
    - destruct H0 as (i & f & -> & Hf & Hz). exists (i, f).
      split; [reflexivity|]. apply list_elem_of_filter.
      split; [exact Hz|]. apply elem_of_lookup_imap.
      exists i, f. auto. }
  unfold searchReport.
  destruct (decide (zip ∈ ZCTA5CE10 <$> feats)) as [Hin | Hout].
  - rewrite !bool_decide_eq_true_2 by exact Hin.
    pose proof (proj2 (hits_on_features zip feats) Hin) as Hne.
    rewrite bool_decide_eq_true_2 in H1 by exact Hne. subst found.
    destruct (H5 Hne) as [E1 E2].
    exists ui1. repeat (split; [first [reflexivity | assumption]|]).
    exact Hhl.
  - rewrite !bool_decide_eq_false_2 by exact Hout.
    assert (Hnil : filter (fun e : nat * Feature => ZCTA5CE10 e.2 = zip)
                     (imap (fun i f => (i, f)) feats) = []).
    { destruct (filter _ _) as [| e hits] eqn:Eh; [reflexivity|].
      exfalso. apply Hout, hits_on_features. rewrite Eh. discriminate. }
    rewrite Hnil in H1. rewrite bool_decide_eq_false_2 in H1 by auto.
    subst found. rewrite (H4 Hnil) in *.
    exists (report MsgBoundaryNotFound false ui).
    repeat (split; [reflexivity|]). exact Hhl.
Qed.

Lemma searchZipCode_checks (zip stateAbbr : string) (ui : SearchUI) :
  String.length zip = 5%nat ->
  getStateFromZip zip = Some stateAbbr ->
  stateAbbr <> "" ->
  is_Some (STATES !! stateAbbr) ->
  searchZipCode STATES getStateFromZip zip ui
  = if bool_decide (currentState (app (sw_world ui)) = Some stateAbbr)
    then stageOf (searchZipCode_find zip ui)
    else SearchAwaiting stateAbbr
           (mkSearchUI (renderState STATES stateAbbr (sw_world ui))
              (searchError ui) (searchSuccess ui) (highlighted ui)
              (fitted ui)).
Proof.
  intros Hlen Hst Hne Hknown. unfold searchZipCode.
  rewrite Hlen, Hst. cbn [Nat.eqb negb].
  rewrite (bool_decide_eq_false_2 (zip = ""))
    by (intros ->; discriminate).
  rewrite (bool_decide_eq_false_2 (stateAbbr = "")) by exact Hne.
  rewrite (bool_decide_eq_true_2 (is_Some (STATES !! stateAbbr)))
    by exact Hknown.
  reflexivity.
Qed.

(** A search for a ZIP code of the state that is shown fetches nothing and
    leaves the application as it is (year, scale, layers and their fill
    colours).  It reports the price of the
    current year (zero when the cell is missing or unreadable) if a feature
    of the layer carries the ZIP code and the dataset has a row for it, the
    absence of price data if the dataset has no row, and a missing boundary
    if no feature carries the code; it highlights exactly the features that
    carry it. *)
Theorem search_in_current_state (zip stateAbbr : string) (l : nat)
    (ui : SearchUI) :
  String.length zip = 5%nat ->
  getStateFromZip zip = Some stateAbbr ->
  stateAbbr <> "" ->
  is_Some (STATES !! stateAbbr) ->
  currentState (app (sw_world ui)) = Some stateAbbr ->
  currentLayer (app (sw_world ui)) = Some l ->
  exists ui' : SearchUI,
    searchZipCode STATES getStateFromZip zip ui = SearchReturned ui'
    /\ sw_world ui' = sw_world ui
    /\ searchError ui'
       = Some (searchReport zip (layerFeatures l (sw_world ui))
                 (app (sw_world ui))).1
    /\ searchSuccess ui'
       = (searchReport zip (layerFeatures l (sw_world ui))
            (app (sw_world ui))).2
    /\ forall e : nat * nat,
        e ∈ highlighted ui'
        <-> e ∈ highlighted ui
            \/ exists (i : nat) (f : Feature),
                e = (l, i)
                /\ layerFeatures l (sw_world ui) !! i = Some f
                /\ ZCTA5CE10 f = zip.
Proof.
  intros Hlen Hst Hne Hknown Hcur Hl.
  rewrite (searchZipCode_checks zip stateAbbr ui Hlen Hst Hne Hknown).
  rewrite bool_decide_eq_true_2 by exact Hcur.
  destruct (searchZipCode_find_spec zip l ui Hl) as (ui' & E & H).
  exists ui'. rewrite E. split; [reflexivity | exact H].
Qed.

(** A search for a ZIP code of the selected state raises a [TypeError]
    when the state has no layer: while its file is still being fetched, and
    after the fetch has failed.  Nothing is reported in the search box. *)
Theorem search_before_layer_throws (zip stateAbbr : string) (w : World)
    (ui : SearchUI) :
  String.length zip = 5%nat ->
  getStateFromZip zip = Some stateAbbr ->
  stateAbbr <> "" ->
  is_Some (STATES !! stateAbbr) ->
  let loading := step COLORS STATES w (EvRenderState stateAbbr) in
  let failed :=
    step COLORS STATES loading (EvFetchSettled (length (fetchLog w)) None) in
  (sw_world ui = loading \/ sw_world ui = failed) ->
  searchZipCode STATES getStateFromZip zip ui = SearchThrew.
Proof.
  intros Hlen Hst Hne [info Hinfo] loading failed Hw.
  rewrite (searchZipCode_checks zip stateAbbr ui Hlen Hst Hne)
    by (exists info; exact Hinfo).
  assert (Hloading : currentState (app loading) = Some stateAbbr
                     /\ currentLayer (app loading) = None
                     /\ pending loading !! length (fetchLog w)
                        = Some stateAbbr).
  { unfold loading. cbn [step].
    rewrite (renderState_known STATES stateAbbr info w Hne Hinfo). fields.
    rewrite lookup_insert_eq. repeat split; reflexivity. }
  destruct Hloading as (L1 & L2 & L3).
  assert (Hfailed : currentState (app failed) = Some stateAbbr
                    /\ currentLayer (app failed) = None).
  { unfold failed. cbn [step]. rewrite L3.
    rewrite renderState_resume_failure. fields. split; assumption. }
  destruct Hfailed as (F1 & F2).
  unfold searchZipCode_find.
  destruct Hw as [-> | ->].
  - rewrite bool_decide_eq_true_2 by exact L1. rewrite L2. reflexivity.
  - rewrite bool_decide_eq_true_2 by exact F1. rewrite F2. reflexivity.
Qed.

(** A search for a ZIP code of another state selects that state exactly as
    the state menu does and waits for its file.  When the file arrives, the
    search goes on in the new layer: the application is as after the
    selection and the arrival, and the report is made on the features of
    the file.  When the fetch fails, the search raises an exception. *)
Theorem search_in_other_state (zip stateAbbr : string) (ui : SearchUI) :
  String.length zip = 5%nat ->
  getStateFromZip zip = Some stateAbbr ->
  stateAbbr <> "" ->
  is_Some (STATES !! stateAbbr) ->
  currentState (app (sw_world ui)) <> Some stateAbbr ->
  let w := sw_world ui in
  let request := length (fetchLog w) in
  exists awaiting : SearchUI,
    searchZipCode STATES getStateFromZip zip ui
    = SearchAwaiting stateAbbr awaiting
    /\ sw_world awaiting = step COLORS STATES w (EvRenderState stateAbbr)
    /\ searchError awaiting = searchError ui
    /\ searchZipCode_settled COLORS STATES zip request None awaiting = Threw
    /\ forall geojson : GeoJSON,
        exists ui' : SearchUI,
          searchZipCode_settled COLORS STATES zip request (Some geojson)
            awaiting
          = Returned ui'
          /\ sw_world ui'
             = run COLORS STATES w
                 [EvRenderState stateAbbr;
                  EvFetchSettled request (Some geojson)]
          /\ searchError ui'
             = Some (searchReport zip (features geojson)
                       (app (sw_world ui'))).1
          /\ searchSuccess ui'
             = (searchReport zip (features geojson)
                  (app (sw_world ui'))).2.
Proof.
  intros Hlen Hst Hne [info Hinfo] Hcur w request.
  rewrite (searchZipCode_checks zip stateAbbr ui Hlen Hst Hne)
    by (exists info; exact Hinfo).
  rewrite bool_decide_eq_false_2 by exact Hcur.
  eexists. split; [reflexivity|]. cbn [sw_world searchError].
  split; [reflexivity|]. split; [reflexivity|].
  fold w.
  assert (Hloading : currentLayer (app (renderState STATES stateAbbr w))
                     = None
                     /\ pending (renderState STATES stateAbbr w) !! request
                        = Some stateAbbr).
  { rewrite (renderState_known STATES stateAbbr info w Hne Hinfo). fields.
    unfold request. rewrite lookup_insert_eq. split; reflexivity. }
  destruct Hloading as (L2 & L3).
  split.
  - unfold searchZipCode_settled, searchZipCode_find. cbn [sw_world step].
    rewrite L3, renderState_resume_failure. fields. rewrite L2.
    reflexivity.
  - intros geojson.
    set (w2 := step COLORS STATES (renderState STATES stateAbbr w)
                 (EvFetchSettled request (Some geojson))).
    assert (Hw2 : currentLayer (app w2)
                  = Some (length (layers (renderState STATES stateAbbr w)))
                  /\ layerFeatures
                       (length (layers (renderState STATES stateAbbr w))) w2
                     = features geojson).
    { unfold w2. cbn [step]. rewrite L3.
      destruct (renderState_resume_success COLORS STATES stateAbbr info
                  geojson
                  (with_pending
                     (delete request
                        (pending (renderState STATES stateAbbr w)))
                     (renderState STATES stateAbbr w)) Hinfo)
        as (_ & R2 & _ & R4 & _).
      cbv zeta in R2, R4. revert R2 R4. fields. intros R2 R4.
      split; [exact R2|].
      unfold layerFeatures. rewrite R4.
      rewrite lookup_app_r by lia. rewrite Nat.sub_diag. reflexivity. }
    destruct Hw2 as (W1 & W2).
    destruct (searchZipCode_find_spec zip _
                (mkSearchUI w2 (searchError ui) (searchSuccess ui)
                   (highlighted ui) (fitted ui)) W1)
      as (ui' & E & S1 & S2 & S3 & _).
    cbn [sw_world] in S1, S2, S3. rewrite W2 in S2, S3.
    exists ui'. split; [exact E|]. rewrite S1.
    split; [reflexivity|]. split; assumption.
Qed.

Lemma list_alter_same {A : Type} (f : A -> A) (l : list A) (i : nat) :
  (forall x : A, l !! i = Some x -> f x = x) -> alter f i l = l.
Proof.
  revert i. induction l as [| y l IH]; intros [| i] H; try reflexivity.
  - cbn. f_equal. apply H. reflexivity.
  - cbn. f_equal. apply IH. exact H.
Qed.

(** When the highlight of a feature ends on a layer that is styled for the
    current year, scale and dataset, the application is what it was: no
    fill colour changes, and that highlight alone is taken away.  When no
    layer is current at that moment, the highlight stays. *)
Theorem endHighlight_in_sync (l i : nat) (geojson : GeoJSON)
    (ui : SearchUI) :
  layers (sw_world ui) !! l
  = Some (newLayer COLORS geojson (app (sw_world ui))) ->
  let ui' := endHighlight COLORS l i ui in
  match currentLayer (app (sw_world ui)) with
  | Some _ =>
      sw_world ui' = sw_world ui
      /\ forall e : nat * nat,
          e ∈ highlighted ui' <-> e ∈ highlighted ui /\ e <> (l, i)
  | None => ui' = ui
  end.
Proof.
  intros HL. cbv zeta. unfold endHighlight.
  destruct (currentLayer (app (sw_world ui))) as [l0 |]; [|reflexivity].
  cbn [sw_world highlighted]. split.
  - assert (Hlayers : alter
                        (fun L : Layer =>
                           {| layer_geojson := layer_geojson L;
                              layer_fill :=
                                match features (layer_geojson L) !! i with
                                | Some f =>
                                    <[i := styleFeature COLORS f
                                             (app (sw_world ui))]>
                                      (layer_fill L)
                                | None => layer_fill L
                                end |}) l (layers (sw_world ui))
                      = layers (sw_world ui)).
    { apply list_alter_same. intros L HLL. rewrite HL in HLL.
      injection HLL as <-. cbn [newLayer layer_geojson layer_fill].
      unfold newLayer. f_equal.
      destruct (features geojson !! i) as [f |] eqn:Ef; [|reflexivity].
      apply list_insert_id. rewrite list_lookup_fmap, Ef. reflexivity. }
    rewrite Hlayers. destruct (sw_world ui). reflexivity.
  - intros e. rewrite list_elem_of_filter. tauto.
Qed.

End SearchFacts.

(** ** The texts of the info panel *)

Lemma Qle_bool_false (x y : Q) : (y < x)%Q -> Qle_bool x y = false.
Proof.
  intros H. destruct (Qle_bool x y) eqn:E; [|reflexivity].
  apply Qle_bool_iff in E. lra.
Qed.

Lemma Qle_bool_true (x y : Q) : (x <= y)%Q -> Qle_bool x y = true.
Proof. intros H. apply Qle_bool_iff, H. Qed.

Lemma toFixed_small (f : nat) (q : Q) :
  (0 <= q)%Q -> (q < 10 ^ 21)%Q ->
  toFixed f (Fin q)
  = FixedDigits false (Qfloor (q * inject_Z (10 ^ Z.of_nat f) + (1 # 2))%Q).
Proof.
  intros H0 H1. unfold toFixed.
  rewrite (proj2 (Qltb_ge q 0) H0). cbv zeta.
  rewrite (Qle_bool_false _ _ H1). reflexivity.
Qed.

Lemma toFixed_small_neg (f : nat) (q : Q) :
  (q < 0)%Q -> (- (10 ^ 21) < q)%Q ->
  toFixed f (Fin q)
  = FixedDigits true
      (Qfloor (- q * inject_Z (10 ^ Z.of_nat f) + (1 # 2))%Q).
Proof.
  intros H0 H1. unfold toFixed.
  rewrite (proj2 (Qltb_lt q 0) H0). cbv zeta.
  rewrite (Qle_bool_false (10 ^ 21) (- q)) by lra. reflexivity.
Qed.

(** The value [roundPos] gives is at most twice its argument. *)
Lemma roundPos_le_double (x : Q) : (0 < x)%Q -> (roundPos x <= 2 * x)%Q.
Proof.
  intros Hx. destruct (roundPos_bounds x Hx) as [_ H2].
  destruct (binade_spec x Hx) as [B1 _].
  rewrite Qpower_plus in H2 by discriminate.
  change (2 ^ 1)%Q with 2%Q in H2. lra.
Qed.

(** A price from 999500 up to, but not including, one million is shown in
    thousands, rounded to the unit: as '$1000K', not as '$1.00M'. *)
Theorem formatCurrency_thousands_rollover (q : Q) :
  (999500 <= q)%Q -> (q < 1000000)%Q ->
  formatCurrency (Fin q) = CurrencyThousands (FixedDigits false 1000).
Proof.
  intros Hlo Hhi. unfold formatCurrency.
  assert (Hf : falsy (Fin q) = false).
  { cbn. apply Qeq_bool_false. lra. }
  rewrite Hf.
  assert (H1 : jle (of_Z 1000000) (Fin q) = false).
  { cbn. apply Qle_bool_false. change (inject_Z 1000000) with 1000000%Q.
    exact Hhi. }
  rewrite H1.
  assert (H2 : jle (of_Z 1000) (Fin q) = true).
  { cbn. apply Qle_bool_true. change (inject_Z 1000) with 1000%Q. lra. }
  rewrite H2. f_equal.
  assert (Hdiv : jdiv (Fin q) (of_Z 1000)
                 = Fin (round64 (q / inject_Z 1000))) by reflexivity.
  rewrite Hdiv. set (r := round64 (q / inject_Z 1000)).
  assert (Hr1 : ((1999 # 2) <= r)%Q).
  { assert (E : ((1999 # 2) == round64 (31984 # 32))%Q).
    { rewrite round64_dyadic by (vm_compute; reflexivity). reflexivity. }
    rewrite E. apply round64_mono.
    apply Qle_shift_div_l; [reflexivity|].
    change (inject_Z 1000) with 1000%Q.
    assert (E2 : ((31984 # 32) * 1000 == 999500)%Q) by reflexivity.
    rewrite E2. exact Hlo. }
  assert (Hr2 : (r <= 1000)%Q).
  { assert (E : (1000 == round64 (inject_Z 1000))%Q).
    { rewrite round64_Z by (vm_compute; reflexivity). reflexivity. }
    rewrite E. apply round64_mono.
    apply Qle_shift_div_r; [reflexivity|].
    change (inject_Z 1000) with 1000%Q. lra. }
  assert (H21 : (1000 < 10 ^ 21)%Q) by (vm_compute; reflexivity).
  rewrite toFixed_small by lra. f_equal.
  apply Qfloor_eq.
  - change (inject_Z (10 ^ Z.of_nat 0)) with 1%Q.
    change (inject_Z 1000) with 1000%Q. lra.
  - change (inject_Z (10 ^ Z.of_nat 0)) with 1%Q.
    change (inject_Z (1000 + 1)) with 1001%Q. lra.
Qed.

(** In the info panel, a price at or above the price of 2000 is reported
    with a plus sign, in the positive class.  A price below it is reported
    with a minus sign; it is in the negative class unless the decline
    rounds to 0.0, in which case the text reads '+-0.0% since 2000' and the
    class is the positive one. *)
Theorem hover_change_sign (feature : Feature) (a : AppState)
    (data : gmap Z jsnum) (b c : Q) :
  zhviData a !! ZCTA5CE10 feature = Some data ->
  data !! 2000%Z = Some (Fin b) ->
  data !! currentYear a = Some (Fin c) ->
  (0 < b)%Q -> (0 < c)%Q ->
  let panel := highlightFeature_info feature a in
  (b <= c ->
   infoChangeClass panel = InfoChangePositive
   /\ exists change : fixedText,
       infoChange panel = ChangeSince2000 true change)%Q
  /\ (c < b ->
      exists n : Z,
        (0 <= n)%Z
        /\ infoChange panel
           = ChangeSince2000 (n =? 0)%Z (FixedDigits true n)
        /\ infoChangeClass panel
           = if (n =? 0)%Z then InfoChangePositive
             else InfoChangeNegative)%Q.
Proof.
  intros Hrow Hbase Hcur Hb Hc. cbv zeta.
  unfold highlightFeature_info. rewrite Hrow, Hbase, Hcur.
  assert (Fb : falsy (Fin b) = false) by (cbn; apply Qeq_bool_false; lra).
  assert (Fc : falsy (Fin c) = false) by (cbn; apply Qeq_bool_false; lra).
  unfold orZero. rewrite Fb, Fc.
  assert (Lb : jlt (of_Z 0) (Fin b) = true).
  { cbn. apply Qltb_lt. change (inject_Z 0) with 0%Q. exact Hb. }
  assert (Lc : jlt (of_Z 0) (Fin c) = true).
  { cbn. apply Qltb_lt. change (inject_Z 0) with 0%Q. exact Hc. }
  rewrite Lb, Lc. cbn [andb].
  assert (Hx : jmul (jdiv (jsub (Fin c) (Fin b)) (Fin b)) (of_Z 100)
               = Fin (round64
                        (round64 (round64 (c - b) / b) * inject_Z 100))).
  { cbn [jsub jdiv jmul of_Z].
    rewrite (Qeq_bool_false b) by lra. reflexivity. }
  rewrite Hx.
  set (y1 := round64 (c - b)). set (y2 := round64 (y1 / b)).
  set (x := round64 (y2 * inject_Z 100)).
  split.
  - intros Hle.
    assert (H1 : (0 <= y1)%Q) by (apply round64_nonneg; lra).
    assert (H2 : (0 <= y2)%Q).
    { apply round64_nonneg. apply Qle_shift_div_l; [exact Hb | lra]. }
    assert (H3 : (0 <= x)%Q).
    { apply round64_nonneg. change (inject_Z 100) with 100%Q. nra. }
    assert (Hpos : fixedNonNegative (toFixed 1 (Fin x)) = true).
    { unfold toFixed. rewrite (proj2 (Qltb_ge x 0) H3). cbv zeta.
      destruct (Qle_bool (10 ^ 21) x); cbn.
      - apply Qle_bool_true. change (inject_Z 0) with 0%Q. exact H3.
      - reflexivity. }
    cbn [infoChange infoChangeClass]. rewrite Hpos.
    split; [reflexivity|]. eexists. reflexivity.
  - intros Hlt.
    assert (H1 : (y1 < 0)%Q) by (apply round64_lt_0; lra).
    assert (H1' : (- (2 * b) < y1)%Q).
    { unfold y1. rewrite round64_neg by lra.
      pose proof (roundPos_le_double (- (c - b)) ltac:(lra)). lra. }
    assert (H2 : (y2 < 0)%Q).
    { apply round64_lt_0. apply Qlt_shift_div_r; [exact Hb | lra]. }
    assert (H2' : (- (2) <= y2)%Q).
    { assert (E : (- (2) == round64 (inject_Z (-2)))%Q).
      { rewrite round64_Z by (vm_compute; reflexivity). reflexivity. }
      rewrite E. apply round64_mono.
      apply Qle_shift_div_l; [exact Hb|].
      change (inject_Z (-2)) with (- (2))%Q. lra. }
    assert (H3 : (x < 0)%Q).
    { apply round64_lt_0. change (inject_Z 100) with 100%Q. lra. }
    assert (H3' : (- (200) <= x)%Q).
    { assert (E : (- (200) == round64 (inject_Z (-200)))%Q).
      { rewrite round64_Z by (vm_compute; reflexivity). reflexivity. }
      rewrite E. apply round64_mono.
      change (inject_Z (-200)) with (- (200))%Q.
      change (inject_Z 100) with 100%Q. lra. }
    assert (H21 : (200 < 10 ^ 21)%Q) by (vm_compute; reflexivity).
    rewrite toFixed_small_neg by lra.
    set (n := Qfloor (- x * inject_Z (10 ^ Z.of_nat 1) + (1 # 2))%Q).
    assert (Hn : (0 <= n)%Z).
    { unfold n. change 0%Z with (Qfloor (inject_Z 0)) at 1.
      apply Qfloor_resp_le.
      change (inject_Z (10 ^ Z.of_nat 1)) with 10%Q.
      change (inject_Z 0) with 0%Q. lra. }
    exists n. split; [exact Hn|].
    cbn [infoChange infoChangeClass fixedNonNegative negb orb].
    split; reflexivity.
Qed.

(** ** Further statements on the small configuration *)

(** Witness of [calculateNationalPriceRanges_table]: the table of the small
    dataset at 2020. *)
Lemma calculateNationalPriceRanges_table_witness :
  nationalPriceRange
    (calculateNationalPriceRanges (with_zhviData demoData initialAppState))
  !! 2020%Z
  = Some (nationalRangeOf
            (nationalPrices 2020 (with_zhviData demoData initialAppState)))
  /\ jle (pr_min
            (nationalRangeOf
               (nationalPrices 2020
                  (with_zhviData demoData initialAppState))))
         (pr_max
            (nationalRangeOf
               (nationalPrices 2020
                  (with_zhviData demoData initialAppState)))) = true.
Proof.
  apply (calculateNationalPriceRanges_table
           (with_zhviData demoData initialAppState) 2020).
  vm_compute. reflexivity.
Defined.

(** Witness of [calculatePriceRange_local]: the range of California does
    not see the row of a Wisconsin ZIP code being emptied. *)
Lemma calculatePriceRange_local_witness :
  calculatePriceRange caGeoJSON (app demoWorld)
  = calculatePriceRange caGeoJSON
      (with_zhviData (<["54301" := ∅]> demoData) (app demoWorld)).
Proof.
  apply calculatePriceRange_local.
  - intros f Hf. apply list_elem_of_singleton in Hf. subst f.
    vm_compute. reflexivity.
  - vm_compute. reflexivity.
Defined.

(** Witness of [styleFeature_no_data]: 54303 has no row. *)
Lemma styleFeature_no_data_witness :
  exists L : Layer,
    layers demoRendered2020 !! 0%nat = Some L
    /\ layer_fill L !! 2%nat = Some (Some "#6b7280").
Proof.
  apply (styleFeature_no_data demoCOLORS wiGeoJSON 0 2
           {| ZCTA5CE10 := "54303" |} demoRendered2020).
  - unfold styledFrom. vm_compute. repeat split.
  - reflexivity.
  - vm_compute. exact I.
Defined.

(** Witness of [styleFeature_negative_price]: a cell of -1. *)
Lemma styleFeature_negative_price_witness :
  validPrice (Fin (-1 # 1)) = false
  /\ styleFeature demoCOLORS {| ZCTA5CE10 := "54303" |} demoNegative
     = demoCOLORS !! 0%nat.
Proof.
  apply (styleFeature_negative_price demoCOLORS {| ZCTA5CE10 := "54303" |}
           demoNegative (-1 # 1) (100000 # 1) (300000 # 1)).
  - vm_compute. reflexivity.
  - vm_compute. reflexivity.
  - vm_compute. reflexivity.
  - vm_compute. discriminate.
  - vm_compute. reflexivity.
  - vm_compute. lia.
Defined.

(** Witness of [state_scale_extremes]: Wisconsin in 2020, where 54301 has
    the highest price. *)
Lemma state_scale_extremes_witness :
  exists (L : Layer) (k : nat),
    layers demoRendered2020 !! 0%nat = Some L
    /\ layer_fill L !! 0%nat = Some (demoCOLORS !! k)
    /\ (k < length demoCOLORS)%nat
    /\ (jle (Fin (300000 # 1)) (Fin (200000 # 1)) = true -> k = 0%nat)
    /\ (jle (Fin (300000 # 1)) (Fin (300000 # 1)) = true ->
        k = (length demoCOLORS - 1)%nat).
Proof.
  apply (state_scale_extremes demoCOLORS wiGeoJSON 0 0
           {| ZCTA5CE10 := "54301" |} demoRendered2020
           (Fin (300000 # 1)) (200000 # 1) (300000 # 1)).
  - unfold styledFrom. vm_compute. repeat split.
  - vm_compute. discriminate.
  - vm_compute. reflexivity.
  - vm_compute. reflexivity.
  - vm_compute. reflexivity.
  - vm_compute. split; reflexivity.
  - reflexivity.
  - vm_compute. reflexivity.
  - vm_compute. reflexivity.
Defined.

(** Witness of [state_scale_single_price_unfilled]: California, whose one
    ZIP code has a price. *)
Lemma state_scale_single_price_unfilled_witness :
  priceRange (app demoCalifornia)
  = {| pr_min := Fin (600000 # 1); pr_max := Fin (600000 # 1) |}
  /\ exists L : Layer,
      layers demoCalifornia !! 0%nat = Some L
      /\ layer_fill L !! 0%nat = Some None.
Proof.
  apply (state_scale_single_price_unfilled demoCOLORS caGeoJSON 0 0
           {| ZCTA5CE10 := "90001" |} demoCalifornia (600000 # 1)).
  - unfold styledFrom. vm_compute. repeat split.
  - vm_compute. discriminate.
  - vm_compute. discriminate.
  - vm_compute. repeat constructor.
  - vm_compute. reflexivity.
  - vm_compute. lia.
  - reflexivity.
  - vm_compute. reflexivity.
Defined.

(** Witness of [legend_shows_range_in_force]: from the start, through a
    rendering, a change of year and a change of scale. *)
Lemma legend_shows_range_in_force_witness :
  legend
    (display
       (demoRun demoWorld
          [EvRenderState "WI"; EvFetchSettled 0 (Some wiGeoJSON);
           EvUpdateYear 2020; EvSetScaleMode "national"]))
  = priceRange
      (app
         (demoRun demoWorld
            [EvRenderState "WI"; EvFetchSettled 0 (Some wiGeoJSON);
             EvUpdateYear 2020; EvSetScaleMode "national"])).
Proof.
  apply (legend_shows_range_in_force demoCOLORS demoSTATES demoWorld).
  vm_compute. reflexivity.
Defined.

(** Witness of [current_layer_always_in_sync]: from the start, where no
    layer is current. *)
Lemma current_layer_always_in_sync_witness :
  renderedInSync demoCOLORS
    (demoRun demoWorld
       [EvRenderState "WI"; EvFetchSettled 0 (Some wiGeoJSON);
        EvUpdateYear 2020; EvTogglePlay; EvTimer 0]).
Proof.
  apply (current_layer_always_in_sync demoCOLORS demoSTATES demoWorld).
  intros l Hl. vm_compute in Hl. discriminate.
Defined.

(** Witness of [timers_always_consistent]: play, one expiry, pause. *)
Lemma timers_always_consistent_witness :
  timersConsistent
    (demoRun demoWorld [EvTogglePlay; EvTimer 0; EvTogglePlay]).
Proof.
  apply (timers_always_consistent demoCOLORS demoSTATES demoWorld).
  vm_compute. reflexivity.
Defined.

(** Witness of [year_stays_in_range]: the slider at 2025, then play and one
    expiry. *)
Lemma year_stays_in_range_witness :
  yearInRange (demoRun demoWorld [EvUpdateYear 2025; EvTogglePlay; EvTimer 0]).
Proof.
  apply (year_stays_in_range demoCOLORS demoSTATES demoWorld).
  - vm_compute. split; discriminate.
  - repeat (constructor; [first [exact I | vm_compute; split; discriminate]|]).
    constructor.
Defined.

(** Witness of [animation_runs_to_2025_and_stops]: started at 2000, the
    animation reaches 2025 after 25 expiries and the next one stops it. *)
Lemma animation_runs_to_2025_and_stops_witness :
  currentYear (app (demoRun demoPlaying (replicate 25 (EvTimer 0))))
  = (currentYear (app demoPlaying) + Z.of_nat 25)%Z
  /\ isPlaying
       (app (demoStep (demoRun demoPlaying (replicate 25 (EvTimer 0)))
               (EvTimer 0)))
     = false.
Proof.
  destruct (animation_runs_to_2025_and_stops demoCOLORS demoSTATES
              demoPlaying 0 25) as [(_ & _ & H3) H4].
  - vm_compute. reflexivity.
  - vm_compute. reflexivity.
  - vm_compute. reflexivity.
  - vm_compute. discriminate.
  - split; [exact H3|].
    destruct H4 as (H5 & _); [vm_compute; reflexivity | exact H5].
Defined.

(** Witness of [play_at_the_end_rewinds]: Wisconsin shown for 2025. *)
Lemma play_at_the_end_rewinds_witness :
  currentYear
    (app (demoStep (demoStep demoRendered (EvUpdateYear 2025)) EvTogglePlay))
  = 2000%Z
  /\ isPlaying
       (app (demoStep (demoStep demoRendered (EvUpdateYear 2025))
               EvTogglePlay))
     = true.
Proof.
  destruct (play_at_the_end_rewinds demoCOLORS demoSTATES
              (demoStep demoRendered (EvUpdateYear 2025)))
    as (H1 & H2 & _).
  - vm_compute. reflexivity.
  - vm_compute. reflexivity.
  - vm_compute. discriminate.
  - split; [exact H1 | exact H2].
Defined.

(** Witness of [renderState_without_fetch]: a state that is not in the
    table, selected while Wisconsin is shown. *)
Lemma renderState_without_fetch_witness :
  fetchLog (demoStep demoRendered (EvRenderState "ZZ"))
  = fetchLog demoRendered
  /\ currentLayer (app (demoStep demoRendered (EvRenderState "ZZ"))) = None.
Proof.
  destruct (renderState_without_fetch demoCOLORS demoSTATES "ZZ"
              demoRendered) as (H1 & _ & _ & H4).
  - right. vm_compute. reflexivity.
  - split; [exact H1|].
    rewrite bool_decide_eq_false_2 in H4 by discriminate.
    destruct H4 as (_ & H5 & _). exact H5.
Defined.

(** Witness of [national_scale_by_year]: Wisconsin on the national scale,
    the year set to 2020. *)
Lemma national_scale_by_year_witness :
  priceRange
    (app (updateYear demoCOLORS 2020
            (demoStep demoRendered (EvSetScaleMode "national"))))
  = nationalRangeOf
      (nationalPrices 2020
         (app (demoStep demoRendered (EvSetScaleMode "national")))).
Proof.
  apply (national_scale_by_year demoCOLORS
           (demoStep demoRendered (EvSetScaleMode "national")) 0 wiGeoJSON
           2020).
  - unfold tableLoadedAt. vm_compute. reflexivity.
  - vm_compute. reflexivity.
  - vm_compute. reflexivity.
  - vm_compute. reflexivity.
Defined.

(** Witness of [search_in_current_state]: 54302 searched while Wisconsin is
    shown for 2020. *)
Lemma search_in_current_state_witness :
  exists ui' : SearchUI,
    searchZipCode demoSTATES demoGetStateFromZip "54302"
      (demoUI demoRendered2020)
    = SearchReturned ui'
    /\ sw_world ui' = demoRendered2020
    /\ searchError ui' = Some (MsgFound (of_Z 200000) 2020).
Proof.
  destruct (search_in_current_state demoSTATES demoGetStateFromZip
              "54302" "WI" 0 (demoUI demoRendered2020))
    as (ui' & H1 & H2 & H3 & _).
  - reflexivity.
  - vm_compute. reflexivity.
  - discriminate.
  - exists wiInfo. vm_compute. reflexivity.
  - vm_compute. reflexivity.
  - vm_compute. reflexivity.
  - exists ui'. split; [exact H1|]. split; [exact H2|].
    rewrite H3. vm_compute. reflexivity.
Defined.

(** Witness of [search_before_layer_throws]: 54301 searched while the file
    of Wisconsin is being fetched. *)
Lemma search_before_layer_throws_witness :
  searchZipCode demoSTATES demoGetStateFromZip "54301"
    (demoUI (demoStep demoWorld (EvRenderState "WI")))
  = SearchThrew.
Proof.
  apply (search_before_layer_throws demoCOLORS demoSTATES
           demoGetStateFromZip "54301" "WI" demoWorld).
  - reflexivity.
  - vm_compute. reflexivity.
  - discriminate.
  - exists wiInfo. vm_compute. reflexivity.
  - left. reflexivity.
Defined.

(** Witness of [search_in_other_state]: 90001 searched while Wisconsin is
    shown. *)
Lemma search_in_other_state_witness :
  exists awaiting : SearchUI,
    searchZipCode demoSTATES demoGetStateFromZip "90001"
      (demoUI demoRendered)
    = SearchAwaiting "CA" awaiting
    /\ searchZipCode_settled demoCOLORS demoSTATES "90001" 1 None awaiting
       = Threw.
Proof.
  destruct (search_in_other_state demoCOLORS demoSTATES
              demoGetStateFromZip "90001" "CA" (demoUI demoRendered))
    as (awaiting & H1 & _ & _ & H4 & _).
  - reflexivity.
  - vm_compute. reflexivity.
  - discriminate.
  - exists caInfo. vm_compute. reflexivity.
  - vm_compute. discriminate.
  - exists awaiting. split; [exact H1 | exact H4].
Defined.

(** Witness of [endHighlight_in_sync]: the highlight of the first feature
    of Wisconsin ends. *)
Lemma endHighlight_in_sync_witness :
  sw_world
    (endHighlight demoCOLORS 0 0
       (mkSearchUI demoRendered None false [(0, 0)%nat] None))
  = demoRendered.
Proof.
  pose proof (endHighlight_in_sync demoCOLORS 0 0 wiGeoJSON
                (mkSearchUI demoRendered None false [(0, 0)%nat] None))
    as H.
  cbv zeta in H.
  assert (Hc : currentLayer (app demoRendered) = Some 0%nat)
    by (vm_compute; reflexivity).
  cbn [sw_world] in H. rewrite Hc in H.
  destruct H as [H _]; [vm_compute; reflexivity | exact H].
Defined.

(** Witness of [formatCurrency_thousands_rollover]: 999999. *)
Lemma formatCurrency_thousands_rollover_witness :
  formatCurrency (Fin (999999 # 1))
  = CurrencyThousands (FixedDigits false 1000).
Proof.
  apply (formatCurrency_thousands_rollover (999999 # 1)).
  - vm_compute. discriminate.
  - vm_compute. reflexivity.
Defined.

(** Witness of [hover_change_sign]: a decline of one dollar in a million. *)
Lemma hover_change_sign_witness :
  exists n : Z,
    (0 <= n)%Z
    /\ infoChange
         (highlightFeature_info {| ZCTA5CE10 := "54303" |} demoFlat)
       = ChangeSince2000 (n =? 0)%Z (FixedDigits true n)
    /\ infoChangeClass
         (highlightFeature_info {| ZCTA5CE10 := "54303" |} demoFlat)
       = if (n =? 0)%Z then InfoChangePositive else InfoChangeNegative.
Proof.
  destruct (hover_change_sign {| ZCTA5CE10 := "54303" |} demoFlat
              (<[2000%Z := of_Z 1000000]> (<[2020%Z := of_Z 999999]> ∅))
              (1000000 # 1) (999999 # 1)) as [_ H].
  - vm_compute. reflexivity.
  - vm_compute. reflexivity.
  - vm_compute. reflexivity.
  - vm_compute. reflexivity.
  - vm_compute. reflexivity.
  - apply H. vm_compute. reflexivity.
Defined.
